(** * SigMF archives: a model of [sigmf/archive.py]

    [SigMFArchive] packs recordings (a metadata document and a dataset file
    each) into one tar container, [extract] unpacks a container and rebuilds
    the recordings.  The Python code is embedded as functions over an explicit
    world (file system, open file objects, open tar objects); the library
    calls it makes ([os.path], [tempfile], [shutil], [tarfile], [json]) are
    modelled next to it, each with the reading of the library it follows. *)

From stdpp Require Import gmap strings list fin_maps sorting.
From Stdlib Require Import ZArith Ascii.
From Stdlib Require String.

Set Warnings "-register-all".
Open Scope Z_scope.

(** ** Python strings *)

Module Str.

(** [c in s] for a one-character [c]. *)
Fixpoint contains (c : ascii) (s : string) : bool :=
  match s with
  | EmptyString => false
  | String x r => Ascii.eqb x c || contains c r
  end.

(** [s.startswith(p)] *)
Fixpoint startswith (s p : string) : bool :=
  match p, s with
  | EmptyString, _ => true
  | String _ _, EmptyString => false
  | String y p', String x s' => Ascii.eqb x y && startswith s' p'
  end.

(** [s.endswith(suffix)]: [suffix] is [s] or ends a tail of [s]. *)
Fixpoint endswith (s suffix : string) : bool :=
  String.eqb s suffix ||
  match s with
  | EmptyString => false
  | String _ r => endswith r suffix
  end.

(** [s.lstrip(c)] *)
Fixpoint lstrip (c : ascii) (s : string) : string :=
  match s with
  | EmptyString => EmptyString
  | String x r => if Ascii.eqb x c then lstrip c r else s
  end.

(** [s.rstrip(c)] *)
Fixpoint rstrip (c : ascii) (s : string) : string :=
  match s with
  | EmptyString => EmptyString
  | String x r =>
      match rstrip c r with
      | EmptyString => if Ascii.eqb x c then EmptyString else String x EmptyString
      | r' => String x r'
      end
  end.

(** [s[len(p):]] when [s] starts with [p]. *)
Fixpoint strip_prefix (p s : string) : option string :=
  match p, s with
  | EmptyString, _ => Some s
  | String _ _, EmptyString => None
  | String y p', String x s' =>
      if Ascii.eqb x y then strip_prefix p' s' else None
  end.

(** Python's truth value of a string: the empty string is false. *)
Definition truthy (s : string) : bool :=
  match s with EmptyString => false | _ => true end.

End Str.

(** ** [os.path] on POSIX *)

Module Path.

Definition sep : ascii := "/"%char.
Definition extsep : ascii := "."%char.

(** [posixpath.join(a, b)] *)
Definition join (a b : string) : string :=
  if Str.startswith b "/" then b
  else if negb (Str.truthy a) || Str.endswith a "/" then a +:+ b
  else a +:+ "/" +:+ b.

(** [p[:p.rfind("/") + 1]]: the part of [p] up to its last separator. *)
Fixpoint head_of (p : string) : string :=
  match p with
  | EmptyString => EmptyString
  | String x r =>
      if Str.contains sep r then String x (head_of r)
      else if Ascii.eqb x sep then String x EmptyString
      else EmptyString
  end.

(** [posixpath.basename(p)]: the part of [p] after its last separator. *)
Fixpoint basename (p : string) : string :=
  match p with
  | EmptyString => EmptyString
  | String x r =>
      if Str.contains sep r then basename r
      else if Ascii.eqb x sep then r
      else p
  end.

(** [posixpath.dirname(p)]: the head, without its trailing separators
    unless it consists of separators only. *)
Definition dirname (p : string) : string :=
  let head := head_of p in
  match Str.rstrip sep head with
  | EmptyString => head
  | h => h
  end.

(** The extension of a file name [b] that holds no separator, as
    [genericpath._splitext] finds it: from the last dot on, provided some
    character other than a dot stands before that dot. *)
Fixpoint ext_of (b : string) (seen_nondot : bool) : string :=
  match b with
  | EmptyString => EmptyString
  | String x r =>
      if Ascii.eqb x extsep then
        if seen_nondot && negb (Str.contains extsep r) then b
        else ext_of r seen_nondot
      else ext_of r true
  end.

(** [posixpath.splitext(p)[-1]] *)
Definition splitext_ext (p : string) : string := ext_of (basename p) false.

(** [posixpath.isabs(p)] *)
Definition isabs (p : string) : bool := Str.startswith p "/".

(** [p.split("/")] *)
Fixpoint split (p : string) : list string :=
  match p with
  | EmptyString => [EmptyString]
  | String x r =>
      if Ascii.eqb x sep then EmptyString :: split r
      else match split r with
           | h :: t => String x h :: t
           | [] => [String x EmptyString]
           end
  end.

(** ["/".join(comps)] *)
Fixpoint unsplit (comps : list string) : string :=
  match comps with
  | [] => EmptyString
  | [c] => c
  | c :: rest => c +:+ "/" +:+ unsplit rest
  end.

(** One round of the loop of [posixpath.normpath] over the components:
    empty components and [.] are dropped, [..] removes the component before
    it unless there is none to remove. *)
Definition norm_step (initial_slashes : nat) (new_comps : list string)
    (comp : string) : list string :=
  if String.eqb comp "" || String.eqb comp "." then new_comps
  else if negb (String.eqb comp "..")
          || (Nat.eqb initial_slashes 0 && bool_decide (new_comps = []))
          || match last new_comps with
             | Some l => String.eqb l ".."
             | None => false
             end
       then new_comps ++ [comp]
       else removelast new_comps.

(** [posixpath.normpath(path)] *)
Definition normpath (path : string) : string :=
  if String.eqb path "" then "."
  else
    let initial_slashes : nat :=
      if Str.startswith path "/" then
        if Str.startswith path "//" && negb (Str.startswith path "///")
        then 2%nat else 1%nat
      else 0%nat in
    let comps := foldl (norm_step initial_slashes) [] (split path) in
    let path := String.concat EmptyString (replicate initial_slashes "/")
                +:+ unsplit comps in
    if Str.truthy path then path else ".".

(** [posixpath.abspath(path)], with [os.getcwd()] as [cwd]. *)
Definition abspath (cwd path : string) : string :=
  normpath (if isabs path then path else join cwd path).

End Path.

(** ** Data *)

(** A parsed JSON document, as [json.load] returns it.  [JNull] is Python's
    [None].  Numbers are kept as integers: no claim looks inside a document. *)
Inductive json : Type :=
| JNull
| JBool (b : bool)
| JNumber (n : Z)
| JString (s : string)
| JArray (items : list json)
| JObject (fields : list (string * json)).

Definition is_None (v : json) : bool :=
  match v with JNull => true | _ => false end.

(** A recording handle ([SigMFFile], owned by the metadata component): the
    attributes the archive code reads. [None] is an unset attribute. *)
Record SigMFFile : Type := {
  sf_name : option string;
  sf_data_file : option string;
  sf_metadata : json
}.

(** [not x] for an attribute that is [None] or a string. *)
Definition falsy (x : option string) : bool :=
  match x with
  | None => true
  | Some s => negb (Str.truthy s)
  end.

(** One entry of a tar container ([tarfile.TarInfo]): name, type (directory or
    regular file), permission bits and, for a file, its bytes. *)
Record TarInfoOf (D : Type) : Type := {
  ti_name : string;
  ti_isdir : bool;
  ti_mode : Z;
  ti_data : D
}.
Arguments ti_name {D} _.
Arguments ti_isdir {D} _.
Arguments ti_mode {D} _.
Arguments ti_data {D} _.

(** What a file holds: bytes that are no tar container, or a tar container
    with its entries in order.  [damaged] marks a file whose entries are
    followed by bytes at which a reader raises [tarfile.ReadError]: an
    extended header with no valid header behind it, or, with no entry
    before them, bytes that are no header at all. *)
Inductive content : Type :=
| Raw (bytes : string)
| Tar (members : list (TarInfoOf content)) (damaged : bool).

Definition TarInfo : Type := TarInfoOf content.

Inductive Node : Type :=
| File (mode : Z) (data : content)
| Dir (mode : Z).

(** Where an open file object stands in its file ([tell()]).  [tarfile]
    reads and writes a container from where the file object stands, so the
    code depends on it.  Two positions are followed: the start of the file
    and its end.  Offsets in between are not: a file object that has been
    read or written through is put at the end. *)
Inductive position : Type :=
| AtStart
| AtEnd.

(** An open file object over a file of the file system.  [fo_name] is its
    [name] attribute when it has one that is a string: [open(p, ...)] gives
    [p], an [io.BytesIO] has none. *)
Record FileObj : Type := {
  fo_path : string;
  fo_readable : bool;
  fo_writable : bool;
  fo_closed : bool;
  fo_name : option string;
  fo_pos : position
}.

(** A [tarfile.TarFile] object: the file object it works on, whether that
    object was handed in ([_extfileobj]: then [close] leaves it open), the
    entries read or written so far, whether it is closed, and its [name].
    [tf_hidden] tells that the object writes its container behind bytes the
    file already holds, where a reader that starts at the beginning of the
    file does not find it. *)
Record TarFile : Type := {
  tf_fileobj : nat;
  tf_extfileobj : bool;
  tf_members : list TarInfo;
  tf_damaged : bool;
  tf_closed : bool;
  tf_name : option string;
  tf_hidden : bool
}.

(** The world the code runs in.  File objects and tar objects live in two
    heaps and are referred to by their index; [tmp_seed] numbers the names
    [tempfile.mkdtemp] hands out; [cwd] is [os.getcwd()]. *)
Record World : Type := {
  fs : gmap string Node;
  objs : list FileObj;
  tars : list TarFile;
  tmp_seed : nat;
  umask : Z;
  cwd : string
}.

Definition set_fs (f : gmap string Node → gmap string Node) (w : World) : World :=
  {| fs := f (fs w); objs := objs w; tars := tars w;
     tmp_seed := tmp_seed w; umask := umask w; cwd := cwd w |}.

Definition set_objs (f : list FileObj → list FileObj) (w : World) : World :=
  {| fs := fs w; objs := f (objs w); tars := tars w;
     tmp_seed := tmp_seed w; umask := umask w; cwd := cwd w |}.

Definition set_tars (f : list TarFile → list TarFile) (w : World) : World :=
  {| fs := fs w; objs := objs w; tars := f (tars w);
     tmp_seed := tmp_seed w; umask := umask w; cwd := cwd w |}.

Definition set_tmp_seed (n : nat) (w : World) : World :=
  {| fs := fs w; objs := objs w; tars := tars w;
     tmp_seed := n; umask := umask w; cwd := cwd w |}.

(** ** Exceptions and the monad of the code *)

Inductive exn : Type :=
| SigMFFileError
| SigMFValidationError
| ReadError        (* tarfile.ReadError *)
| OSError          (* FileNotFoundError, IsADirectoryError, FileExistsError, ... *)
| ValueError       (* json.JSONDecodeError, UnicodeDecodeError *)
| AttributeError
| TypeError.

#[global] Instance exn_eq_dec : EqDecision exn.
Proof. solve_decision. Defined.

Inductive result (A : Type) : Type :=
| Return (a : A)
| Raise (e : exn).
Arguments Return {A} a.
Arguments Raise {A} e.

(** A computation takes a world and ends with a value or an exception, in
    the world as it is at that moment. *)
Definition M (A : Type) : Type := World → result A * World.

Definition ret {A} (a : A) : M A := λ w, (Return a, w).
Definition raise {A} (e : exn) : M A := λ w, (Raise e, w).
Definition bind {A B} (m : M A) (k : A → M B) : M B :=
  λ w, match m w with
       | (Return a, w') => k a w'
       | (Raise e, w') => (Raise e, w')
       end.

#[global] Instance M_ret : MRet M := @ret.
#[global] Instance M_bind : MBind M := λ A B k m, bind m k.

Definition get : M World := λ w, (Return w, w).
Definition modify (f : World → World) : M unit := λ w, (Return tt, f w).

(** A pure step that may raise. *)
Definition lift {A} (r : result A) : M A := λ w, (r, w).

(** [try: m except e: h] for the listed exception; [None] is a bare
    [except:]. *)
Definition try_except {A} (m : M A) (which : option exn) (h : M A) : M A :=
  λ w, match m w with
       | (Return a, w') => (Return a, w')
       | (Raise e, w') =>
           match which with
           | None => h w'
           | Some e' => if decide (e = e') then h w' else (Raise e, w')
           end
       end.

(** [try: m finally: f] *)
Definition try_finally {A} (m : M A) (f : M unit) : M A :=
  λ w, match m w with
       | (Return a, w') =>
           match f w' with
           | (Return _, w'') => (Return a, w'')
           | (Raise e, w'') => (Raise e, w'')
           end
       | (Raise e, w') =>
           match f w' with
           | (Return _, w'') => (Raise e, w'')
           | (Raise e', w'') => (Raise e', w'')
           end
       end.

(** [for x in xs: body x] *)
Fixpoint for_each {A} (xs : list A) (body : A → M unit) : M unit :=
  match xs with
  | [] => ret tt
  | x :: xs' => bind (body x) (λ _, for_each xs' body)
  end.

(** ** The file system: [os], [tempfile], [shutil]

    The file system is a map from path names to nodes.  Names are compared as
    written: the model speaks of normalised names, on which
    [os.path.abspath] changes nothing.  A name with empty [dirname] lives in
    the working directory, which exists. *)

Definition mode_755 : Z := 7 * 64 + 5 * 8 + 5.
Definition mode_644 : Z := 6 * 64 + 4 * 8 + 4.
Definition mode_700 : Z := 7 * 64.
Definition mode_666 : Z := 6 * 64 + 6 * 8 + 6.
Definition mode_777 : Z := 7 * 64 + 7 * 8 + 7.

(** [mode & ~umask] *)
Definition masked (mode : Z) (w : World) : Z := Z.land mode (Z.lnot (umask w)).

Definition os_path_exists (m : gmap string Node) (p : string) : bool :=
  match m !! p with Some _ => true | None => false end.

Definition os_path_isdir (m : gmap string Node) (p : string) : bool :=
  match m !! p with Some (Dir _) => true | _ => false end.

(** A new entry can be made at [p]: the directory it goes into exists. *)
Definition parent_ok (m : gmap string Node) (p : string) : bool :=
  negb (Str.truthy (Path.dirname p)) || os_path_isdir m (Path.dirname p).

Definition read_file (m : gmap string Node) (p : string) : option content :=
  match m !! p with Some (File _ c) => Some c | _ => None end.

(** [open(p, "w")], write [c], close: the file is made (with the bits the
    umask leaves of 0666) or overwritten. *)
Definition write_file (p : string) (c : content) : M unit := λ w,
  match fs w !! p with
  | Some (Dir _) => (Raise OSError, w)
  | Some (File mode _) => (Return tt, set_fs (insert p (File mode c)) w)
  | None =>
      if parent_ok (fs w) p
      then (Return tt, set_fs (insert p (File (masked mode_666 w) c)) w)
      else (Raise OSError, w)
  end.

(** [os.chmod(p, mode)] on a node that exists; nothing otherwise. *)
Definition set_mode (p : string) (mode : Z) (m : gmap string Node) : gmap string Node :=
  match m !! p with
  | Some (File _ c) => <[p := File mode c]> m
  | Some (Dir _) => <[p := Dir mode]> m
  | None => m
  end.

(** [os.mkdir(p, mode)] that accepts an entry already there, as
    [TarFile.makedir] and [os.makedirs] do. *)
Definition mkdir_if_absent (p : string) (mode : Z) : M unit := λ w,
  if os_path_exists (fs w) p then (Return tt, w)
  else if parent_ok (fs w) p
       then (Return tt, set_fs (insert p (Dir (masked mode w))) w)
       else (Raise OSError, w).

(** The names [os.makedirs(p)] goes through: [p] cut before each separator,
    and [p] itself. *)
Fixpoint prefixes_from (done rest : string) : list string :=
  match rest with
  | EmptyString =>
      if Str.truthy done && negb (Str.endswith done "/") then [done] else []
  | String c r =>
      (if Ascii.eqb c Path.sep && Str.truthy done && negb (Str.endswith done "/")
       then [done] else [])
      ++ prefixes_from (done +:+ String c EmptyString) r
  end.

Definition os_makedirs (p : string) : M unit :=
  for_each (prefixes_from "" p) (λ d, mkdir_if_absent d mode_777).

(** The names [tempfile.mkdtemp] hands out, one per call. *)
Fixpoint underscores (n : nat) : string :=
  match n with
  | O => EmptyString
  | S k => String "_" (underscores k)
  end.

Definition tmp_name (n : nat) : string := "/tmp/tmp" +:+ underscores n.

(** [tempfile.mkdtemp()]: a new directory under /tmp, for its creator only. *)
Definition tempfile_mkdtemp : M string := λ w,
  let d := tmp_name (tmp_seed w) in
  let w1 := set_tmp_seed (S (tmp_seed w)) w in
  if os_path_exists (fs w) d then (Raise OSError, w1)
  else if os_path_isdir (fs w) "/tmp"
       then (Return d, set_fs (insert d (Dir (masked mode_700 w))) w1)
       else (Raise OSError, w1).

(** [shutil.copy(src, dst)]: bytes and permission bits of [src]; into [dst]
    under the name of [src] when [dst] is a directory. *)
Definition shutil_copy (src dst : string) : M unit := λ w,
  let dst := if os_path_isdir (fs w) dst
             then Path.join dst (Path.basename src) else dst in
  match fs w !! src with
  | Some (File mode c) =>
      if String.eqb src dst then (Raise OSError, w)
      else match write_file dst c w with
           | (Return _, w') => (Return tt, set_fs (set_mode dst mode) w')
           | (Raise e, w') => (Raise e, w')
           end
  | _ => (Raise OSError, w)
  end.

(** [p] is [d] or lies below it. *)
Definition within (d p : string) : bool :=
  String.eqb p d ||
  match Str.strip_prefix (Path.join d "") p with
  | Some _ => true
  | None => false
  end.

(** [shutil.rmtree(d)] *)
Definition shutil_rmtree (d : string) : M unit := λ w,
  if os_path_isdir (fs w) d
  then (Return tt, set_fs (filter (λ kv, Is_true (negb (within d kv.1)))) w)
  else (Raise OSError, w).

(** The name under which [p] is listed in directory [d], if it is. *)
Definition child_name (d p : string) : option string :=
  match Str.strip_prefix (Path.join d "") p with
  | Some f => if Str.truthy f && negb (Str.contains Path.sep f) then Some f else None
  | None => None
  end.

(** [os.listdir(d)], in the order of the file system. *)
Definition os_listdir (m : gmap string Node) (d : string) : list string :=
  omap (λ kv, child_name d kv.1) (map_to_list m).

(** ** [tarfile] *)

(** A directory entry is read back without trailing separators. *)
Definition read_back (ti : TarInfo) : TarInfo :=
  if ti_isdir ti
  then {| ti_name := Str.rstrip Path.sep (ti_name ti); ti_isdir := true;
          ti_mode := ti_mode ti; ti_data := ti_data ti |}
  else ti.

Definition new_fileobj (fo : FileObj) : M nat := λ w,
  (Return (length (objs w)), set_objs (λ l, l ++ [fo]) w).

Definition new_tarfile (tf : TarFile) : M nat := λ w,
  (Return (length (tars w)), set_tars (λ l, l ++ [tf]) w).

Definition get_tarfile (t : nat) : M TarFile := λ w,
  match tars w !! t with
  | Some tf => if tf_closed tf then (Raise OSError, w) else (Return tf, w)
  | None => (Raise TypeError, w)
  end.

(** A file object put at position [p], and the same in the heap of file
    objects. *)
Definition at_pos (p : position) (fo : FileObj) : FileObj :=
  {| fo_path := fo_path fo; fo_readable := fo_readable fo;
     fo_writable := fo_writable fo; fo_closed := fo_closed fo;
     fo_name := fo_name fo; fo_pos := p |}.

Definition set_pos (i : nat) (p : position) (l : list FileObj) : list FileObj :=
  match l !! i with
  | Some fo => <[i := at_pos p fo]> l
  | None => l
  end.

(** [fileobj.seek(0)] *)
Definition seek0 (i : nat) : M unit :=
  w ← get;
  match objs w !! i with
  | Some fo =>
      if fo_closed fo then raise ValueError
      else modify (set_objs (set_pos i AtStart))
  | None => raise TypeError
  end.

(** What a file that held [c] holds once the tar object has written its
    entries: the container, when it is written where a reader from the start
    of the file finds it.  A container written behind the bytes of the file
    leaves a reader from the start with what was there: the entries of the
    old container, or bytes that are no header. *)
Definition written (tf : TarFile) (c : content) : content :=
  if tf_hidden tf then
    match c with
    | Raw _ => Tar [] true
    | Tar _ _ => c
    end
  else Tar (tf_members tf) false.

(** What the tar object has read and written so far is written through its
    file object, as long as that file is still in the file system; the file
    object then stands behind what was written. *)
Definition flush (tf : TarFile) : M unit := λ w,
  match objs w !! tf_fileobj tf with
  | Some fo =>
      if fo_closed fo || negb (fo_writable fo) then (Raise ValueError, w)
      else match fs w !! fo_path fo with
           | Some (File mode c) =>
               (Return tt,
                set_objs (set_pos (tf_fileobj tf) AtEnd)
                  (set_fs (insert (fo_path fo) (File mode (written tf c))) w))
           | _ => (Return tt, set_objs (set_pos (tf_fileobj tf) AtEnd) w)
           end
  | None => (Raise TypeError, w)
  end.

(** [open(p, "wb")] *)
Definition open_wb (p : string) : M nat :=
  _ ← write_file p (Raw "");
  new_fileobj {| fo_path := p; fo_readable := false; fo_writable := true;
                 fo_closed := false; fo_name := Some p; fo_pos := AtStart |}.

(** [fileobj.close()] *)
Definition close_fileobj (i : nat) : M unit :=
  modify (set_objs (λ l,
    match l !! i with
    | Some fo => <[i := {| fo_path := fo_path fo; fo_readable := fo_readable fo;
                           fo_writable := fo_writable fo; fo_closed := true;
                           fo_name := fo_name fo; fo_pos := fo_pos fo |}]> l
    | None => l
    end)).

(** [TarFile.name]: [os.path.abspath(name) if name else None], where [name]
    is the [name] of the file object when no other is given. *)
Definition tar_name (w : World) (name : option string) : option string :=
  match name with
  | Some n => if Str.truthy n then Some (Path.abspath (cwd w) n) else None
  | None => None
  end.

(** Whether a container written through [o] now lies behind bytes of the
    file: [o] stands at the end of a file that is not empty. *)
Definition behind (w : World) (o : FileObj) : bool :=
  match fo_pos o, read_file (fs w) (fo_path o) with
  | AtStart, _ => false
  | AtEnd, Some (Raw EmptyString) => false
  | AtEnd, Some _ => true
  | AtEnd, None => false
  end.

(** [tarfile.TarFile(mode="w", fileobj=fo)]: the position of [fo] is asked
    for ([tell()]), nothing is written yet. *)
Definition TarFile_w (fo : nat) : M nat :=
  w ← get;
  match objs w !! fo with
  | Some o =>
      if fo_closed o then raise ValueError
      else new_tarfile {| tf_fileobj := fo; tf_extfileobj := true;
                          tf_members := []; tf_damaged := false;
                          tf_closed := false; tf_name := tar_name w (fo_name o);
                          tf_hidden := behind w o |}
  | None => raise TypeError
  end.

(** [tarfile.TarFile(mode="a", fileobj=fo)]: the entries are read from where
    [fo] stands, up to the end marker, and [fo] is left behind the last of
    them.  A sound container read from its start gives its entries.
    Anything else raises [ReadError] and leaves [fo] behind what was read:
    bytes that are no header, a damaged container, and any file read from
    its end, where the first read finds an empty header. *)
Definition TarFile_a (fo : nat) : M nat :=
  w ← get;
  match objs w !! fo with
  | Some o =>
      if fo_closed o then raise ValueError
      else if negb (fo_readable o) then raise OSError
      else match fo_pos o, read_file (fs w) (fo_path o) with
           | AtStart, Some (Tar ms false) =>
               _ ← modify (set_objs (set_pos fo
                      match ms with [] => AtStart | _ => AtEnd end));
               new_tarfile {| tf_fileobj := fo; tf_extfileobj := true;
                              tf_members := map read_back ms;
                              tf_damaged := false; tf_closed := false;
                              tf_name := tar_name w (fo_name o);
                              tf_hidden := false |}
           | _, _ =>
               _ ← modify (set_objs (set_pos fo AtEnd));
               raise ReadError
           end
  | None => raise TypeError
  end.

(** [tarfile.open(p, mode="r")]: the first header is read at once. *)
Definition tarfile_open (p : string) : M nat :=
  w ← get;
  match fs w !! p with
  | Some (File _ (Tar ms damaged)) =>
      match ms, damaged with
      | [], true => raise ReadError
      | _, _ =>
          fo ← new_fileobj {| fo_path := p; fo_readable := true;
                              fo_writable := false; fo_closed := false;
                              fo_name := Some p; fo_pos := AtEnd |};
          new_tarfile {| tf_fileobj := fo; tf_extfileobj := false;
                         tf_members := map read_back ms;
                         tf_damaged := damaged; tf_closed := false;
                         tf_name := tar_name w (Some p); tf_hidden := false |}
      end
  | Some (File _ (Raw _)) => raise ReadError
  | _ => raise OSError
  end.

(** [archive.getmembers()]: reads the container to its end. *)
Definition getmembers (t : nat) : M (list TarInfo) :=
  tf ← get_tarfile t;
  if tf_damaged tf then raise ReadError else mret (tf_members tf).

(** [archive.extractfile(member)]: the bytes of a regular file, [None] for a
    directory. *)
Definition extractfile (member : TarInfo) : option content :=
  if ti_isdir member then None else Some (ti_data member).

(** [archive.addfile(tarinfo)] *)
Definition addfile (t : nat) (ti : TarInfo) : M unit :=
  tf ← get_tarfile t;
  let tf' := {| tf_fileobj := tf_fileobj tf; tf_extfileobj := tf_extfileobj tf;
                tf_members := tf_members tf ++ [ti];
                tf_damaged := tf_damaged tf; tf_closed := false;
                tf_name := tf_name tf; tf_hidden := tf_hidden tf |} in
  _ ← modify (set_tars (λ l, <[t := tf']> l));
  flush tf'.

(** [archive.gettarinfo(name, arcname)] *)
Definition gettarinfo (name arcname : string) : M TarInfo := λ w,
  match fs w !! name with
  | Some (Dir mode) =>
      (Return {| ti_name := Str.lstrip Path.sep arcname; ti_isdir := true;
                 ti_mode := mode; ti_data := Raw "" |}, w)
  | Some (File mode c) =>
      (Return {| ti_name := Str.lstrip Path.sep arcname; ti_isdir := false;
                 ti_mode := mode; ti_data := c |}, w)
  | None => (Raise OSError, w)
  end.

(** [archive.add(name, arcname=arcname, filter=filter)].  [order] is the order
    in which the entries of a directory are visited: sorted since Python
    3.7, as the file system lists them before.  [depth] bounds the descent;
    the number of nodes of the file system is enough. *)
Fixpoint add_tree (order : list string → list string) (depth : nat) (t : nat)
    (name arcname : string) (filter : TarInfo → TarInfo) : M unit :=
  ti ← gettarinfo name arcname;
  let ti := filter ti in
  _ ← addfile t ti;
  if ti_isdir ti then
    match depth with
    | O => mret tt
    | S depth' =>
        w ← get;
        for_each (order (os_listdir (fs w) name))
          (λ f, add_tree order depth' t (Path.join name f) (Path.join arcname f) filter)
    end
  else mret tt.

Definition tarfile_add (order : list string → list string) (t : nat)
    (name arcname : string) (filter : TarInfo → TarInfo) : M unit :=
  w ← get;
  add_tree order (S (size (fs w))) t name arcname filter.

(** [archive.close()]: a container being written gets its end marker; the
    file object is closed when the tar object opened it itself. *)
Definition tarfile_close (t : nat) (writing : bool) : M unit :=
  w ← get;
  match tars w !! t with
  | Some tf =>
      if tf_closed tf then mret tt
      else
        _ ← (if writing then flush tf else mret tt);
        _ ← modify (set_tars (λ l,
              <[t := {| tf_fileobj := tf_fileobj tf; tf_extfileobj := tf_extfileobj tf;
                        tf_members := tf_members tf; tf_damaged := tf_damaged tf;
                        tf_closed := true; tf_name := tf_name tf;
                        tf_hidden := tf_hidden tf |}]> l));
        if tf_extfileobj tf then mret tt else close_fileobj (tf_fileobj tf)
  | None => raise TypeError
  end.

(** [TarFile._extract_member] for directories and regular files. *)
Definition extract_member (ti : TarInfo) (path : string) : M unit :=
  let targetpath := Str.rstrip Path.sep (Path.join path (ti_name ti)) in
  let upperdirs := Path.dirname targetpath in
  w ← get;
  _ ← (if Str.truthy upperdirs && negb (os_path_exists (fs w) upperdirs)
       then os_makedirs upperdirs else mret tt);
  if ti_isdir ti then mkdir_if_absent targetpath mode_700
  else
    _ ← write_file targetpath (ti_data ti);
    modify (set_fs (set_mode targetpath (ti_mode ti))).

(** [archive.extractall(path=path)]: every entry in order, directories with
    a safe mode first and their own mode once all entries are out. *)
Definition extractall (t : nat) (path : string) : M unit :=
  tf ← get_tarfile t;
  if tf_damaged tf then
    _ ← for_each (tf_members tf) (λ ti, extract_member ti path);
    raise ReadError
  else
    _ ← for_each (tf_members tf) (λ ti, extract_member ti path);
    modify (set_fs (λ m,
      foldr (λ ti m, if ti_isdir ti
                     then set_mode (Path.join path (ti_name ti)) (ti_mode ti) m
                     else m) m (tf_members tf))).

(** ** Collaborators

    What the archive code calls but does not own: the recording handle's
    [validate()] and [dump(file, pretty=True)] (the text it writes), its
    constructor [SigMFFile(metadata=..., data_file=...)], [json.load] over a
    UTF-8 reader ([None] when it raises), and the order in which
    [TarFile.add] visits the entries of a directory. *)
Record Collaborators : Type := {
  validate : SigMFFile → bool;
  dump : SigMFFile → string;
  json_load : string → option json;
  new_SigMFFile : json → string → SigMFFile;
  listing_order : list string → list string
}.

(** ** [sigmf/archive.py] *)

Definition SIGMF_ARCHIVE_EXT : string := ".sigmf".
Definition SIGMF_METADATA_EXT : string := ".sigmf-meta".
Definition SIGMF_DATASET_EXT : string := ".sigmf-data".

(** The first argument of [SigMFArchive]: an iterable of handles, or one
    handle (which is not iterable). *)
Inductive sigmffiles_arg : Type :=
| One (sf : SigMFFile)
| Many (sfs : list SigMFFile).

(** [sigmffiles] itself when it is iterable, [[sigmffiles]] otherwise. *)
Definition as_iterable (sigmffiles : sigmffiles_arg) : list SigMFFile :=
  match sigmffiles with
  | Many sfs => sfs
  | One sf => [sf]
  end.

(** The attributes of a [SigMFArchive] object. *)
Record SigMFArchive : Type := {
  self_path : option string;
  self_fileobj : option nat;
  self_sigmffiles : list SigMFFile
}.

Inductive tar_mode : Type := mode_a | mode_w.

Definition TarFile_new (mode : tar_mode) (fo : nat) : M nat :=
  match mode with
  | mode_a => TarFile_a fo
  | mode_w => TarFile_w fo
  end.

(** The nested function [chmod] of [__init__]. *)
Definition chmod (tarinfo : TarInfo) : TarInfo :=
  if ti_isdir tarinfo
  then {| ti_name := ti_name tarinfo; ti_isdir := ti_isdir tarinfo;
          ti_mode := mode_755; ti_data := ti_data tarinfo |}
  else {| ti_name := ti_name tarinfo; ti_isdir := ti_isdir tarinfo;
          ti_mode := mode_644; ti_data := ti_data tarinfo |}.

Definition _ensure_path_has_correct_extension (self : SigMFArchive) : M SigMFArchive :=
  match self_path self with
  | None => mret self
  | Some path =>
      let has_extension := Str.contains "." path in
      let has_correct_extension := Str.endswith path SIGMF_ARCHIVE_EXT in
      if has_extension && negb has_correct_extension then raise SigMFFileError
      else mret {| self_path := Some (if has_correct_extension then path
                                      else path +:+ SIGMF_ARCHIVE_EXT);
                   self_fileobj := self_fileobj self;
                   self_sigmffiles := self_sigmffiles self |}
  end.

Definition _ensure_sigmffile_name_set (sf : SigMFFile) : M unit :=
  if falsy (sf_name sf) then raise SigMFFileError else mret tt.

Definition _ensure_sigmffile_data_file_set (sf : SigMFFile) : M unit :=
  if falsy (sf_data_file sf) then raise SigMFFileError else mret tt.

(** [fileobj.write(bytes())]: raises unless the object is byte-writable. *)
Definition write_nothing (fo : nat) : M unit := λ w,
  match objs w !! fo with
  | Some o =>
      if fo_closed o then (Raise ValueError, w)
      else if fo_writable o then (Return tt, w) else (Raise OSError, w)
  | None => (Raise AttributeError, w)
  end.

Definition _get_open_fileobj (self : SigMFArchive) : M nat :=
  match self_fileobj self with
  | Some fileobj =>
      _ ← write_nothing fileobj;
      mret fileobj
  | None =>
      match self_path self with
      | Some path => open_wb path
      | None => raise TypeError
      end
  end.

Definition _get_output_fileobj (self : SigMFArchive) : M nat :=
  try_except (_get_open_fileobj self) None (raise SigMFFileError).

(** [sigmf_archive.name]: the name the tar object was given when it was
    made; the attribute is still there once the object is closed. *)
Definition tarfile_name (t : nat) : M (option string) := λ w,
  (Return (tars w !! t ≫= tf_name), w).

(** [if not dir: dir = tempfile.mkdtemp()] *)
Definition dir_or_temp (dir : option string) : M string :=
  match dir with
  | Some d => if Str.truthy d then mret d else tempfile_mkdtemp
  | None => tempfile_mkdtemp
  end.

Section Archive.

Variable ext : Collaborators.

Definition _validate_sigmffile_metadata (sf : SigMFFile) : M unit :=
  let valid_md := validate ext sf in
  if negb valid_md then raise SigMFValidationError else mret tt.

(** The body of the loop of [_check_input]. *)
Definition checks (sf : SigMFFile) : M unit :=
  _ ← _ensure_sigmffile_name_set sf;
  _ ← _ensure_sigmffile_data_file_set sf;
  _validate_sigmffile_metadata sf.

Definition _check_input (self : SigMFArchive) : M SigMFArchive :=
  self ← _ensure_path_has_correct_extension self;
  _ ← for_each (self_sigmffiles self) checks;
  mret self.

(** The body of the loop of [__init__]: stage one recording in a fresh
    directory, add the directory to the container, remove it. *)
Definition add_recording (sigmf_archive : nat) (sigmffile : SigMFFile) : M unit :=
  tmpdir ← tempfile_mkdtemp;
  match sf_name sigmffile, sf_data_file sigmffile with
  | Some name, Some data_file =>
      let sigmf_md_path := name +:+ SIGMF_METADATA_EXT in
      let sigmf_md_path := Path.join tmpdir sigmf_md_path in
      let sigmf_data_path := name +:+ SIGMF_DATASET_EXT in
      let sigmf_data_path := Path.join tmpdir sigmf_data_path in
      _ ← write_file sigmf_md_path (Raw (dump ext sigmffile));
      _ ← shutil_copy data_file sigmf_data_path;
      _ ← tarfile_add (listing_order ext) sigmf_archive tmpdir name chmod;
      shutil_rmtree tmpdir
  | _, _ => raise TypeError
  end.

(** [SigMFArchive.__init__(self, sigmffiles, path, fileobj)]; the result is
    the object as the constructor leaves it. *)
Definition SigMFArchive_init (sigmffiles : sigmffiles_arg) (path : option string)
    (fileobj : option nat) : M SigMFArchive :=
  let self := {| self_path := path; self_fileobj := fileobj;
                 self_sigmffiles := as_iterable sigmffiles |} in
  self ← _check_input self;
  let mode := match fileobj with Some _ => mode_a | None => mode_w end in
  sigmf_fileobj ← _get_output_fileobj self;
  sigmf_archive ← try_except (TarFile_new mode sigmf_fileobj) (Some ReadError)
                    (TarFile_new mode_w sigmf_fileobj);
  _ ← for_each (self_sigmffiles self) (add_recording sigmf_archive);
  _ ← tarfile_close sigmf_archive true;
  _ ← match fileobj with
      | None => close_fileobj sigmf_fileobj
      | Some _ => seek0 sigmf_fileobj
      end;
  name ← tarfile_name sigmf_archive;
  mret {| self_path := name; self_fileobj := self_fileobj self;
          self_sigmffiles := self_sigmffiles self |}.

(** [json.load] over what [archive.extractfile(member)] returns. *)
Definition load_metadata (member : TarInfo) : result json :=
  match extractfile member with
  | None => Raise AttributeError
  | Some (Raw bytes) =>
      match json_load ext bytes with
      | Some v => Return v
      | None => Raise ValueError
      end
  | Some (Tar _ _) => Raise ValueError
  end.

(** The loop of [extract] over the members, with its three variables. *)
Fixpoint scan (dir : string) (members : list TarInfo) (data_file : option string)
    (metadata : json) (sigmffiles : list SigMFFile) : result (list SigMFFile) :=
  match members with
  | [] => Return sigmffiles
  | member :: members =>
      let step :=
        if Str.endswith (ti_name member) SIGMF_DATASET_EXT
        then Return (Some (Path.join dir (ti_name member)), metadata)
        else if Str.endswith (ti_name member) SIGMF_METADATA_EXT
             then match load_metadata member with
                  | Return v => Return (data_file, v)
                  | Raise e => Raise e
                  end
             else Return (data_file, metadata) in
      match step with
      | Raise e => Raise e
      | Return (Some df, md) =>
          if negb (is_None md)
          then scan dir members None JNull (sigmffiles ++ [new_SigMFFile ext md df])
          else scan dir members (Some df) md sigmffiles
      | Return (None, md) => scan dir members None md sigmffiles
      end
  end.

(** [extract(archive_path, dir=None)] *)
Definition extract (archive_path : string) (dir : option string) : M (list SigMFFile) :=
  dir ← dir_or_temp dir;
  archive ← tarfile_open archive_path;
  members ← getmembers archive;
  try_finally
    (_ ← extractall archive dir;
     lift (scan dir members None JNull []))
    (tarfile_close archive false).

End Archive.

(** ** Notions used in the statements *)

(** A handle can be archived: name set, data file set, metadata valid. *)
Definition archivable (ext : Collaborators) (sf : SigMFFile) : bool :=
  negb (falsy (sf_name sf)) && negb (falsy (sf_data_file sf)) && validate ext sf.

(** The permission contract of the container format. *)
Definition mode_ok (ti : TarInfo) : Prop :=
  ti_mode ti = if ti_isdir ti then mode_755 else mode_644.

(** After [m], started in a world that satisfies [P]: [Q] holds of the value
    and the world if [m] returns, [E] of the exception and the world if it
    raises. *)
Definition hoare {A} (P : World → Prop) (m : M A)
    (Q : A → World → Prop) (E : exn → World → Prop) : Prop :=
  ∀ w, P w →
    match m w with
    | (Return a, w') => Q a w'
    | (Raise e, w') => E e w'
    end.

(** The entries a byte sink holds before the call, as [TarFile] in append
    mode reads them from where the sink stands; none for a sink that is no
    sound container or does not stand at its start, and none without a
    sink. *)
Definition sink_members (w : World) (fileobj : option nat) : list TarInfo :=
  match fileobj with
  | Some fo =>
      match objs w !! fo with
      | Some o =>
          match fo_pos o, read_file (fs w) (fo_path o) with
          | AtStart, Some (Tar ms false) => map read_back ms
          | _, _ => []
          end
      | None => []
      end
  | None => []
  end.

(** A tar object holds the entries [old] followed by entries that all obey
    the permission contract. *)
Definition entries_ok (old : list TarInfo) (tf : TarFile) : Prop :=
  ∃ new, tf_members tf = old ++ new ∧ Forall mode_ok new.

(** [m] keeps [I] true, however it ends. *)
Definition preserves {A} (I : World → Prop) (m : M A) : Prop :=
  ∀ w, I w → I (m w).2.

(** The tar object [t] works on file object [fo], is open, and holds the
    entries [old] followed by entries that all obey the permission
    contract; no tar object was made after it. *)
Definition writing_ok (t fo : nat) (old : list TarInfo) (w : World) : Prop :=
  length (tars w) = S t
  ∧ ∃ tf, tars w !! t = Some tf
          ∧ tf_fileobj tf = fo
          ∧ tf_closed tf = false
          ∧ entries_ok old tf.

(** Nothing is to be found under the name [k]. *)
Definition absent (k : string) (w : World) : Prop := fs w !! k = None.

(** The staging directories made since the seed was [s0] are all gone. *)
Definition staging_gone (s0 : nat) (w : World) : Prop :=
  ∀ n, (s0 ≤ n < tmp_seed w)%nat → absent (tmp_name n) w.

(** The staging directory number [s] is in use, the earlier ones are gone. *)
Definition earlier_gone (s0 s : nat) (w : World) : Prop :=
  tmp_seed w = S s ∧ ∀ n, (s0 ≤ n < s)%nat → absent (tmp_name n) w.

(** *** The round trip *)

(** A name that is not empty and ends in no separator. *)
Definition plain (d : string) : Prop :=
  d ≠ "" ∧ Str.endswith d "/" = false.

(** A recording name the container layout can take: not empty, no
    separator in it, and not itself ending in one of the two suffixes. *)
Definition well_named (n : string) : Prop :=
  n ≠ ""
  ∧ Str.contains Path.sep n = false
  ∧ Str.endswith n SIGMF_METADATA_EXT = false
  ∧ Str.endswith n SIGMF_DATASET_EXT = false.

Definition name_of (sf : SigMFFile) : string := default "" (sf_name sf).

(** The three entries of a recording in a container. *)
Definition dir_entry (sf : SigMFFile) : TarInfo :=
  {| ti_name := name_of sf; ti_isdir := true; ti_mode := mode_755;
     ti_data := Raw "" |}.

Definition data_entry (sf : SigMFFile) (c : content) : TarInfo :=
  {| ti_name := name_of sf +:+ "/" +:+ name_of sf +:+ SIGMF_DATASET_EXT;
     ti_isdir := false; ti_mode := mode_644; ti_data := c |}.

Definition meta_entry (ext : Collaborators) (sf : SigMFFile) : TarInfo :=
  {| ti_name := name_of sf +:+ "/" +:+ name_of sf +:+ SIGMF_METADATA_EXT;
     ti_isdir := false; ti_mode := mode_644; ti_data := Raw (dump ext sf) |}.

(** The entries of one recording as the packer writes them: the directory,
    then the two files in the order the directory was listed. *)
Definition chunk_of (ext : Collaborators) (m : gmap string Node) (sf : SigMFFile)
    (chunk : list TarInfo) : Prop :=
  ∃ df c, sf_data_file sf = Some df ∧ read_file m df = Some c
          ∧ (chunk = [dir_entry sf; data_entry sf c; meta_entry ext sf]
             ∨ chunk = [dir_entry sf; meta_entry ext sf; data_entry sf c]).

(** Where the dataset of a recording lands when its container is unpacked
    into [d]. *)
Definition extracted_data_path (d : string) (sf : SigMFFile) : string :=
  d +:+ "/" +:+ name_of sf +:+ "/" +:+ name_of sf +:+ SIGMF_DATASET_EXT.

(** A recording the round trip is stated for: well named, with a data file
    that is there, valid, and with metadata that [dump] and [json.load]
    carry through. *)
Definition roundtrippable (ext : Collaborators) (m : gmap string Node)
    (sf : SigMFFile) : Prop :=
  (∃ n, sf_name sf = Some n ∧ well_named n)
  ∧ (∃ df c, sf_data_file sf = Some df ∧ df ≠ "" ∧ read_file m df = Some c)
  ∧ validate ext sf = true
  ∧ json_load ext (dump ext sf) = Some (sf_metadata sf)
  ∧ is_None (sf_metadata sf) = false.

(** /tmp is there, and nothing is at or below a name that [mkdtemp] will
    hand out from now on; [avoid] is no such name either. *)
Definition staging_free (w : World) (avoid : string) : Prop :=
  os_path_isdir (fs w) "/tmp" = true
  ∧ ∀ n k, (tmp_seed w ≤ n)%nat → within (tmp_name n) k = true →
           fs w !! k = None ∧ k ≠ avoid.

(** The name the container gets for the path given: the path itself when it
    ends in [SIGMF_ARCHIVE_EXT], the path with that suffix otherwise. *)
Definition archive_name (path : string) : string :=
  if Str.endswith path SIGMF_ARCHIVE_EXT then path else path +:+ SIGMF_ARCHIVE_EXT.

(** The file system with the recording [sf], dataset [c], unpacked into
    [d]: its directory and its two files. *)
Definition with_recording (ext : Collaborators) (d : string) (sf : SigMFFile)
    (c : content) (dmode : Z) (m : gmap string Node) : gmap string Node :=
  let n := name_of sf in
  <[d +:+ "/" +:+ n +:+ "/" +:+ n +:+ SIGMF_DATASET_EXT := File mode_644 c]>
    (<[d +:+ "/" +:+ n +:+ "/" +:+ n +:+ SIGMF_METADATA_EXT :=
         File mode_644 (Raw (dump ext sf))]>
       (<[d +:+ "/" +:+ n := Dir dmode]> m)).



(** A container written through the file object [fo] starts where a reader
    from the start of the file finds it: the file is empty, or it holds a
    sound container and [fo] stands at its start, so that the new entries
    follow the old ones. *)
Definition writes_from_start (w : World) (fo : nat) : Prop :=
  ∃ o, objs w !! fo = Some o
       ∧ (read_file (fs w) (fo_path o) = Some (Raw "")
          ∨ (fo_pos o = AtStart
             ∧ ∃ ms, read_file (fs w) (fo_path o) = Some (Tar ms false))).


(** What is fixed of the tar object [t] when it is made: its name, and
    whether it writes behind the bytes of its file. *)
Definition tar_static (t : nat) (name : option string) (hidden : bool)
    (w : World) : Prop :=
  ∃ tf, tars w !! t = Some tf ∧ tf_name tf = name ∧ tf_hidden tf = hidden.

(** An open tar object with other entries. *)
Definition with_members (tf : TarFile) (ms : list TarInfo) : TarFile :=
  {| tf_fileobj := tf_fileobj tf; tf_extfileobj := tf_extfileobj tf;
     tf_members := ms; tf_damaged := tf_damaged tf; tf_closed := false;
     tf_name := tf_name tf; tf_hidden := tf_hidden tf |}.

(** [m] never changes what [f] reads of the world. *)
Definition keeps {A B} (f : World → B) (m : M A) : Prop :=
  ∀ w, f (m w).2 = f w.

(** The steps of [extract] before it reads any metadata go through: the
    directory is there, the container opens, lists its [members] and unpacks
    to disk. *)
Definition unpacks_to_disk (archive_path : string) (dir : option string) (w : World)
    (d : string) (archive : nat) (members : list TarInfo) (w3 : World) : Prop :=
  ∃ w1 w2,
    dir_or_temp dir w = (Return d, w1)
    ∧ tarfile_open archive_path w1 = (Return archive, w2)
    ∧ getmembers archive w2 = (Return members, w2)
    ∧ extractall archive d w2 = (Return tt, w3).

(** The error kinds of the specification that the code has a class for. *)
Definition FileError (e : exn) : Prop := e = SigMFFileError.
Definition ValidationError (e : exn) : Prop := e = SigMFValidationError.

(** *** The pairing of [extract], read off the entry list

    What an entry means to the loop of [extract]: a dataset (with the path it
    is unpacked to), a metadata document, or nothing. *)
Inductive entry : Type :=
| Dataset (path : string)
| Metadata (doc : json)
| Other.

Definition classify (ext : Collaborators) (dir : string) (member : TarInfo) : result entry :=
  if Str.endswith (ti_name member) SIGMF_DATASET_EXT
  then Return (Dataset (Path.join dir (ti_name member)))
  else if Str.endswith (ti_name member) SIGMF_METADATA_EXT
       then match load_metadata ext member with
            | Return v => Return (Metadata v)
            | Raise e => Raise e
            end
       else Return Other.

Fixpoint classify_all (ext : Collaborators) (dir : string) (members : list TarInfo)
    : result (list entry) :=
  match members with
  | [] => Return []
  | member :: members =>
      match classify ext dir member with
      | Raise e => Raise e
      | Return x =>
          match classify_all ext dir members with
          | Raise e => Raise e
          | Return xs => Return (x :: xs)
          end
      end
  end.

(** The latest dataset path of a run of entries, if it has one. *)
Definition last_dataset (run : list entry) : option string :=
  last (omap (λ x, match x with Dataset p => Some p | _ => None end) run).

(** The latest metadata document of a run; [JNull] when it has none. *)
Definition last_metadata (run : list entry) : json :=
  default JNull (last (omap (λ x, match x with Metadata v => Some v | _ => None end) run)).

(** A run is complete: it has a dataset, and its latest metadata document is
    not [null]. *)
Definition complete (run : list entry) : bool :=
  match last_dataset run with
  | Some _ => negb (is_None (last_metadata run))
  | None => false
  end.

(** The length of the shortest complete prefix of [entries]. *)
Definition shortest_complete (entries : list entry) : option nat :=
  find (λ n, complete (take n entries)) (seq 1 (length entries)).

(** *** Destinations and sinks *)

(** The name [p] can be opened for writing: a file that is there, or a new
    name in a directory that is there. *)
Definition openable (m : gmap string Node) (p : string) : Prop :=
  match m !! p with
  | Some (File _ _) => True
  | Some (Dir _) => False
  | None => parent_ok m p = true
  end.

(** The permission bits of [p] once it was opened for writing: its own
    when it was there, what the umask leaves of 0666 when it is new. *)
Definition mode_after_open (w : World) (p : string) : Z :=
  match fs w !! p with
  | Some (File mode _) => mode
  | _ => masked mode_666 w
  end.

(** A file object after [close()]. *)
Definition closed_fileobj (o : FileObj) : FileObj :=
  {| fo_path := fo_path o; fo_readable := fo_readable o;
     fo_writable := fo_writable o; fo_closed := true;
     fo_name := fo_name o; fo_pos := fo_pos o |}.

(** The tar object [t] works on the file object [fo], which it was handed
    and did not open itself. *)
Definition handed (t fo : nat) (w : World) : Prop :=
  ∃ tf, tars w !! t = Some tf ∧ tf_extfileobj tf = true ∧ tf_fileobj tf = fo.

(** The file objects are those of [O], each as it is there, but for the
    position of [fo]. *)
Definition moved_only (fo : nat) (O : list FileObj) (w : World) : Prop :=
  ∃ p, objs w = set_pos fo p O.

(** The entries of a container that [extract] takes for datasets, and
    those it takes for metadata. *)
Definition dataset_entries (members : list TarInfo) : list TarInfo :=
  List.filter (λ m, Str.endswith (ti_name m) SIGMF_DATASET_EXT) members.

Definition metadata_entries (members : list TarInfo) : list TarInfo :=
  List.filter (λ m, negb (Str.endswith (ti_name m) SIGMF_DATASET_EXT)
                    && Str.endswith (ti_name m) SIGMF_METADATA_EXT) members.

(** ** A concrete instance, for the examples

    A stand-in for the collaborators: the validator accepts any document
    but [null], and the JSON reader knows a handful of documents, which it
    reads as [json.load] does. *)

Definition toy_documents : list (string * json) :=
  [("null", JNull); ("{}", JObject []); ("[]", JArray []);
   ("true", JBool true); ("1", JNumber 1)].

Definition toy_json_load (s : string) : option json :=
  snd <$> find (λ kv, String.eqb kv.1 s) toy_documents.

Definition toy_dump (sf : SigMFFile) : string :=
  match sf_metadata sf with
  | JNull => "null"
  | JObject [] => "{}"
  | JArray [] => "[]"
  | JBool true => "true"
  | JNumber 1 => "1"
  | _ => "?"
  end.

Definition toy : Collaborators := {|
  validate := λ sf, negb (is_None (sf_metadata sf));
  dump := toy_dump;
  json_load := toy_json_load;
  new_SigMFFile := λ md df,
    {| sf_name := None; sf_data_file := Some df; sf_metadata := md |};
  listing_order := merge_sort strings.String.le
|}.

(** A small machine: /tmp, a directory of datasets, a directory for output,
    the working directory /home, a umask of 077. *)
Definition fs0 : gmap string Node :=
  list_to_map
    [("/", Dir mode_755); ("/tmp", Dir mode_777); ("/data", Dir mode_755);
     ("/out", Dir mode_755); ("/home", Dir mode_755);
     ("/data/a.bin", File (6 * 64) (Raw "AAAA"));
     ("/data/b.bin", File (6 * 64) (Raw "BBBB"))].

Definition w0 : World :=
  {| fs := fs0; objs := []; tars := []; tmp_seed := 0; umask := 7 * 8 + 7;
     cwd := "/home" |}.

Definition rec_a : SigMFFile :=
  {| sf_name := Some "a"; sf_data_file := Some "/data/a.bin";
     sf_metadata := JObject [] |}.

Definition rec_b : SigMFFile :=
  {| sf_name := Some "b"; sf_data_file := Some "/data/b.bin";
     sf_metadata := JArray [] |}.

(** A container that opens and then fails to list: one entry, then a
    header that cannot be read. *)
Definition w_damaged : World :=
  set_fs (insert "/out/bad.sigmf"
            (File mode_644
               (Tar [{| ti_name := "a"; ti_isdir := true; ti_mode := mode_755;
                        ti_data := Raw "" |}] true))) w0.

(** A container whose one recording has the JSON text [null] for metadata. *)
Definition null_members : list TarInfo :=
  [{| ti_name := "a"; ti_isdir := true; ti_mode := mode_755; ti_data := Raw "" |};
   {| ti_name := "a/a.sigmf-data"; ti_isdir := false; ti_mode := mode_644;
      ti_data := Raw "AAAA" |};
   {| ti_name := "a/a.sigmf-meta"; ti_isdir := false; ti_mode := mode_644;
      ti_data := Raw "null" |}].

Definition w_null : World :=
  set_fs (insert "/out/null.sigmf" (File mode_644 (Tar null_members false))) w0.

(** A recording whose data file is not there. *)
Definition rec_missing : SigMFFile :=
  {| sf_name := Some "m"; sf_data_file := Some "/data/missing.bin";
     sf_metadata := JObject [] |}.

(** A recording whose metadata does not validate. *)
Definition rec_invalid : SigMFFile :=
  {| sf_name := Some "i"; sf_data_file := Some "/data/a.bin";
     sf_metadata := JNull |}.


(** A container whose metadata entry holds bytes that are no JSON text. *)
Definition garbled_members : list TarInfo :=
  [{| ti_name := "a"; ti_isdir := true; ti_mode := mode_755; ti_data := Raw "" |};
   {| ti_name := "a/a.sigmf-data"; ti_isdir := false; ti_mode := mode_644;
      ti_data := Raw "AAAA" |};
   {| ti_name := "a/a.sigmf-meta"; ti_isdir := false; ti_mode := mode_644;
      ti_data := Raw "{oops" |}].

Definition w_garbled : World :=
  set_fs (insert "/out/garbled.sigmf"
            (File mode_644 (Tar garbled_members false))) w0.

(** A container in which a directory is named like a metadata file, ahead
    of a metadata file whose bytes are no JSON text. *)
Definition dirmeta_members : list TarInfo :=
  [{| ti_name := "a"; ti_isdir := true; ti_mode := mode_755; ti_data := Raw "" |};
   {| ti_name := "a/b.sigmf-meta"; ti_isdir := true; ti_mode := mode_755;
      ti_data := Raw "" |};
   {| ti_name := "a/a.sigmf-meta"; ti_isdir := false; ti_mode := mode_644;
      ti_data := Raw "{oops" |}].

Definition w_dirmeta : World :=
  set_fs (insert "/out/dirmeta.sigmf"
            (File mode_644 (Tar dirmeta_members false))) w0.

(** A sound container with one recording. *)
Definition good_members : list TarInfo :=
  [{| ti_name := "a"; ti_isdir := true; ti_mode := mode_755; ti_data := Raw "" |};
   {| ti_name := "a/a.sigmf-data"; ti_isdir := false; ti_mode := mode_644;
      ti_data := Raw "AAAA" |};
   {| ti_name := "a/a.sigmf-meta"; ti_isdir := false; ti_mode := mode_644;
      ti_data := Raw "{}" |}].

(** A file object on [p], open for reading, and for writing or not, as
    [open(p, "r+b")] or [open(p, "rb")] gives it: named [p], at the start. *)
Definition sink_on (p : string) (writable : bool) : FileObj :=
  {| fo_path := p; fo_readable := true; fo_writable := writable;
     fo_closed := false; fo_name := Some p; fo_pos := AtStart |}.

(** A sink open for reading and writing on a file that holds a container. *)
Definition w_sink : World :=
  set_objs (λ _, [sink_on "/out/sink.sigmf" true])
    (set_fs (insert "/out/sink.sigmf" (File mode_644 (Tar good_members false))) w0).

(** The same sink, handed in at the end of its file. *)
Definition w_sink_at_end : World :=
  set_objs (λ _, [at_pos AtEnd (sink_on "/out/sink.sigmf" true)])
    (set_fs (insert "/out/sink.sigmf" (File mode_644 (Tar good_members false))) w0).


(** A sink open for reading only. *)
Definition w_readonly_sink : World :=
  set_objs (λ _, [sink_on "/out/new.sigmf" false])
    (set_fs (insert "/out/new.sigmf" (File mode_644 (Raw ""))) w0).

(** A sink open for writing only, as [open(p, "wb")] gives. *)
Definition w_writeonly_sink : World :=
  set_objs (λ _, [{| fo_path := "/out/new.sigmf"; fo_readable := false;
                     fo_writable := true; fo_closed := false;
                     fo_name := Some "/out/new.sigmf"; fo_pos := AtStart |}])
    (set_fs (insert "/out/new.sigmf" (File mode_644 (Raw ""))) w0).

(** * Proofs *)

(** ** The monad *)

(** The notations of the code unfold to [bind] and [ret]. *)
Ltac monad_norm := unfold mbind, M_bind, mret, M_ret in *.

Lemma bind_run {A B} (m : M A) (k : A → M B) (w : World) :
  bind m k w =
  match m w with
  | (Return a, w') => k a w'
  | (Raise e, w') => (Raise e, w')
  end.
Proof. reflexivity. Qed.

Lemma bind_return {A B} (m : M A) (k : A → M B) w a w' :
  m w = (Return a, w') → bind m k w = k a w'.
Proof. intros H. rewrite bind_run, H. reflexivity. Qed.

Lemma bind_raise {A B} (m : M A) (k : A → M B) w e w' :
  m w = (Raise e, w') → bind m k w = (Raise e, w').
Proof. intros H. rewrite bind_run, H. reflexivity. Qed.

Lemma ret_run {A} (a : A) (w : World) : ret a w = (Return a, w).
Proof. reflexivity. Qed.

Lemma for_each_cons {A} (x : A) xs (body : A → M unit) :
  for_each (x :: xs) body = bind (body x) (λ _, for_each xs body).
Proof. reflexivity. Qed.

(** ** Strings and paths *)

Lemma str_app_nil_l (s : string) : "" +:+ s = s.
Proof. reflexivity. Qed.

Lemma str_app_cons c (a b : string) : String c a +:+ b = String c (a +:+ b).
Proof. reflexivity. Qed.

Ltac str_simpl := repeat (rewrite ?str_app_nil_l, ?str_app_cons; simpl).


Lemma append_assoc (a b c : string) : (a +:+ b) +:+ c = a +:+ (b +:+ c).
Proof. induction a as [|x a IH]; str_simpl; [done | by rewrite IH]. Qed.

Lemma contains_app c (a b : string) :
  Str.contains c (a +:+ b) = Str.contains c a || Str.contains c b.
Proof.
  induction a as [|x a IH]; str_simpl; [done |].
  rewrite IH. by destruct (Ascii.eqb x c).
Qed.

Lemma endswith_nil (x : string) : Str.endswith "" x = String.eqb "" x.
Proof. simpl. apply orb_false_r. Qed.

Lemma endswith_cons c (s x : string) :
  Str.endswith (String c s) x = String.eqb (String c s) x || Str.endswith s x.
Proof. reflexivity. Qed.

Lemma endswith_refl (x : string) : Str.endswith x x = true.
Proof. destruct x; [done |]. by rewrite endswith_cons, String.eqb_refl. Qed.

Lemma endswith_app (p x : string) : Str.endswith (p +:+ x) x = true.
Proof.
  induction p as [|c p IH].
  - apply endswith_refl.
  - rewrite str_app_cons, endswith_cons, IH. apply orb_true_r.
Qed.

Lemma endswith_inv (s x : string) :
  Str.endswith s x = true → ∃ p, s = p +:+ x.
Proof.
  induction s as [|c s IH].
  - rewrite endswith_nil. intros H%String.eqb_eq. by exists ""; subst.
  - rewrite endswith_cons. intros [H%String.eqb_eq | H]%orb_true_iff.
    + exists "". by subst.
    + destruct (IH H) as [p ->]. by exists (String c p).
Qed.

Lemma basename_no_sep (b : string) :
  Str.contains Path.sep b = false → Path.basename b = b.
Proof.
  destruct b as [|c b]; simpl; [done |].
  intros [Hc Hb]%orb_false_iff. by rewrite Hb, Hc.
Qed.

Lemma basename_app (q x : string) :
  Str.contains Path.sep x = false →
  Path.basename (q +:+ x) = Path.basename q +:+ x.
Proof.
  intros Hx. induction q as [|c q IH]; str_simpl.
  - by apply basename_no_sep.
  - rewrite contains_app, Hx, orb_false_r.
    destruct (Str.contains Path.sep q); [done |].
    by destruct (Ascii.eqb c Path.sep).
Qed.

Lemma contains_basename c (p : string) :
  Str.contains c (Path.basename p) = true → Str.contains c p = true.
Proof.
  induction p as [|x p IH]; simpl; [done |].
  destruct (Str.contains Path.sep p).
  - intros H. rewrite (IH H). apply orb_true_r.
  - destruct (Ascii.eqb x Path.sep); simpl.
    + intros ->. apply orb_true_r.
    + done.
Qed.

Lemma ext_of_has_dot (b : string) seen :
  Path.ext_of b seen ≠ "" → Str.contains Path.extsep b = true.
Proof.
  revert seen. induction b as [|x b IH]; intros seen; simpl; [done |].
  destruct (Ascii.eqb x Path.extsep); simpl; [done |].
  apply IH.
Qed.

Lemma ext_of_archive_ext (b : string) seen :
  Path.ext_of (b +:+ SIGMF_ARCHIVE_EXT) seen = SIGMF_ARCHIVE_EXT ∨
  Path.ext_of (b +:+ SIGMF_ARCHIVE_EXT) seen = "".
Proof.
  revert seen. induction b as [|x b IH]; intros seen.
  - destruct seen; [left | right]; reflexivity.
  - str_simpl. destruct (Ascii.eqb x Path.extsep); [| apply IH].
    rewrite contains_app. simpl. rewrite orb_true_r, andb_false_r. apply IH.
Qed.

(** A path with an extension holds a dot. *)
Lemma splitext_has_dot (p : string) :
  Path.splitext_ext p ≠ "" → Str.contains "." p = true.
Proof.
  intros H. apply contains_basename. by apply ext_of_has_dot in H.
Qed.

(** A path that ends in [.sigmf] has that extension or none. *)
Lemma splitext_of_endswith (p : string) :
  Str.endswith p SIGMF_ARCHIVE_EXT = true →
  Path.splitext_ext p = SIGMF_ARCHIVE_EXT ∨ Path.splitext_ext p = "".
Proof.
  intros [q ->]%endswith_inv. unfold Path.splitext_ext.
  rewrite basename_app by reflexivity. apply ext_of_archive_ext.
Qed.

(** ** Pre-flight checks *)

Ltac unfold_checks :=
  unfold checks, _ensure_sigmffile_name_set, _ensure_sigmffile_data_file_set,
    _validate_sigmffile_metadata; monad_norm.

Section Preflight.

Variable ext : Collaborators.

Lemma checks_archivable sf w :
  archivable ext sf = true → checks ext sf w = (Return tt, w).
Proof.
  unfold archivable. unfold_checks.
  intros [[Hn Hd]%andb_true_iff Hv]%andb_true_iff.
  apply negb_true_iff in Hn, Hd.
  unfold bind. rewrite Hn, Hd, Hv. reflexivity.
Qed.

Lemma checks_pure sf w : (checks ext sf w).2 = w.
Proof.
  unfold_checks. unfold bind.
  destruct (falsy (sf_name sf)), (falsy (sf_data_file sf)), (validate ext sf);
    reflexivity.
Qed.

Lemma checks_loop_ok sfs w :
  Forall (λ sf, archivable ext sf = true) sfs →
  for_each sfs (checks ext) w = (Return tt, w).
Proof.
  induction 1 as [|sf sfs Hsf _ IH]; [reflexivity |].
  rewrite for_each_cons. erewrite bind_return by by apply checks_archivable.
  exact IH.
Qed.

Lemma checks_loop_first_failure pre sf post e w :
  Forall (λ sf, archivable ext sf = true) pre →
  checks ext sf w = (Raise e, w) →
  for_each (pre ++ sf :: post) (checks ext) w = (Raise e, w).
Proof.
  intros Hpre Hsf. induction Hpre as [|x pre Hx _ IH].
  - simpl app. rewrite for_each_cons. by erewrite bind_raise.
  - rewrite <- app_comm_cons, for_each_cons.
    erewrite bind_return by by apply checks_archivable.
    exact IH.
Qed.

Lemma checks_loop_pure sfs w : (for_each sfs (checks ext) w).2 = w.
Proof.
  induction sfs as [|sf sfs IH]; [reflexivity |].
  rewrite for_each_cons, bind_run.
  pose proof (checks_pure sf w) as Hc.
  destruct (checks ext sf w) as [[[]|e] w1]; simpl in Hc; subst w1;
    [apply IH | done].
Qed.

Lemma ensure_path_pure self w :
  (_ensure_path_has_correct_extension self w).2 = w.
Proof.
  unfold _ensure_path_has_correct_extension.
  destruct (self_path self) as [p|]; [| reflexivity].
  destruct (Str.contains "." p && negb (Str.endswith p SIGMF_ARCHIVE_EXT));
    reflexivity.
Qed.

(** [_check_input] leaves the world as it is, whatever it finds. *)
Lemma check_input_pure self w : (_check_input ext self w).2 = w.
Proof.
  unfold _check_input. monad_norm. rewrite bind_run.
  pose proof (ensure_path_pure self w) as Hp.
  destruct (_ensure_path_has_correct_extension self w) as [[self1|e] w1];
    simpl in Hp; subst w1; [| reflexivity].
  rewrite bind_run.
  pose proof (checks_loop_pure (self_sigmffiles self1) w) as Hloop.
  destruct (for_each (self_sigmffiles self1) (checks ext) w) as [[[]|e] w1];
    simpl in Hloop; subst w1; reflexivity.
Qed.

(** The path passes [_ensure_path_has_correct_extension]. *)
Lemma ensure_path_ok self w :
  (∀ p, self_path self = Some p → Str.contains "." p = true →
        Str.endswith p SIGMF_ARCHIVE_EXT = true) →
  ∃ self1, _ensure_path_has_correct_extension self w = (Return self1, w)
           ∧ self_sigmffiles self1 = self_sigmffiles self
           ∧ self_fileobj self1 = self_fileobj self.
Proof.
  intros Hp. unfold _ensure_path_has_correct_extension.
  destruct (self_path self) as [p|]; [| by eexists].
  specialize (Hp p eq_refl).
  destruct (Str.contains "." p); simpl.
  - rewrite Hp by done. by eexists.
  - by eexists.
Qed.

Lemma init_preflight_failure sigmffiles path fileobj w pre sf post e :
  as_iterable sigmffiles = pre ++ sf :: post →
  Forall (λ x, archivable ext x = true) pre →
  (∀ p, path = Some p → Str.contains "." p = true →
        Str.endswith p SIGMF_ARCHIVE_EXT = true) →
  checks ext sf w = (Raise e, w) →
  SigMFArchive_init ext sigmffiles path fileobj w = (Raise e, w).
Proof.
  intros Hl Hpre Hpath Hsf. unfold SigMFArchive_init. monad_norm.
  apply bind_raise. unfold _check_input. monad_norm.
  destruct (ensure_path_ok
    {| self_path := path; self_fileobj := fileobj;
       self_sigmffiles := as_iterable sigmffiles |} w Hpath)
    as (self1 & Hrun & Hfiles & _).
  erewrite bind_return by exact Hrun.
  apply bind_raise. rewrite Hfiles. simpl. rewrite Hl.
  by apply checks_loop_first_failure.
Qed.

(** C3.  In a call whose path passes the extension check, let [sf] be the
    first handle that is not archivable.  If its name is unset or empty
    the call raises [SigMFFileError]; otherwise, if its data file is unset
    or empty, [SigMFFileError]; otherwise its metadata is invalid and the
    call raises [SigMFValidationError].  In each case the world is the one
    the call started in: no file was opened, made or written. *)
Theorem preflight_first_failure sigmffiles path fileobj w pre sf post :
  as_iterable sigmffiles = pre ++ sf :: post →
  Forall (λ x, archivable ext x = true) pre →
  (∀ p, path = Some p → Str.contains "." p = true →
        Str.endswith p SIGMF_ARCHIVE_EXT = true) →
  (falsy (sf_name sf) = true →
   SigMFArchive_init ext sigmffiles path fileobj w = (Raise SigMFFileError, w))
  ∧ (falsy (sf_name sf) = false → falsy (sf_data_file sf) = true →
     SigMFArchive_init ext sigmffiles path fileobj w = (Raise SigMFFileError, w))
  ∧ (falsy (sf_name sf) = false → falsy (sf_data_file sf) = false →
     validate ext sf = false →
     SigMFArchive_init ext sigmffiles path fileobj w
     = (Raise SigMFValidationError, w)).
Proof.
  intros Hl Hpre Hpath.
  repeat split; intros; eapply init_preflight_failure; eauto;
    unfold_checks; unfold bind;
    repeat match goal with H : _ = _ |- _ => rewrite H end; reflexivity.
Qed.

(** C9.  With a byte sink and a path both given, a path that has an
    extension other than [.sigmf] makes the call raise [SigMFFileError],
    in the world it started in: nothing was written to the sink. *)
Theorem sink_path_still_checked sigmffiles (p : string) (fo : nat) w :
  Path.splitext_ext p ≠ "" →
  Path.splitext_ext p ≠ SIGMF_ARCHIVE_EXT →
  SigMFArchive_init ext sigmffiles (Some p) (Some fo) w
  = (Raise SigMFFileError, w).
Proof.
  intros Hext Hne. unfold SigMFArchive_init. monad_norm.
  apply bind_raise. unfold _check_input. monad_norm. apply bind_raise.
  unfold _ensure_path_has_correct_extension. simpl.
  rewrite (splitext_has_dot p Hext).
  destruct (Str.endswith p SIGMF_ARCHIVE_EXT) eqn:He; [| reflexivity].
  destruct (splitext_of_endswith p He); congruence.
Qed.

(** C10.  One handle in place of a sequence is packed as the one-element
    sequence that holds it. *)
Theorem single_handle_is_singleton (sf : SigMFFile) path fileobj :
  as_iterable (One sf) = [sf]
  ∧ SigMFArchive_init ext (One sf) path fileobj
    = SigMFArchive_init ext (Many [sf]) path fileobj.
Proof. split; reflexivity. Qed.

End Preflight.

(** ** The destination path *)

Section DestinationPath.

Variable ext : Collaborators.

Lemma no_dot_no_archive_ext (p : string) :
  Str.contains "." p = false → Str.endswith p SIGMF_ARCHIVE_EXT = false.
Proof.
  intros Hp. destruct (Str.endswith p SIGMF_ARCHIVE_EXT) eqn:He; [| done].
  apply endswith_inv in He as [q ->].
  rewrite contains_app in Hp. apply orb_false_iff in Hp as [_ Hp]. done.
Qed.

(** A path that holds no dot gets [.sigmf] appended. *)
Lemma ensure_path_appends (p : string) fileobj sfs w :
  Str.contains "." p = false →
  _ensure_path_has_correct_extension
    {| self_path := Some p; self_fileobj := fileobj; self_sigmffiles := sfs |} w
  = (Return {| self_path := Some (p +:+ SIGMF_ARCHIVE_EXT);
               self_fileobj := fileobj; self_sigmffiles := sfs |}, w).
Proof.
  intros Hp. unfold _ensure_path_has_correct_extension. simpl.
  by rewrite Hp, (no_dot_no_archive_ext p Hp).
Qed.

(** A path that ends in [.sigmf] is kept. *)
Lemma ensure_path_keeps (p : string) fileobj sfs w :
  Str.endswith p SIGMF_ARCHIVE_EXT = true →
  _ensure_path_has_correct_extension
    {| self_path := Some p; self_fileobj := fileobj; self_sigmffiles := sfs |} w
  = (Return {| self_path := Some p; self_fileobj := fileobj;
               self_sigmffiles := sfs |}, w).
Proof.
  intros Hp. unfold _ensure_path_has_correct_extension. simpl.
  by rewrite Hp, andb_false_r.
Qed.

(** A path with an extension other than [.sigmf] is refused. *)
Lemma ensure_path_refuses (p : string) fileobj sfs w :
  Path.splitext_ext p ≠ "" →
  Path.splitext_ext p ≠ SIGMF_ARCHIVE_EXT →
  _ensure_path_has_correct_extension
    {| self_path := Some p; self_fileobj := fileobj; self_sigmffiles := sfs |} w
  = (Raise SigMFFileError, w).
Proof.
  intros Hext Hne. unfold _ensure_path_has_correct_extension. simpl.
  rewrite (splitext_has_dot p Hext).
  destruct (Str.endswith p SIGMF_ARCHIVE_EXT) eqn:He; [| reflexivity].
  destruct (splitext_of_endswith p He); congruence.
Qed.

(** C4, at the input where the code leaves the claim.  The path [./x] has
    no extension ([os.path.splitext] gives none), yet it holds a dot, so
    the call raises [SigMFFileError] where [.sigmf] should be appended. *)
Theorem dotted_directory_is_refused sigmffiles fileobj w :
  Path.splitext_ext "./x" = ""
  ∧ SigMFArchive_init ext sigmffiles (Some "./x") fileobj w
    = (Raise SigMFFileError, w).
Proof. split; reflexivity. Qed.

End DestinationPath.

(** ** What the library calls leave alone *)

Lemma keeps_bind {A B C} (f : World → C) (m : M A) (k : A → M B) :
  keeps f m → (∀ a, keeps f (k a)) → keeps f (bind m k).
Proof.
  intros Hm Hk w. rewrite bind_run. specialize (Hm w).
  destruct (m w) as [[a|e] w']; simpl in *; [| done].
  by rewrite Hk.
Qed.

Lemma keeps_ret {A C} (f : World → C) (a : A) : keeps f (ret a).
Proof. by intros w. Qed.

Lemma keeps_raise {A C} (f : World → C) e : keeps f (raise e : M A).
Proof. by intros w. Qed.

Lemma keeps_get {C} (f : World → C) : keeps f get.
Proof. by intros w. Qed.

Lemma keeps_lift {A C} (f : World → C) (r : result A) : keeps f (lift r).
Proof. by intros w. Qed.

Lemma keeps_for_each {A C} (f : World → C) (xs : list A) body :
  (∀ x, keeps f (body x)) → keeps f (for_each xs body).
Proof.
  intros Hb. induction xs as [|x xs IH]; [apply keeps_ret |].
  rewrite for_each_cons. by apply keeps_bind.
Qed.

Lemma keeps_try_except {A C} (f : World → C) (m h : M A) which :
  keeps f m → keeps f h → keeps f (try_except m which h).
Proof.
  intros Hm Hh w. unfold try_except. specialize (Hm w).
  destruct (m w) as [[a|e] w']; simpl in *; [done |].
  destruct which as [e'|]; [destruct (decide (e = e')) |];
    simpl; rewrite ?Hh; done.
Qed.

(** A step that only touches the file system. *)
Ltac fs_only :=
  intros w;
  repeat match goal with
         | |- context [match ?x with _ => _ end] => destruct x
         | |- context [if ?x then _ else _] => destruct x
         end; reflexivity.

Lemma write_file_keeps_tars p c : keeps tars (write_file p c).
Proof. unfold write_file. fs_only. Qed.

Lemma write_file_keeps_objs p c : keeps objs (write_file p c).
Proof. unfold write_file. fs_only. Qed.

Lemma mkdir_if_absent_keeps_tars p mode : keeps tars (mkdir_if_absent p mode).
Proof. unfold mkdir_if_absent. fs_only. Qed.

Lemma mkdir_if_absent_keeps_objs p mode : keeps objs (mkdir_if_absent p mode).
Proof. unfold mkdir_if_absent. fs_only. Qed.

Lemma mkdtemp_keeps_tars : keeps tars tempfile_mkdtemp.
Proof. unfold tempfile_mkdtemp. fs_only. Qed.

Lemma mkdtemp_keeps_objs : keeps objs tempfile_mkdtemp.
Proof. unfold tempfile_mkdtemp. fs_only. Qed.

Lemma shutil_copy_keeps {C} (f : World → C) src dst :
  (∀ g w, f (set_fs g w) = f w) → keeps f (shutil_copy src dst).
Proof.
  intros Hf w. unfold shutil_copy.
  destruct (fs w !! src) as [[mode c|]|]; [| done..].
  destruct (String.eqb _ _); [done |].
  set (dst' := if os_path_isdir (fs w) dst then _ else _).
  assert (f (write_file dst' c w).2 = f w) as Hw.
  { unfold write_file.
    repeat match goal with
           | |- context [match ?x with _ => _ end] => destruct x
           end; simpl; rewrite ?Hf; reflexivity. }
  destruct (write_file dst' c w) as [[[]|e] w']; simpl in *; by rewrite ?Hf.
Qed.

Lemma shutil_copy_keeps_tars src dst : keeps tars (shutil_copy src dst).
Proof. by apply shutil_copy_keeps. Qed.

Lemma shutil_copy_keeps_objs src dst : keeps objs (shutil_copy src dst).
Proof. by apply shutil_copy_keeps. Qed.

Lemma rmtree_keeps_tars d : keeps tars (shutil_rmtree d).
Proof. unfold shutil_rmtree. fs_only. Qed.

Lemma rmtree_keeps_objs d : keeps objs (shutil_rmtree d).
Proof. unfold shutil_rmtree. fs_only. Qed.

Lemma extract_member_keeps_tars ti path : keeps tars (extract_member ti path).
Proof.
  unfold extract_member, os_makedirs. monad_norm.
  apply keeps_bind; [apply keeps_get | intros w].
  apply keeps_bind.
  - destruct (_ && _); [| apply keeps_ret].
    apply keeps_for_each. intros. apply mkdir_if_absent_keeps_tars.
  - intros _. destruct (ti_isdir ti); [apply mkdir_if_absent_keeps_tars |].
    apply keeps_bind; [apply write_file_keeps_tars | by intros _ w'].
Qed.

Lemma extractall_keeps_tars t path : keeps tars (extractall t path).
Proof.
  unfold extractall, get_tarfile. monad_norm.
  apply keeps_bind; [fs_only | intros tf].
  destruct (tf_damaged tf); apply keeps_bind;
    try (apply keeps_for_each; intros; apply extract_member_keeps_tars);
    intros _; [apply keeps_raise | by intros w].
Qed.

(** ** Suffixes *)

Lemma str_length_app (a b : string) :
  String.length (a +:+ b) = (String.length a + String.length b)%nat.
Proof. induction a as [|c a IH]; str_simpl; [done | by rewrite IH]. Qed.

(** Two ways to cut a string before suffixes of one length agree. *)
Lemma app_inj_length (a b x y : string) :
  a +:+ x = b +:+ y → String.length x = String.length y → a = b ∧ x = y.
Proof.
  revert b. induction a as [|c a IH]; intros [|d b]; str_simpl; intros Heq Hlen.
  - done.
  - subst x. simpl in Hlen. rewrite str_length_app in Hlen. lia.
  - subst y. simpl in Hlen. rewrite str_length_app in Hlen. lia.
  - injection Heq as -> Heq. destruct (IH b Heq Hlen) as [-> ->]. done.
Qed.

Lemma endswith_other (s x y : string) :
  String.length x = String.length y → x ≠ y →
  Str.endswith s x = true → Str.endswith s y = false.
Proof.
  intros Hlen Hne [p ->]%endswith_inv.
  destruct (Str.endswith (p +:+ x) y) eqn:He; [| done].
  apply endswith_inv in He as [q Hq].
  destruct (app_inj_length _ _ _ _ Hq Hlen) as [_ ?]. done.
Qed.

Lemma metadata_not_dataset (s : string) :
  Str.endswith s SIGMF_METADATA_EXT = true →
  Str.endswith s SIGMF_DATASET_EXT = false.
Proof. by apply endswith_other. Qed.

Lemma dataset_not_metadata (s : string) :
  Str.endswith s SIGMF_DATASET_EXT = true →
  Str.endswith s SIGMF_METADATA_EXT = false.
Proof. by apply endswith_other. Qed.

(** ** Closing the container *)

Lemma tarfile_close_open t tf w :
  tars w !! t = Some tf → tf_closed tf = false →
  ∃ w', tarfile_close t false w = (Return tt, w')
        ∧ tf_closed <$> tars w' !! t = Some true
        ∧ fs w' = fs w.
Proof.
  intros Ht Hopen. unfold tarfile_close. monad_norm.
  rewrite bind_run. simpl. rewrite Ht, Hopen.
  assert (t < length (tars w))%nat as Hlt by by eapply lookup_lt_Some.
  destruct (tf_extfileobj tf); eexists; (split; [reflexivity |]); simpl;
    by rewrite list_lookup_insert_eq.
Qed.

Lemma get_tarfile_inv t tf w w' :
  get_tarfile t w = (Return tf, w') →
  w' = w ∧ tars w !! t = Some tf ∧ tf_closed tf = false.
Proof.
  unfold get_tarfile. destruct (tars w !! t) as [tf'|]; [| done].
  destruct (tf_closed tf') eqn:Hc; [done |]. by intros [= <- <-].
Qed.

Lemma getmembers_inv t ms w w' :
  getmembers t w = (Return ms, w') →
  w' = w ∧ ∃ tf, tars w !! t = Some tf ∧ tf_closed tf = false
                 ∧ tf_damaged tf = false ∧ tf_members tf = ms.
Proof.
  unfold getmembers. monad_norm. rewrite bind_run.
  destruct (get_tarfile t w) as [[tf|e] w1] eqn:Hg; [| done].
  apply get_tarfile_inv in Hg as (-> & Ht & Hc).
  destruct (tf_damaged tf) eqn:Hd; [done |].
  intros [= <- <-]. eauto 10.
Qed.

(** ** Reading the metadata *)

Section Metadata.

Variable ext : Collaborators.

(** The loop raises [ValueError] as soon as one metadata entry, a regular
    file as all of them are, holds bytes that [json.load] does not read. *)
Lemma scan_unreadable dir members data_file metadata acc :
  Forall (λ m, Str.endswith (ti_name m) SIGMF_METADATA_EXT = true →
               ti_isdir m = false) members →
  Exists (λ m, Str.endswith (ti_name m) SIGMF_METADATA_EXT = true
               ∧ match ti_data m with
                 | Raw bytes => json_load ext bytes = None
                 | Tar _ _ => True
                 end) members →
  scan ext dir members data_file metadata acc = Raise ValueError.
Proof.
  intros Hwf Hbad. revert data_file metadata acc.
  induction members as [|m ms IH]; intros df md acc; [by inversion Hbad |].
  apply Forall_cons in Hwf as [Hm Hwf]. simpl.
  destruct (Str.endswith (ti_name m) SIGMF_DATASET_EXT) eqn:Hd.
  - (* a dataset entry: the unreadable one comes later *)
    apply Exists_cons in Hbad as [[Hmeta _] | Hbad].
    { apply metadata_not_dataset in Hmeta. congruence. }
    destruct (negb (is_None md)); by apply IH.
  - destruct (Str.endswith (ti_name m) SIGMF_METADATA_EXT) eqn:Hmeta.
    + unfold load_metadata, extractfile. rewrite (Hm eq_refl).
      apply Exists_cons in Hbad as [[_ Hun] | Hbad].
      * destruct (ti_data m) as [bytes|]; [by rewrite Hun | done].
      * destruct (ti_data m) as [bytes|]; [| done].
        destruct (json_load ext bytes) as [v|]; [| done].
        destruct df as [df|]; [destruct (negb (is_None v)) |]; by apply IH.
    + apply Exists_cons in Hbad as [[? _] | Hbad]; [congruence |].
      destruct df as [df|]; [destruct (negb (is_None md)) |]; by apply IH.
Qed.

(** C6, amended.  When the container opens, lists and unpacks, its
    metadata entries are regular files, and one of them holds bytes that are
    not UTF-8 JSON, [extract] raises the [ValueError] of [json.load]
    ([json.JSONDecodeError] or [UnicodeDecodeError]; the code has no format
    error of its own): no handle is returned, and the container is
    closed. *)
Theorem extract_malformed_metadata archive_path dir w d archive members w3 :
  unpacks_to_disk archive_path dir w d archive members w3 →
  Forall (λ m, Str.endswith (ti_name m) SIGMF_METADATA_EXT = true →
               ti_isdir m = false) members →
  Exists (λ m, Str.endswith (ti_name m) SIGMF_METADATA_EXT = true
               ∧ match ti_data m with
                 | Raw bytes => json_load ext bytes = None
                 | Tar _ _ => True
                 end) members →
  ∃ e w4, extract ext archive_path dir w = (Raise e, w4)
          ∧ e = ValueError
          ∧ tf_closed <$> tars w4 !! archive = Some true.
Proof.
  intros (w1 & w2 & Hdir & Hopen & Hlist & Hdisk) Hwf Hbad.
  unfold extract. monad_norm.
  erewrite bind_return by exact Hdir.
  erewrite bind_return by exact Hopen.
  erewrite bind_return by exact Hlist.
  apply getmembers_inv in Hlist as (_ & tf & Ht & Hc & _ & _).
  pose proof (extractall_keeps_tars archive d w2) as Hk.
  rewrite Hdisk in Hk. simpl in Hk. rewrite <- Hk in Ht.
  destruct (tarfile_close_open archive tf w3 Ht Hc) as (w4 & Hclose & Hclosed & _).
  exists ValueError, w4. split; [| by split].
  unfold try_finally. erewrite bind_return by exact Hdisk.
  unfold lift. rewrite (scan_unreadable d members None JNull [] Hwf Hbad).
  by rewrite Hclose.
Qed.

(** C8, at the input where the code leaves the claim.  The container
    opens, and listing its entries raises [ReadError]; [extract] lets the
    exception through with the tar object, and the file object under it,
    still open. *)
Theorem extract_leaves_archive_open :
  (extract ext "/out/bad.sigmf" (Some "/out") w_damaged).1 = Raise ReadError
  ∧ tf_closed <$> tars (extract ext "/out/bad.sigmf" (Some "/out") w_damaged).2 !! 0%nat
    = Some false
  ∧ fo_closed <$> objs (extract ext "/out/bad.sigmf" (Some "/out") w_damaged).2 !! 0%nat
    = Some false.
Proof. repeat split; vm_compute; reflexivity. Qed.

End Metadata.

(** ** Pairing by runs *)

Lemma find_seq_shift (P : nat → bool) a n :
  find P (seq (S a) n) = S <$> find (λ k, P (S k)) (seq a n).
Proof.
  revert a. induction n as [|n IH]; intros a; simpl; [done |].
  destruct (P (S a)); [done | apply IH].
Qed.

Lemma find_ext {A} (P Q : A → bool) l :
  (∀ x, P x = Q x) → find P l = find Q l.
Proof.
  intros H. induction l as [|x l IH]; simpl; [done |]. by rewrite H, IH.
Qed.

Lemma last_dataset_snoc pre x :
  last_dataset (pre ++ [x]) =
  match x with Dataset p => Some p | _ => last_dataset pre end.
Proof.
  unfold last_dataset. rewrite omap_app. simpl.
  destruct x; simpl; rewrite ?app_nil_r, ?last_snoc; done.
Qed.

Lemma last_metadata_snoc pre x :
  last_metadata (pre ++ [x]) =
  match x with Metadata v => v | _ => last_metadata pre end.
Proof.
  unfold last_metadata. rewrite omap_app. simpl.
  destruct x; simpl; rewrite ?app_nil_r, ?last_snoc; done.
Qed.

Section Pairing.

Variable ext : Collaborators.

(** One turn of the loop, by the meaning of the entry. *)
Lemma scan_cons dir m ms x data_file metadata acc :
  classify ext dir m = Return x →
  scan ext dir (m :: ms) data_file metadata acc =
  let df := match x with Dataset p => Some p | _ => data_file end in
  let md := match x with Metadata v => v | _ => metadata end in
  match df with
  | Some p =>
      if negb (is_None md)
      then scan ext dir ms None JNull (acc ++ [new_SigMFFile ext md p])
      else scan ext dir ms df md acc
  | None => scan ext dir ms None md acc
  end.
Proof.
  unfold classify. simpl.
  destruct (Str.endswith (ti_name m) SIGMF_DATASET_EXT).
  - by intros [= <-].
  - destruct (Str.endswith (ti_name m) SIGMF_METADATA_EXT).
    + destruct (load_metadata ext m); [| done].
      intros [= <-]. by destruct data_file.
    + intros [= <-]. by destruct data_file.
Qed.

Lemma scan_cons_raise dir m ms e data_file metadata acc :
  classify ext dir m = Raise e →
  scan ext dir (m :: ms) data_file metadata acc = Raise e.
Proof.
  unfold classify. simpl.
  destruct (Str.endswith (ti_name m) SIGMF_DATASET_EXT); [done |].
  destruct (Str.endswith (ti_name m) SIGMF_METADATA_EXT); [| done].
  destruct (load_metadata ext m); [done |]. by intros [= ->].
Qed.

Lemma scan_raises dir ms e data_file metadata acc :
  classify_all ext dir ms = Raise e →
  scan ext dir ms data_file metadata acc = Raise e.
Proof.
  revert data_file metadata acc.
  induction ms as [|m ms IH]; intros df md acc; [done |].
  simpl classify_all.
  destruct (classify ext dir m) as [x|e'] eqn:Hx.
  - destruct (classify_all ext dir ms) as [xs|e'']; [done |].
    intros [= ->]. rewrite (scan_cons _ _ _ _ _ _ _ Hx). simpl.
    repeat case_match; by apply IH.
  - intros [= ->]. by apply scan_cons_raise.
Qed.

Lemma scan_acc dir ms data_file metadata acc :
  scan ext dir ms data_file metadata acc =
  match scan ext dir ms data_file metadata [] with
  | Return hs => Return (acc ++ hs)
  | Raise e => Raise e
  end.
Proof.
  revert data_file metadata acc.
  induction ms as [|m ms IH]; intros df md acc.
  - simpl. by rewrite app_nil_r.
  - destruct (classify ext dir m) as [x|e] eqn:Hx.
    + rewrite !(scan_cons _ _ _ _ _ _ _ Hx). cbv zeta.
      destruct (match x with Dataset p => Some p | _ => df end) as [p|];
        [| apply IH].
      destruct (negb (is_None _)); [| apply IH].
      rewrite IH, (IH None JNull ([] ++ _)).
      destruct (scan ext dir ms None JNull []); [| done].
      by rewrite <- app_assoc.
    + by rewrite !(scan_cons_raise _ _ _ _ _ _ _ Hx).
Qed.

(** From trackers that stand for the run [pre] seen so far, the loop goes
    on to the first entry at which the run is complete, makes one handle
    there and starts afresh. *)
Lemma scan_runs dir ms entries pre acc :
  classify_all ext dir ms = Return entries →
  scan ext dir ms (last_dataset pre) (last_metadata pre) acc =
  match find (λ n, complete (pre ++ take n entries)) (seq 1 (length entries)) with
  | None => Return acc
  | Some n =>
      scan ext dir (drop n ms) None JNull
        (acc ++ [new_SigMFFile ext (last_metadata (pre ++ take n entries))
                   (default "" (last_dataset (pre ++ take n entries)))])
  end.
Proof.
  revert entries pre acc.
  induction ms as [|m ms IH]; intros entries pre acc.
  - by intros [= <-].
  - simpl classify_all.
    destruct (classify ext dir m) as [x|] eqn:Hx; [| done].
    destruct (classify_all ext dir ms) as [xs|] eqn:Hxs; [| done].
    intros [= <-]. rewrite (scan_cons _ _ _ _ _ _ _ Hx).
    cbn [length seq find take]. unfold complete at 1.
    rewrite last_dataset_snoc, last_metadata_snoc. cbv zeta.
    assert (∀ df' md', df' = last_dataset (pre ++ [x]) →
              md' = last_metadata (pre ++ [x]) →
              scan ext dir ms df' md' acc =
              match find (λ n, complete (pre ++ take n (x :: xs)))
                      (seq 2 (length xs)) with
              | Some n =>
                  scan ext dir (drop n (m :: ms)) None JNull
                    (acc ++ [new_SigMFFile ext
                               (last_metadata (pre ++ take n (x :: xs)))
                               (default "" (last_dataset (pre ++ take n (x :: xs))))])
              | None => Return acc
              end) as Hgo.
    { intros df' md' -> ->. rewrite (IH xs (pre ++ [x]) acc eq_refl).
      rewrite (find_seq_shift (λ n, complete (pre ++ take n (x :: xs))) 1).
      rewrite (find_ext (λ k, complete ((pre ++ [x]) ++ take k xs))
                 (λ k, complete (pre ++ take (S k) (x :: xs))))
        by (intros k; simpl; by rewrite <- app_assoc).
      destruct (find _ (seq 1 (length xs))) as [k|]; simpl; [| done].
      by rewrite <- app_assoc. }
    rewrite last_dataset_snoc, last_metadata_snoc in Hgo.
    assert (∀ y, take 1 (y :: xs) = [y]) as Htake by (intros; by destruct xs).
    destruct x as [p|v|]; simpl.
    + destruct (negb (is_None (last_metadata pre))); [| by apply Hgo].
      by rewrite Htake, last_dataset_snoc, last_metadata_snoc.
    + destruct (last_dataset pre) as [p|] eqn:Hp; [| by apply Hgo].
      destruct (negb (is_None v)); [| by apply Hgo].
      by rewrite Htake, last_dataset_snoc, last_metadata_snoc, Hp.
    + destruct (last_dataset pre) as [p|] eqn:Hp; [| by apply Hgo].
      destruct (negb (is_None (last_metadata pre))); [| by apply Hgo].
      by rewrite Htake, last_dataset_snoc, last_metadata_snoc, Hp.
Qed.

Lemma classify_all_drop dir ms entries n :
  classify_all ext dir ms = Return entries →
  classify_all ext dir (drop n ms) = Return (drop n entries).
Proof.
  revert ms entries. induction n as [|n IH]; intros ms entries; [done |].
  destruct ms as [|m ms]; simpl; [by intros [= <-] |].
  destruct (classify ext dir m); [| done].
  destruct (classify_all ext dir ms) as [xs|] eqn:Hxs; [| done].
  intros [= <-]. by apply IH.
Qed.

Lemma scan_returns dir ms entries data_file metadata acc :
  classify_all ext dir ms = Return entries →
  ∃ hs, scan ext dir ms data_file metadata acc = Return hs.
Proof.
  revert entries data_file metadata acc.
  induction ms as [|m ms IH]; intros entries df md acc; [by eexists |].
  simpl classify_all.
  destruct (classify ext dir m) as [x|] eqn:Hx; [| done].
  destruct (classify_all ext dir ms) as [xs|] eqn:Hxs; [| done].
  intros _. rewrite (scan_cons _ _ _ _ _ _ _ Hx). simpl.
  repeat case_match; by eapply IH.
Qed.

End Pairing.

Section PairingTheorem.

Variable ext : Collaborators.

(** C2, as the code has it.  Read the entries by their suffix and find the
    shortest prefix that is complete: it holds a dataset entry, and its
    latest metadata entry did not parse to [null].  If there is none, the
    loop makes no handle.  Otherwise it makes one handle, from the latest
    metadata document and the latest dataset path of that prefix, and
    goes on after the prefix with both trackers reset.  An entry that
    fails to parse stops the loop with its exception.  Directories play
    no part: a dataset [p.sigmf-data] and a metadata file [q.sigmf-meta]
    are paired whatever [p] and [q] are. *)
Theorem scan_pairs_by_runs dir members :
  match classify_all ext dir members with
  | Raise e => scan ext dir members None JNull [] = Raise e
  | Return entries =>
      match shortest_complete entries with
      | None => scan ext dir members None JNull [] = Return []
      | Some n =>
          ∃ df rest,
            last_dataset (take n entries) = Some df
            ∧ is_None (last_metadata (take n entries)) = false
            ∧ scan ext dir (drop n members) None JNull [] = Return rest
            ∧ scan ext dir members None JNull []
              = Return (new_SigMFFile ext (last_metadata (take n entries)) df
                        :: rest)
      end
  end
  ∧ ∀ p q mode mode' data bytes,
      scan ext dir
        [{| ti_name := p +:+ SIGMF_DATASET_EXT; ti_isdir := false;
            ti_mode := mode; ti_data := data |};
         {| ti_name := q +:+ SIGMF_METADATA_EXT; ti_isdir := false;
            ti_mode := mode'; ti_data := Raw bytes |}] None JNull []
      = match json_load ext bytes with
        | None => Raise ValueError
        | Some doc =>
            Return (if is_None doc then []
                    else [new_SigMFFile ext doc
                            (Path.join dir (p +:+ SIGMF_DATASET_EXT))])
        end.
Proof.
  split.
  - destruct (classify_all ext dir members) as [entries|e] eqn:Hc;
      [| by apply scan_raises].
    pose proof (scan_runs ext dir members entries [] [] Hc) as Hrun.
    change (last_dataset []) with (@None string) in Hrun.
    change (last_metadata []) with JNull in Hrun.
    cbn [app] in Hrun. fold (shortest_complete entries) in Hrun.
    destruct (shortest_complete entries) as [n|] eqn:Hn; [| done].
    apply find_some in Hn as [_ Hn]. unfold complete in Hn.
    destruct (last_dataset (take n entries)) as [df|]; [| done].
    apply negb_true_iff in Hn.
    destruct (scan_returns ext dir (drop n members) (drop n entries) None JNull [])
      as [rest Hrest]; [by apply classify_all_drop |].
    exists df, rest. repeat split; [done.. |].
    rewrite Hrun, scan_acc, Hrest. done.
  - intros p q mode mode' data bytes. simpl.
    rewrite endswith_app.
    rewrite (metadata_not_dataset (q +:+ _)) by apply endswith_app.
    rewrite endswith_app.
    unfold load_metadata. simpl.
    destruct (json_load ext bytes) as [doc|]; [| done].
    by destruct (is_None doc).
Qed.

End PairingTheorem.

(** C2, as stated, fails: here a dataset entry and a metadata entry have
    both been seen, and no handle is made, because the metadata text is
    [null], which [json.load] reads as [None]. *)
Lemma null_metadata_is_not_paired :
  Forall2 (λ m suffix, Str.endswith (ti_name m) suffix = true)
    (drop 1 null_members) [SIGMF_DATASET_EXT; SIGMF_METADATA_EXT]
  ∧ extract toy "/out/null.sigmf" (Some "/out") w_null
    = (Return [],
       (extract toy "/out/null.sigmf" (Some "/out") w_null).2).
Proof. split; [repeat constructor | vm_compute; reflexivity]. Qed.

(** ** Invariants of a run *)

Lemma preserves_bind {A B} (I : World → Prop) (m : M A) (k : A → M B) :
  preserves I m → (∀ a, preserves I (k a)) → preserves I (bind m k).
Proof.
  intros Hm Hk w Hw. rewrite bind_run. specialize (Hm w Hw).
  destruct (m w) as [[a|e] w']; simpl in *; [| done].
  by apply Hk.
Qed.

Lemma preserves_for_each {A} (I : World → Prop) (xs : list A) body :
  (∀ x, preserves I (body x)) → preserves I (for_each xs body).
Proof.
  intros Hb. induction xs as [|x xs IH]; [by intros w |].
  rewrite for_each_cons. by apply preserves_bind.
Qed.

Lemma keeps_preserves {A C} (f : World → C) (P : C → Prop) (m : M A) :
  keeps f m → preserves (λ w, P (f w)) m.
Proof. intros Hk w Hw. by rewrite Hk. Qed.

Lemma preserves_pure {A} (I : World → Prop) (m : M A) :
  (∀ w, (m w).2 = w) → preserves I m.
Proof. intros Hm w Hw. by rewrite Hm. Qed.

(** The invariant of the tar object only reads the heap of tar objects. *)
Lemma writing_ok_tars t fo old w w' :
  tars w' = tars w → writing_ok t fo old w → writing_ok t fo old w'.
Proof. unfold writing_ok. by intros ->. Qed.

Lemma keeps_tars_writing_ok {A} t fo old (m : M A) :
  keeps tars m → preserves (writing_ok t fo old) m.
Proof. intros Hk w Hw. eapply writing_ok_tars; [apply Hk | done]. Qed.

Lemma gettarinfo_pure name arcname w : (gettarinfo name arcname w).2 = w.
Proof. unfold gettarinfo. by repeat case_match. Qed.

Lemma flush_keeps_tars tf : keeps tars (flush tf).
Proof. unfold flush. fs_only. Qed.

(** Moving a file object changes its position and nothing else. *)
Lemma set_pos_length i p l : length (set_pos i p l) = length l.
Proof. unfold set_pos. destruct (l !! i); [apply length_insert | done]. Qed.

Lemma set_pos_lookup_ne i j p l : i ≠ j → set_pos i p l !! j = l !! j.
Proof.
  intros Hij. unfold set_pos. destruct (l !! i); [| done].
  by rewrite list_lookup_insert_ne.
Qed.

Lemma set_pos_lookup i p l o :
  l !! i = Some o → set_pos i p l !! i = Some (at_pos p o).
Proof.
  intros Ho. unfold set_pos. rewrite Ho.
  apply list_lookup_insert_eq. by eapply lookup_lt_Some.
Qed.

Lemma set_pos_set_pos i p q l : set_pos i p (set_pos i q l) = set_pos i p l.
Proof.
  destruct (l !! i) as [o|] eqn:Ho.
  - unfold set_pos at 1. rewrite (set_pos_lookup _ _ _ _ Ho). simpl.
    unfold set_pos. rewrite Ho. apply list_insert_insert_eq.
  - unfold set_pos at 2. rewrite Ho. unfold set_pos. by rewrite Ho.
Qed.

Lemma set_pos_same i l o :
  l !! i = Some o → set_pos i (fo_pos o) l = l.
Proof.
  intros Ho. unfold set_pos. rewrite Ho. destruct o. by apply list_insert_id.
Qed.

(** What a moved heap of file objects still tells about each of them. *)
Lemma set_pos_fmap {B} (f : FileObj → B) i p l :
  (∀ o q, f (at_pos q o) = f o) →
  ∀ j, f <$> set_pos i p l !! j = f <$> l !! j.
Proof.
  intros Hf j. destruct (decide (i = j)) as [<-|Hij].
  - destruct (l !! i) as [o|] eqn:Ho.
    + rewrite (set_pos_lookup _ _ _ _ Ho). cbn [fmap option_fmap option_map].
      f_equal. apply Hf.
    + unfold set_pos. rewrite Ho. by rewrite Ho.
  - by rewrite set_pos_lookup_ne.
Qed.

(** Writing through a file object moves it and nothing else. *)
Lemma flush_objs tf w :
  objs (flush tf w).2 = objs w
  ∨ objs (flush tf w).2 = set_pos (tf_fileobj tf) AtEnd (objs w).
Proof. unfold flush. repeat case_match; simpl; auto. Qed.

Lemma tar_static_tars t name hidden w w' :
  tars w' = tars w → tar_static t name hidden w → tar_static t name hidden w'.
Proof. unfold tar_static. by intros ->. Qed.

Lemma keeps_tars_tar_static {A} t name hidden (m : M A) :
  keeps tars m → preserves (tar_static t name hidden) m.
Proof. intros Hk w Hw. eapply tar_static_tars; [apply Hk | done]. Qed.

Lemma addfile_tar_static t name hidden ti :
  preserves (tar_static t name hidden) (addfile t ti).
Proof.
  intros w (tf & Ht & Hn & Hh).
  unfold addfile, get_tarfile. monad_norm. rewrite bind_run, Ht.
  destruct (tf_closed tf); [by exists tf |].
  rewrite bind_run. simpl.
  eapply tar_static_tars; [apply flush_keeps_tars |].
  eexists. simpl. rewrite list_lookup_insert_eq by by eapply lookup_lt_Some.
  done.
Qed.

Lemma chmod_mode_ok ti : mode_ok (chmod ti).
Proof. unfold mode_ok, chmod. destruct (ti_isdir ti) eqn:H; simpl; by rewrite ?H. Qed.

(** Adding an entry that obeys the contract keeps the invariant. *)
Lemma addfile_writing_ok t fo old ti :
  mode_ok ti → preserves (writing_ok t fo old) (addfile t ti).
Proof.
  intros Hti w (Hlen & tf & Ht & Hfo & Hc & new & Hm & Hnew).
  unfold addfile, get_tarfile. monad_norm. rewrite bind_run, Ht, Hc.
  rewrite bind_run. simpl.
  eapply writing_ok_tars; [apply flush_keeps_tars |].
  split; simpl; [by rewrite length_insert |].
  eexists. rewrite list_lookup_insert_eq by lia.
  repeat split; simpl; [done |].
  exists (new ++ [ti]). split; [by rewrite Hm, app_assoc |].
  apply Forall_app. by split; [| constructor].
Qed.

Lemma add_tree_writing_ok order depth t fo old name arcname :
  preserves (writing_ok t fo old) (add_tree order depth t name arcname chmod).
Proof.
  revert name arcname.
  induction depth as [|depth IH]; intros name arcname; simpl; monad_norm.
  - apply preserves_bind; [apply preserves_pure, gettarinfo_pure | intros ti].
    apply preserves_bind; [apply addfile_writing_ok, chmod_mode_ok | intros _].
    destruct (ti_isdir (chmod ti)); by intros w.
  - apply preserves_bind; [apply preserves_pure, gettarinfo_pure | intros ti].
    apply preserves_bind; [apply addfile_writing_ok, chmod_mode_ok | intros _].
    destruct (ti_isdir (chmod ti)); [| by intros w].
    apply preserves_bind; [by intros w | intros w0].
    apply preserves_for_each. intros f. apply IH.
Qed.

Lemma add_tree_tar_static order depth t name hidden nm arcname filter :
  preserves (tar_static t name hidden) (add_tree order depth t nm arcname filter).
Proof.
  revert nm arcname.
  induction depth as [|depth IH]; intros nm arcname; simpl; monad_norm.
  - apply preserves_bind; [apply preserves_pure, gettarinfo_pure | intros ti].
    apply preserves_bind; [apply addfile_tar_static | intros _].
    destruct (ti_isdir (filter ti)); by intros w.
  - apply preserves_bind; [apply preserves_pure, gettarinfo_pure | intros ti].
    apply preserves_bind; [apply addfile_tar_static | intros _].
    destruct (ti_isdir (filter ti)); [| by intros w].
    apply preserves_bind; [by intros w | intros w0].
    apply preserves_for_each. intros f. apply IH.
Qed.

Section TarInvariant.

Variable ext : Collaborators.

Lemma add_recording_tar_static t name hidden sf :
  preserves (tar_static t name hidden) (add_recording ext t sf).
Proof.
  unfold add_recording. monad_norm.
  apply preserves_bind;
    [apply keeps_tars_tar_static, mkdtemp_keeps_tars | intros tmpdir].
  destruct (sf_name sf) as [nm|]; [| by intros w].
  destruct (sf_data_file sf) as [data_file|]; [| by intros w].
  apply preserves_bind;
    [apply keeps_tars_tar_static, write_file_keeps_tars | intros _].
  apply preserves_bind;
    [apply keeps_tars_tar_static, shutil_copy_keeps_tars | intros _].
  apply preserves_bind;
    [| intros _; apply keeps_tars_tar_static, rmtree_keeps_tars].
  unfold tarfile_add. monad_norm.
  apply preserves_bind; [by intros w | intros w0].
  apply add_tree_tar_static.
Qed.

Lemma add_recording_writing_ok t fo old sf :
  preserves (writing_ok t fo old) (add_recording ext t sf).
Proof.
  unfold add_recording. monad_norm.
  apply preserves_bind;
    [apply keeps_tars_writing_ok, mkdtemp_keeps_tars | intros tmpdir].
  destruct (sf_name sf) as [name|]; [| by intros w].
  destruct (sf_data_file sf) as [data_file|]; [| by intros w].
  apply preserves_bind;
    [apply keeps_tars_writing_ok, write_file_keeps_tars | intros _].
  apply preserves_bind;
    [apply keeps_tars_writing_ok, shutil_copy_keeps_tars | intros _].
  apply preserves_bind;
    [| intros _; apply keeps_tars_writing_ok, rmtree_keeps_tars].
  unfold tarfile_add. monad_norm.
  apply preserves_bind; [by intros w | intros w0].
  apply add_tree_writing_ok.
Qed.

End TarInvariant.

(** ** The phases of [__init__] *)

Lemma write_nothing_pure fo w : (write_nothing fo w).2 = w.
Proof. unfold write_nothing. by repeat case_match. Qed.

Lemma new_fileobj_run fo w :
  new_fileobj fo w = (Return (length (objs w)), set_objs (λ l, l ++ [fo]) w).
Proof. reflexivity. Qed.

(** Getting the output file object makes no tar object and no staging
    directory; with a sink it changes nothing at all, and a path is opened
    on an empty file. *)
Lemma get_output_fileobj_spec self w :
  match _get_output_fileobj self w with
  | (Return fo, w') =>
      tars w' = tars w ∧ tmp_seed w' = tmp_seed w
      ∧ match self_fileobj self with
        | Some i => fo = i ∧ w' = w
        | None =>
            cwd w' = cwd w
            ∧ ∃ o, objs w' !! fo = Some o
                   ∧ fo_name o = self_path self
                   ∧ read_file (fs w') (fo_path o) = Some (Raw "")
        end
  | (Raise e, w') =>
      tars w' = tars w ∧ tmp_seed w' = tmp_seed w
      ∧ e = SigMFFileError
      ∧ match self_fileobj self with Some _ => w' = w | None => True end
  end.
Proof.
  unfold _get_output_fileobj, try_except, _get_open_fileobj. monad_norm.
  destruct (self_fileobj self) as [i|].
  - rewrite bind_run. pose proof (write_nothing_pure i w) as Hp.
    destruct (write_nothing i w) as [[[]|e] w1]; simpl in Hp; subst w1; done.
  - destruct (self_path self) as [p|]; [| done].
    unfold open_wb. monad_norm. rewrite bind_run.
    unfold write_file.
    destruct (fs w !! p) as [[mode c|mode]|] eqn:Hp; [| done |].
    + simpl. repeat split; [done.. |]. eexists.
      rewrite lookup_app_r, Nat.sub_diag by lia. repeat split.
      unfold read_file. simpl. by rewrite lookup_insert_eq.
    + destruct (parent_ok (fs w) p); [| done].
      simpl. repeat split; [done.. |]. eexists.
      rewrite lookup_app_r, Nat.sub_diag by lia. repeat split.
      unfold read_file. simpl. by rewrite lookup_insert_eq.
Qed.

Lemma writing_ok_new t fo old tf w :
  t = length (tars w) → tf_fileobj tf = fo → tf_closed tf = false →
  tf_members tf = old →
  writing_ok t fo old (set_tars (λ l, l ++ [tf]) w).
Proof.
  intros -> Hfo Hc Hm. split; simpl.
  - rewrite length_app. simpl. lia.
  - exists tf. rewrite lookup_app_r, Nat.sub_diag by lia.
    repeat split; [done.. |]. exists []. by rewrite app_nil_r.
Qed.

Lemma tar_static_new tf w :
  tar_static (length (tars w)) (tf_name tf) (tf_hidden tf)
    (set_tars (λ l, l ++ [tf]) w).
Proof. exists tf. simpl. by rewrite lookup_app_r, Nat.sub_diag by lia. Qed.

(** A tar object made in mode w over an open file object. *)
Lemma TarFile_w_run fo o w :
  objs w !! fo = Some o → fo_closed o = false →
  TarFile_w fo w
  = (Return (length (tars w)),
     set_tars (λ l, l ++ [{| tf_fileobj := fo; tf_extfileobj := true;
                             tf_members := []; tf_damaged := false;
                             tf_closed := false;
                             tf_name := tar_name w (fo_name o);
                             tf_hidden := behind w o |}]) w).
Proof.
  intros Ho Hc. unfold TarFile_w. monad_norm. rewrite bind_run. simpl.
  by rewrite Ho, Hc.
Qed.

(** The second attempt, after the first has raised [ReadError] and left the
    file object behind what it read. *)
Lemma creation_retry fo o w :
  objs w !! fo = Some o → fo_closed o = false →
  ∃ w', TarFile_w fo (set_objs (set_pos fo AtEnd) w)
        = (Return (length (tars w)), w')
        ∧ writing_ok (length (tars w)) fo [] w'
        ∧ fs w' = fs w ∧ objs w' = set_pos fo AtEnd (objs w)
        ∧ tmp_seed w' = tmp_seed w ∧ cwd w' = cwd w
        ∧ tar_static (length (tars w)) (tar_name w (fo_name o))
            (behind w (at_pos AtEnd o)) w'.
Proof.
  intros Ho Hc.
  rewrite (TarFile_w_run fo (at_pos AtEnd o) (set_objs (set_pos fo AtEnd) w));
    [| simpl; by apply set_pos_lookup | done].
  eexists. split; [reflexivity |].
  split; [by apply writing_ok_new |]. repeat split.
  exact (tar_static_new {| tf_fileobj := fo; tf_extfileobj := true;
                           tf_members := []; tf_damaged := false;
                           tf_closed := false;
                           tf_name := tar_name w (fo_name o);
                           tf_hidden := behind w (at_pos AtEnd o) |}
           (set_objs (set_pos fo AtEnd) w)).
Qed.

(** Making the tar object: in append mode over a sink that stands at the
    start of a sound container its entries are read, in every other case
    the object starts empty.  The file object is moved and nothing else;
    the tar object writes where a reader finds it when the file object
    stood at the start of a container, or on an empty file. *)
Lemma creation_spec fileobj fo w :
  (∀ i, fileobj = Some i → fo = i) →
  match try_except
          (TarFile_new (match fileobj with Some _ => mode_a | None => mode_w end) fo)
          (Some ReadError) (TarFile_new mode_w fo) w with
  | (Return t, w') =>
      t = length (tars w) ∧ writing_ok t fo (sink_members w fileobj) w'
      ∧ fs w' = fs w ∧ (∃ p, objs w' = set_pos fo p (objs w))
      ∧ tmp_seed w' = tmp_seed w ∧ cwd w' = cwd w
      ∧ ∃ o h, objs w !! fo = Some o ∧ fo_closed o = false
               ∧ tar_static t (tar_name w (fo_name o)) h w'
               ∧ (writes_from_start w fo → h = false)
  | (Raise _, w') => w' = w
  end.
Proof.
  intros Hfo. unfold try_except.
  destruct fileobj as [i|]; simpl.
  - specialize (Hfo i eq_refl) as ->.
    unfold TarFile_a. monad_norm. rewrite bind_run. simpl.
    destruct (objs w !! i) as [o|] eqn:Ho; [| done].
    destruct (fo_closed o) eqn:Hc; [done |].
    destruct (fo_readable o); simpl; [| done].
    assert ((writes_from_start w i → behind w (at_pos AtEnd o) = false) →
                 match TarFile_w i (set_objs (set_pos i AtEnd) w) with
                 | (Return t, w') =>
                     t = length (tars w) ∧ writing_ok t i [] w'
                     ∧ fs w' = fs w ∧ (∃ p, objs w' = set_pos i p (objs w))
                     ∧ tmp_seed w' = tmp_seed w ∧ cwd w' = cwd w
                     ∧ ∃ o0 h, Some o = Some o0 ∧ fo_closed o0 = false
                               ∧ tar_static t (tar_name w (fo_name o0)) h w'
                               ∧ (writes_from_start w i → h = false)
                 | (Raise _, w') => w' = w
                 end) as Hretry.
    { intros Hvis.
      destruct (creation_retry i o w Ho Hc)
        as (w' & -> & Hok & Hfs & Hobjs & Hseed & Hcwd & Hst).
      do 3 (split; [done |]). split; [by eexists |]. do 2 (split; [done |]).
      exists o, (behind w (at_pos AtEnd o)). by do 3 (split; [done |]). }
    destruct (fo_pos o) eqn:Hpos;
      destruct (read_file (fs w) (fo_path o)) as [[bytes|ms [|]]|] eqn:Hr;
      try (rewrite bind_run; simpl; apply Hretry;
           intros (o' & Ho' & Hvis); rewrite Ho in Ho'; injection Ho' as <-;
           unfold behind; simpl; rewrite Hr;
           destruct Hvis as [Hraw | [Hp [ms' Hms]]];
           [rewrite Hr in Hraw | rewrite Hr in Hms; rewrite Hpos in Hp];
           by simplify_eq).
    rewrite bind_run. simpl.
    split; [done |]. split; [by apply writing_ok_new |].
    split; [done |]. split; [by eexists |]. do 2 (split; [done |]).
    exists o, false. do 2 (split; [done |]). split; [| done].
    exact (tar_static_new {| tf_fileobj := i; tf_extfileobj := true;
                             tf_members := map read_back ms;
                             tf_damaged := false; tf_closed := false;
                             tf_name := tar_name w (fo_name o);
                             tf_hidden := false |}
             (set_objs (set_pos i match ms with [] => AtStart | _ => AtEnd end)
                w)).
  - unfold TarFile_w. monad_norm. rewrite bind_run. simpl.
    destruct (objs w !! fo) as [o|] eqn:Ho; [| done].
    destruct (fo_closed o) eqn:Hc; [done |]. simpl.
    split; [done |]. split; [by apply writing_ok_new |]. split; [done |].
    split; [exists (fo_pos o); by rewrite set_pos_same |].
    do 2 (split; [done |]).
    exists o, (behind w o). do 2 (split; [done |]).
    split; [exact (tar_static_new
                     {| tf_fileobj := fo; tf_extfileobj := true;
                        tf_members := []; tf_damaged := false;
                        tf_closed := false;
                        tf_name := tar_name w (fo_name o);
                        tf_hidden := behind w o |} w) |].
    intros (o' & Ho' & Hvis). rewrite Ho in Ho'. injection Ho' as <-.
    unfold behind. destruct Hvis as [-> | [-> _]]; [| done].
    by destruct (fo_pos o).
Qed.

Lemma close_fileobj_run i w :
  ∃ w', close_fileobj i w = (Return tt, w')
        ∧ tars w' = tars w ∧ fs w' = fs w ∧ tmp_seed w' = tmp_seed w
        ∧ ∀ j, fo_path <$> objs w' !! j = fo_path <$> objs w !! j.
Proof.
  eexists. split; [reflexivity |]. repeat split. intros j. simpl.
  destruct (objs w !! i) as [o|] eqn:Ho; [| done].
  destruct (decide (i = j)) as [<-|Hne].
  - rewrite list_lookup_insert_eq by by eapply lookup_lt_Some. by rewrite Ho.
  - by rewrite list_lookup_insert_ne.
Qed.

(** Closing the tar object being written: its entries stay; when it writes
    where a reader finds them, its file, if it is still in the file system,
    holds exactly them. *)
Lemma close_spec t fo old w :
  writing_ok t fo old w →
  match tarfile_close t true w with
  | (Return _, w') =>
      length (tars w') = S t ∧ tmp_seed w' = tmp_seed w
      ∧ ∃ tf tf0 p, tars w' !! t = Some tf ∧ entries_ok old tf
                ∧ tars w !! t = Some tf0
                ∧ tf_name tf = tf_name tf0 ∧ tf_hidden tf = tf_hidden tf0
                ∧ tf_fileobj tf = fo
                ∧ fo_path <$> objs w' !! fo = Some p
                ∧ (tf_hidden tf = false →
                   read_file (fs w') p = None
                   ∨ read_file (fs w') p = Some (Tar (tf_members tf) false))
                ∧ (∀ k, fs w !! k = None → fs w' !! k = None)
  | (Raise _, w') => w' = w
  end.
Proof.
  intros (Hlen & tf & Ht & <- & Hc & Hok).
  unfold tarfile_close. monad_norm. rewrite bind_run. simpl. rewrite Ht, Hc.
  rewrite bind_run. unfold flush at 1.
  destruct (objs w !! tf_fileobj tf) as [o|] eqn:Ho; [| done].
  destruct (fo_closed o || negb (fo_writable o)); [done |].
  set (tf' := {| tf_fileobj := tf_fileobj tf; tf_extfileobj := tf_extfileobj tf;
                 tf_members := tf_members tf; tf_damaged := tf_damaged tf;
                 tf_closed := true; tf_name := tf_name tf;
                 tf_hidden := tf_hidden tf |}).
  assert (∀ w1, tars w1 = tars w →
                objs w1 = set_pos (tf_fileobj tf) AtEnd (objs w) →
                tmp_seed w1 = tmp_seed w →
                (tf_hidden tf = false →
                 read_file (fs w1) (fo_path o) = None
                 ∨ read_file (fs w1) (fo_path o) = Some (Tar (tf_members tf) false)) →
                (∀ k, fs w !! k = None → fs w1 !! k = None) →
                match (bind (modify (set_tars (λ l, <[t:=tf']> l)))
                         (λ _, if tf_extfileobj tf then ret tt
                               else close_fileobj (tf_fileobj tf))) w1 with
                | (Return _, w') =>
                    length (tars w') = S t ∧ tmp_seed w' = tmp_seed w
                    ∧ ∃ tf1 tf0 p, tars w' !! t = Some tf1 ∧ entries_ok old tf1
                               ∧ Some tf = Some tf0
                               ∧ tf_name tf1 = tf_name tf0
                               ∧ tf_hidden tf1 = tf_hidden tf0
                               ∧ tf_fileobj tf1 = tf_fileobj tf
                               ∧ fo_path <$> objs w' !! tf_fileobj tf = Some p
                               ∧ (tf_hidden tf1 = false →
                                  read_file (fs w') p = None
                                  ∨ read_file (fs w') p
                                    = Some (Tar (tf_members tf1) false))
                               ∧ (∀ k, fs w !! k = None → fs w' !! k = None)
                | (Raise _, w') => w' = w
                end) as Hrest.
  { intros w1 Htars Hobjs Hseed Hread Hframe. rewrite bind_run. simpl.
    assert (fo_path <$> objs w1 !! tf_fileobj tf = Some (fo_path o)) as Hpath.
    { rewrite Hobjs, (set_pos_fmap fo_path) by done. by rewrite Ho. }
    destruct (tf_extfileobj tf).
    - rewrite ret_run. simpl. rewrite length_insert, Htars.
      repeat split; [done.. |].
      exists tf', tf, (fo_path o). rewrite list_lookup_insert_eq by lia.
      change (tf_members tf') with (tf_members tf).
      change (tf_hidden tf') with (tf_hidden tf).
      done.
    - destruct (close_fileobj_run (tf_fileobj tf)
                  (set_tars (λ l, <[t:=tf']> l) w1))
        as (w2 & -> & Ht2 & Hf2 & Hs2 & Ho2).
      rewrite Ht2, Hs2. simpl.
      rewrite length_insert, Htars. repeat split; [done.. |].
      exists tf', tf, (fo_path o). rewrite list_lookup_insert_eq by lia.
      change (tf_members tf') with (tf_members tf).
      change (tf_hidden tf') with (tf_hidden tf).
      rewrite Hf2, Ho2. simpl. done. }
  destruct (fs w !! fo_path o) as [[mode c|mode]|] eqn:Hp; simpl.
  - apply Hrest; simpl; try done.
    + intros Hh. right. unfold read_file, written.
      by rewrite lookup_insert_eq, Hh.
    + intros k Hk. rewrite lookup_insert_ne; [done | congruence].
  - apply Hrest; simpl; try done. left. unfold read_file. by rewrite Hp.
  - apply Hrest; simpl; try done. left. unfold read_file. by rewrite Hp.
Qed.

(** [fileobj.seek(0)] moves a file object and nothing else. *)
Lemma seek0_run i w :
  match seek0 i w with
  | (Return _, w') =>
      tars w' = tars w ∧ fs w' = fs w ∧ tmp_seed w' = tmp_seed w
      ∧ objs w' = set_pos i AtStart (objs w)
  | (Raise _, w') => w' = w
  end.
Proof.
  unfold seek0. monad_norm. rewrite bind_run. simpl.
  destruct (objs w !! i) as [o|]; [| done]. by destruct (fo_closed o).
Qed.

Section Contract.

Variable ext : Collaborators.

Lemma check_input_returns self self1 w w1 :
  _check_input ext self w = (Return self1, w1) →
  w1 = w ∧ self_fileobj self1 = self_fileobj self
  ∧ self_sigmffiles self1 = self_sigmffiles self.
Proof.
  intros Hrun. pose proof (check_input_pure ext self w) as Hp.
  rewrite Hrun in Hp. simpl in Hp. subst w1. split; [done |].
  revert Hrun. unfold _check_input, _ensure_path_has_correct_extension.
  monad_norm. rewrite bind_run.
  destruct (self_path self) as [p|]; simpl.
  - destruct (_ && _); [done |]. rewrite ret_run, bind_run.
    destruct (for_each _ _ w) as [[[]|e] w']; [| done].
    by intros [= <- _].
  - rewrite bind_run.
    destruct (for_each _ _ w) as [[[]|e] w']; [| done].
    by intros [= <- _].
Qed.



End Contract.

(** ** Staging directories *)

Lemma hoare_bind {A B} P (m : M A) (k : A → M B) R Q E :
  hoare P m R E → (∀ a, hoare (R a) (k a) Q E) → hoare P (bind m k) Q E.
Proof.
  intros Hm Hk w Hw. rewrite bind_run. specialize (Hm w Hw).
  destruct (m w) as [[a|e] w']; [| done]. by apply Hk.
Qed.

Lemma preserves_returns {A} I (m : M A) :
  preserves I m → hoare I m (λ _, I) (λ _ _, True).
Proof.
  intros Hm w Hw. specialize (Hm w Hw).
  by destruct (m w) as [[a|e] w'].
Qed.

Lemma preserves_and {A} (I J : World → Prop) (m : M A) :
  preserves I m → preserves J m → preserves (λ w, I w ∧ J w) m.
Proof. intros HI HJ w [? ?]. split; [by apply HI | by apply HJ]. Qed.

Lemma preserves_forall {A B} (I : B → World → Prop) (m : M A) :
  (∀ b, preserves (I b) m) → preserves (λ w, ∀ b, I b w) m.
Proof. intros H w Hw b. by apply H. Qed.

Lemma underscores_inj n m : underscores n = underscores m → n = m.
Proof.
  revert m. induction n as [|n IH]; intros [|m]; simpl; try done.
  intros [= H]. by rewrite (IH m H).
Qed.

Lemma tmp_name_inj n m : tmp_name n = tmp_name m → n = m.
Proof. unfold tmp_name. intros H%(inj _). by apply underscores_inj. Qed.

Lemma tmp_name_no_dot n : Str.contains "." (tmp_name n) = false.
Proof.
  unfold tmp_name. rewrite contains_app. simpl.
  induction n as [|n IH]; simpl; done.
Qed.

Lemma basename_no_slash (p : string) : Str.contains Path.sep (Path.basename p) = false.
Proof.
  induction p as [|x p IH]; simpl; [done |].
  destruct (Str.contains Path.sep p) eqn:Hp; [done |].
  destruct (Ascii.eqb x Path.sep) eqn:Hx; [done |].
  simpl. by rewrite Hx, Hp.
Qed.

Lemma startswith_slash (b : string) :
  Str.startswith b "/" = true → Str.contains Path.sep b = true.
Proof.
  destruct b as [|x b]; simpl; [done |].
  unfold Path.sep. destruct (Ascii.eqb x "/"); [done |]. by destruct b.
Qed.

(** What [join] returns holds every character its second part holds. *)
Lemma join_contains_r c (a b : string) :
  Str.contains c b = true → Str.contains c (Path.join a b) = true.
Proof.
  intros Hb. unfold Path.join.
  destruct (Str.startswith b "/"); [done |].
  destruct (_ || _); rewrite !contains_app, Hb, ?orb_true_r; done.
Qed.

(** And every character its first part holds, unless the second part is
    absolute. *)
Lemma join_contains_l c (a b : string) :
  Str.contains Path.sep b = false →
  Str.contains c a = true → Str.contains c (Path.join a b) = true.
Proof.
  intros Hb Ha. unfold Path.join.
  destruct (Str.startswith b "/") eqn:Hs.
  { apply startswith_slash in Hs. congruence. }
  destruct (_ || _); rewrite !contains_app, Ha; done.
Qed.

Lemma write_file_absent k p c :
  k ≠ p → preserves (absent k) (write_file p c).
Proof.
  intros Hk w Hw. unfold write_file, absent in *.
  repeat case_match; simpl; rewrite ?lookup_insert_ne; done.
Qed.

Lemma set_mode_absent k p mode (m : gmap string Node) :
  m !! k = None → set_mode p mode m !! k = None.
Proof.
  intros Hk. unfold set_mode.
  destruct (m !! p) as [[]|] eqn:Hp; [| | done];
    (rewrite lookup_insert_ne; [done | congruence]).
Qed.

Lemma shutil_copy_absent k src dst :
  Str.contains "." dst = true → Str.contains "." k = false →
  preserves (absent k) (shutil_copy src dst).
Proof.
  intros Hdst Hk w Hw. unfold shutil_copy.
  set (dst' := if os_path_isdir (fs w) dst then _ else _).
  assert (k ≠ dst') as Hne.
  { intros ->. subst dst'. destruct (os_path_isdir (fs w) dst); [| congruence].
    rewrite join_contains_l in Hk; [done | apply basename_no_slash | done]. }
  destruct (fs w !! src) as [[mode c|]|]; [| done..].
  destruct (String.eqb src dst'); [done |].
  pose proof (write_file_absent k dst' c Hne w Hw) as Hw'.
  destruct (write_file dst' c w) as [[[]|e] w']; simpl in *; [| done].
  by apply set_mode_absent.
Qed.

Lemma flush_absent k tf : preserves (absent k) (flush tf).
Proof.
  intros w Hw. unfold flush, absent in *.
  repeat case_match; simpl; try done.
  rewrite lookup_insert_ne; [done | congruence].
Qed.

Lemma addfile_absent k t ti : preserves (absent k) (addfile t ti).
Proof.
  unfold addfile, get_tarfile. monad_norm.
  apply preserves_bind; [apply preserves_pure; intros w; by repeat case_match |].
  intros tf. apply preserves_bind; [by intros w | intros _; apply flush_absent].
Qed.

Lemma add_tree_preserves order depth t name arcname filter (I : World → Prop) :
  (∀ ti, preserves I (addfile t ti)) →
  preserves I (add_tree order depth t name arcname filter).
Proof.
  intros Hadd. revert name arcname.
  induction depth as [|depth IH]; intros name arcname; simpl; monad_norm.
  - apply preserves_bind; [apply preserves_pure, gettarinfo_pure | intros ti].
    apply preserves_bind; [apply Hadd | intros _].
    destruct (ti_isdir (filter ti)); by intros w.
  - apply preserves_bind; [apply preserves_pure, gettarinfo_pure | intros ti].
    apply preserves_bind; [apply Hadd | intros _].
    destruct (ti_isdir (filter ti)); [| by intros w].
    apply preserves_bind; [by intros w | intros w0].
    apply preserves_for_each. intros f. apply IH.
Qed.

Lemma tarfile_add_preserves order t name arcname filter (I : World → Prop) :
  (∀ ti, preserves I (addfile t ti)) →
  preserves I (tarfile_add order t name arcname filter).
Proof.
  intros Hadd. unfold tarfile_add. monad_norm.
  apply preserves_bind; [by intros w | intros w0].
  by apply add_tree_preserves.
Qed.

Lemma addfile_keeps_seed t ti : keeps tmp_seed (addfile t ti).
Proof.
  unfold addfile, get_tarfile. monad_norm.
  apply keeps_bind; [fs_only | intros tf].
  apply keeps_bind; [by intros w | intros _]. unfold flush. fs_only.
Qed.

Lemma rmtree_absent k d : preserves (absent k) (shutil_rmtree d).
Proof.
  intros w Hw. unfold shutil_rmtree, absent in *.
  destruct (os_path_isdir (fs w) d); [| done]. simpl.
  apply map_lookup_filter_None. by left.
Qed.

(** A removed tree is gone. *)
Lemma rmtree_removes d w w' :
  shutil_rmtree d w = (Return tt, w') → absent d w'.
Proof.
  unfold shutil_rmtree, absent.
  destruct (os_path_isdir (fs w) d); [| done]. intros [= <-]. simpl.
  apply map_lookup_filter_None. right. intros x _. simpl.
  unfold within. rewrite String.eqb_refl. simpl. tauto.
Qed.

Lemma keeps_of_preserves {A C} (f : World → C) (m : M A) :
  (∀ c, preserves (λ w, f w = c) m) → keeps f m.
Proof. intros H w. by apply (H (f w)). Qed.

Lemma tarfile_add_keeps_seed order t name arcname filter :
  keeps tmp_seed (tarfile_add order t name arcname filter).
Proof.
  apply keeps_of_preserves. intros c. apply tarfile_add_preserves.
  intros ti w Hw. by rewrite addfile_keeps_seed.
Qed.

Lemma write_file_keeps_seed p c : keeps tmp_seed (write_file p c).
Proof. unfold write_file. fs_only. Qed.

Lemma rmtree_keeps_seed d : keeps tmp_seed (shutil_rmtree d).
Proof. unfold shutil_rmtree. fs_only. Qed.

Lemma hoare_for_each {A} (I : nat → World → Prop) (xs : list A) body i :
  (∀ j x, hoare (I j) (body x) (λ _, I (S j)) (λ _ _, True)) →
  hoare (I i) (for_each xs body) (λ _, I (i + length xs)%nat) (λ _ _, True).
Proof.
  intros Hb. revert i. induction xs as [|x xs IH]; intros i.
  - intros w Hw. simpl. by rewrite Nat.add_0_r.
  - rewrite for_each_cons. eapply hoare_bind; [apply Hb |].
    intros ?. simpl length. rewrite Nat.add_succ_r. apply (IH (S i)).
Qed.

Section Staging.

Variable ext : Collaborators.

(** While a recording is staged, the earlier staging directories stay
    gone: every name the staging makes holds a dot, and theirs do not. *)
Lemma earlier_gone_preserved {A} s0 s (m : M A) :
  keeps tmp_seed m →
  (∀ k, Str.contains "." k = false → preserves (absent k) m) →
  preserves (earlier_gone s0 s) m.
Proof.
  intros Hseed Habs w [Hs Hgone]. split; [by rewrite Hseed |].
  intros n Hn. apply Habs; [apply tmp_name_no_dot | by apply Hgone].
Qed.

(** One turn of the loop that returns has made one staging directory and
    removed it. *)
Lemma add_recording_staging s0 s t sf :
  hoare (λ w, tmp_seed w = s ∧ staging_gone s0 w)
    (add_recording ext t sf)
    (λ _ w', tmp_seed w' = S s ∧ staging_gone s0 w')
    (λ _ _, True).
Proof.
  intros w [Hs Hgone]. unfold add_recording. monad_norm. rewrite bind_run.
  unfold tempfile_mkdtemp. rewrite Hs.
  destruct (os_path_exists (fs w) (tmp_name s)); [done |].
  destruct (os_path_isdir (fs w) "/tmp"); [| done].
  set (w1 := set_fs _ _).
  destruct (sf_name sf) as [name|]; [| done].
  destruct (sf_data_file sf) as [data_file|]; [| done].
  assert (earlier_gone s0 s w1) as Hw1.
  { split; [done |]. intros n Hn. unfold absent. simpl.
    rewrite lookup_insert_ne; [apply Hgone; lia |].
    intros H%tmp_name_inj. lia. }
  assert (∀ x, Str.contains "." (Path.join (tmp_name s) (name +:+ x)) = true
               ∨ Str.contains "." x = false) as Hdot.
  { intros x. destruct (Str.contains "." x) eqn:Hx; [left | by right].
    apply join_contains_r. by rewrite contains_app, Hx, orb_true_r. }
  enough (hoare (earlier_gone s0 s)
            (bind (write_file (Path.join (tmp_name s) (name +:+ SIGMF_METADATA_EXT))
                     (Raw (dump ext sf)))
               (λ _, bind (shutil_copy data_file
                             (Path.join (tmp_name s) (name +:+ SIGMF_DATASET_EXT)))
               (λ _, bind (tarfile_add (listing_order ext) t (tmp_name s) name chmod)
               (λ _, shutil_rmtree (tmp_name s)))))
            (λ _ w', earlier_gone s0 s w' ∧ absent (tmp_name s) w')
            (λ _ _, True)) as Hrest.
  { specialize (Hrest w1 Hw1). destruct (bind _ _ w1) as [[[]|e] w']; [| done].
    destruct Hrest as [[Hs' Hearlier] Hnow]. split; [done |].
    intros n Hn. destruct (decide (n = s)) as [Heq | Hne]; [by rewrite Heq |].
    apply Hearlier. lia. }
  eapply hoare_bind.
  { apply preserves_returns, earlier_gone_preserved;
      [apply write_file_keeps_seed |].
    intros k Hk. apply write_file_absent. intros ->.
    destruct (Hdot SIGMF_METADATA_EXT) as [H|H]; [congruence | done]. }
  intros ?. eapply hoare_bind.
  { apply preserves_returns, earlier_gone_preserved;
      [by apply shutil_copy_keeps |].
    intros k Hk. apply shutil_copy_absent; [| done].
    destruct (Hdot SIGMF_DATASET_EXT) as [H|H]; done. }
  intros ?. eapply hoare_bind.
  { apply preserves_returns, earlier_gone_preserved;
      [apply tarfile_add_keeps_seed |].
    intros k _. apply tarfile_add_preserves. intros ti. apply addfile_absent. }
  intros ? w2 Hw2.
  pose proof (earlier_gone_preserved s0 s (shutil_rmtree (tmp_name s))
                (rmtree_keeps_seed _) (λ k _, rmtree_absent k _) w2 Hw2) as Hkeep.
  destruct (shutil_rmtree (tmp_name s) w2) as [[[]|e] w3] eqn:Hrm; [| done].
  split; [done | by eapply rmtree_removes].
Qed.

End Staging.

Lemma hoare_with_invariant {A} P (m : M A) Q (I : World → Prop) :
  hoare P m Q (λ _ _, True) → preserves I m →
  hoare (λ w, P w ∧ I w) m (λ a w, Q a w ∧ I w) (λ _ _, True).
Proof.
  intros Hm HI w [HP Hw]. specialize (Hm w HP). specialize (HI w Hw).
  by destruct (m w) as [[a|e] w'].
Qed.

Section StagingTheorem.

Variable ext : Collaborators.

Lemma init_tail_staging t fo old sfs (fileobj : option nat) (self : SigMFArchive) w :
  writing_ok t fo old w →
  match bind (for_each sfs (add_recording ext t))
          (λ _, bind (tarfile_close t true)
          (λ _, bind (match fileobj with
                      | None => close_fileobj fo
                      | Some _ => seek0 fo
                      end)
          (λ _, bind (tarfile_name t)
          (λ name, ret {| self_path := name;
                          self_fileobj := self_fileobj self;
                          self_sigmffiles := self_sigmffiles self |})))) w with
  | (Return _, w') =>
      tmp_seed w' = (tmp_seed w + length sfs)%nat
      ∧ staging_gone (tmp_seed w) w'
  | (Raise _, _) => True
  end.
Proof.
  intros Hw. rewrite bind_run.
  set (s0 := tmp_seed w).
  assert (∀ j x, hoare
            (λ w, (tmp_seed w = (s0 + j)%nat ∧ staging_gone s0 w)
                  ∧ writing_ok t fo old w)
            (add_recording ext t x)
            (λ _ w, (tmp_seed w = (s0 + S j)%nat ∧ staging_gone s0 w)
                    ∧ writing_ok t fo old w)
            (λ _ _, True)) as Hbody.
  { intros j x. rewrite Nat.add_succ_r.
    apply hoare_with_invariant;
      [apply add_recording_staging | apply add_recording_writing_ok]. }
  pose proof (hoare_for_each
    (λ j w, (tmp_seed w = (s0 + j)%nat ∧ staging_gone s0 w) ∧ writing_ok t fo old w)
    sfs (add_recording ext t) 0 Hbody w) as Hloop.
  destruct (for_each sfs (add_recording ext t) w) as [[[]|e] w1]; [| done].
  destruct Hloop as [[Hs1 Hgone1] Hw1].
  { split; [| done]. split; [lia |]. intros n Hn. subst s0. lia. }
  simpl in Hs1. rewrite bind_run.
  pose proof (close_spec t fo old w1 Hw1) as Hclose.
  destruct (tarfile_close t true w1) as [[[]|e] w2]; [| done].
  destruct Hclose
    as (_ & Hs2 & tf & tf0 & p & _ & _ & _ & _ & _ & _ & _ & _ & Hnew).
  rewrite bind_run.
  assert (match (match fileobj with
                 | None => close_fileobj fo
                 | Some _ => seek0 fo
                 end) w2 with
          | (Return _, w3) => fs w3 = fs w2 ∧ tmp_seed w3 = tmp_seed w2
          | (Raise _, _) => True
          end) as Hlast.
  { destruct fileobj.
    - pose proof (seek0_run fo w2) as Hseek.
      destruct (seek0 fo w2) as [[[]|e] w3]; [| done].
      by destruct Hseek as (_ & ? & ? & _).
    - by destruct (close_fileobj_run fo w2) as (w3 & -> & _ & ? & ? & _). }
  destruct ((match fileobj with
             | None => close_fileobj fo
             | Some _ => seek0 fo
             end) w2) as [[[]|e] w3]; [| done].
  destruct Hlast as [Hf3 Hs3].
  rewrite bind_run. unfold tarfile_name at 1. rewrite ret_run.
  split; [lia |].
  intros n Hn. unfold absent. rewrite Hf3. apply Hnew, Hgone1. lia.
Qed.

(** C7, as the code has it.  A call that fails in the pre-flight checks
    ends in the world it started in.  A call that returns has made one
    staging directory for each recording, and none of them is left. *)
Theorem staging_removed_on_return sigmffiles path fileobj w :
  (∀ e, (_check_input ext
           {| self_path := path; self_fileobj := fileobj;
              self_sigmffiles := as_iterable sigmffiles |} w).1 = Raise e →
        SigMFArchive_init ext sigmffiles path fileobj w = (Raise e, w))
  ∧ match SigMFArchive_init ext sigmffiles path fileobj w with
    | (Return _, w') =>
        tmp_seed w' = (tmp_seed w + length (as_iterable sigmffiles))%nat
        ∧ staging_gone (tmp_seed w) w'
    | (Raise _, _) => True
    end.
Proof.
  unfold SigMFArchive_init. monad_norm.
  set (self := {| self_path := path; self_fileobj := fileobj;
                  self_sigmffiles := as_iterable sigmffiles |}).
  split.
  - intros e He. apply bind_raise.
    pose proof (check_input_pure ext self w) as Hp.
    destruct (_check_input ext self w) as [r w1]. simpl in *. by subst.
  - rewrite bind_run.
    destruct (_check_input ext self w) as [[self1|e] w1] eqn:Hcheck; [| done].
    apply check_input_returns in Hcheck as (-> & Hfo & Hsfs). simpl in Hfo, Hsfs.
    rewrite bind_run.
    pose proof (get_output_fileobj_spec self1 w) as Hout. rewrite Hfo in Hout.
    destruct (_get_output_fileobj self1 w) as [[fo|e] w2]; [| done].
    destruct Hout as (_ & Hs2 & Hsink).
    rewrite bind_run.
    pose proof (creation_spec fileobj fo w2) as Hcreate.
    destruct (try_except _ _ _ w2) as [[t|e] w3]; [| done].
    destruct Hcreate as (_ & Hw3 & _ & _ & Hs3 & _);
      [by intros i ->; destruct Hsink |].
    pose proof (init_tail_staging t fo (sink_members w2 fileobj)
                  (self_sigmffiles self1) fileobj self1 w3 Hw3) as Htail.
    destruct (bind (for_each _ _) _ w3) as [[self'|e] w4]; [| done].
    rewrite Hs3, Hs2, Hsfs in Htail. done.
Qed.

End StagingTheorem.

(** C7, as stated, fails: the data file of the recording is not there, the
    copy raises, and the staging directory, the metadata file staged in it
    and the destination file, none of which was there before, are left. *)
Lemma staging_left_when_copy_fails :
  (SigMFArchive_init toy (Many [rec_missing]) (Some "/out/x") None w0).1
  = Raise OSError
  ∧ fs w0 !! "/tmp/tmp" = None
  ∧ fs (SigMFArchive_init toy (Many [rec_missing]) (Some "/out/x") None w0).2
       !! "/tmp/tmp" = Some (Dir mode_700)
  ∧ fs (SigMFArchive_init toy (Many [rec_missing]) (Some "/out/x") None w0).2
       !! "/tmp/tmp/m.sigmf-meta" = Some (File (6 * 64) (Raw "{}"))
  ∧ fs w0 !! "/out/x.sigmf" = None
  ∧ fs (SigMFArchive_init toy (Many [rec_missing]) (Some "/out/x") None w0).2
       !! "/out/x.sigmf" = Some (File (6 * 64) (Raw "")).
Proof. repeat split; vm_compute; reflexivity. Qed.

(** ** More on paths *)

(** [s] ends in a separator. *)
Lemma endswith_sep_cons c (s : string) :
  Str.endswith (String c s) "/" =
  match s with
  | EmptyString => Ascii.eqb c Path.sep
  | _ => Str.endswith s "/"
  end.
Proof.
  rewrite endswith_cons. destruct s as [|d s]; simpl.
  - unfold Path.sep. by destruct (Ascii.eqb c "/").
  - destruct (Ascii.eqb c "/"); simpl; done.
Qed.

Lemma endswith_sep_app (a b : string) :
  b ≠ "" → Str.endswith (a +:+ b) "/" = Str.endswith b "/".
Proof.
  intros Hb. induction a as [|c a IH]; [done |].
  rewrite str_app_cons, endswith_sep_cons.
  destruct (a +:+ b) eqn:Hab; [| done].
  destruct a; [| done]. by rewrite str_app_nil_l in Hab.
Qed.

Lemma endswith_sep_contains (s : string) :
  Str.endswith s "/" = true → Str.contains Path.sep s = true.
Proof.
  induction s as [|c s IH]; [done |].
  rewrite endswith_sep_cons. simpl. destruct s.
  - intros ->. done.
  - intros H. rewrite (IH H). apply orb_true_r.
Qed.

Lemma strip_prefix_app (p x : string) : Str.strip_prefix p (p +:+ x) = Some x.
Proof.
  induction p as [|c p IH]; [by destruct x |].
  rewrite str_app_cons. simpl. by rewrite Ascii.eqb_refl.
Qed.

Lemma strip_prefix_inv (p k x : string) :
  Str.strip_prefix p k = Some x → k = p +:+ x.
Proof.
  revert k. induction p as [|c p IH]; intros k; simpl.
  - by destruct k; intros [= <-].
  - destruct k as [|d k]; [done |].
    destruct (Ascii.eqb_spec d c) as [-> | ?]; [| done].
    intros H. by rewrite (IH k H).
Qed.

Lemma startswith_no_slash (b : string) :
  Str.contains Path.sep b = false → Str.startswith b "/" = false.
Proof.
  intros Hb. destruct (Str.startswith b "/") eqn:Hs; [| done].
  apply startswith_slash in Hs. congruence.
Qed.

Lemma truthy_iff (s : string) : Str.truthy s = true ↔ s ≠ "".
Proof. by destruct s. Qed.

Lemma join_plain (a b : string) :
  plain a → Str.startswith b "/" = false → Path.join a b = a +:+ "/" +:+ b.
Proof.
  intros [Ha He] Hb. unfold Path.join. rewrite Hb, He.
  apply truthy_iff in Ha. by rewrite Ha.
Qed.

Lemma join_plain_nil (d : string) : plain d → Path.join d "" = d +:+ "/".
Proof. intros Hd. by rewrite join_plain. Qed.

Lemma within_refl (d : string) : within d d = true.
Proof. unfold within. by rewrite String.eqb_refl. Qed.

Lemma within_below (d x : string) : plain d → within d (d +:+ "/" +:+ x) = true.
Proof.
  intros Hd. unfold within. rewrite (join_plain_nil d Hd).
  rewrite <- append_assoc, strip_prefix_app. apply orb_true_r.
Qed.

Lemma within_inv (d k : string) :
  plain d → within d k = true → k = d ∨ ∃ x, k = d +:+ "/" +:+ x.
Proof.
  intros Hd. unfold within. rewrite (join_plain_nil d Hd).
  intros [H%String.eqb_eq | H]%orb_true_iff; [by left | right].
  destruct (Str.strip_prefix _ k) as [x|] eqn:Hx; [| done].
  exists x. apply strip_prefix_inv in Hx. by rewrite Hx, append_assoc.
Qed.

Lemma head_of_cons x (r : string) :
  Path.head_of (String x r) =
  if Str.contains Path.sep r then String x (Path.head_of r)
  else if Ascii.eqb x Path.sep then String x EmptyString else EmptyString.
Proof. reflexivity. Qed.

Lemma head_of_join (a f : string) :
  Str.contains Path.sep f = false → Path.head_of (a +:+ "/" +:+ f) = a +:+ "/".
Proof.
  intros Hf. induction a as [|c a IH].
  - rewrite !str_app_nil_l. change ("/" +:+ f) with (String "/" f).
    by rewrite head_of_cons, Hf.
  - rewrite (str_app_cons c a ("/" +:+ f)), (str_app_cons c a "/").
    rewrite head_of_cons, IH.
    rewrite contains_app. change ("/" +:+ f) with (String "/" f).
    simpl Str.contains. by rewrite orb_true_r.
Qed.

Lemma rstrip_sep_app (a : string) :
  plain a → Str.rstrip Path.sep (a +:+ "/") = a.
Proof.
  intros [Ha He]. induction a as [|c a IH]; [done |].
  rewrite str_app_cons. simpl.
  rewrite endswith_sep_cons in He. destruct a as [|d a].
  - rewrite str_app_nil_l. simpl. by rewrite He.
  - rewrite IH by done. done.
Qed.

(** The directory of a file directly below [a] is [a]. *)
Lemma dirname_join (a f : string) :
  plain a → Str.contains Path.sep f = false →
  Path.dirname (a +:+ "/" +:+ f) = a.
Proof.
  intros Ha Hf. unfold Path.dirname. rewrite head_of_join by done.
  rewrite rstrip_sep_app by done. destruct a; [by destruct Ha | done].
Qed.

Lemma lstrip_id (s : string) :
  Str.startswith s "/" = false → Str.lstrip Path.sep s = s.
Proof.
  destruct s as [|c s]; simpl; [done |]. unfold Path.sep.
  destruct (Ascii.eqb c "/"); [by destruct s | done].
Qed.


Lemma tmp_name_plain n : plain (tmp_name n).
Proof.
  split; [done |]. unfold tmp_name.
  destruct n as [|n]; [done |].
  rewrite endswith_sep_app by done.
  induction n as [|n IH]; [done |].
  change (underscores (S (S n))) with (String "_" (underscores (S n))).
  by rewrite endswith_sep_cons.
Qed.


(** The name under which a file directly below [d] is listed. *)
Lemma child_name_below (d f : string) :
  plain d → f ≠ "" → Str.contains Path.sep f = false →
  child_name d (d +:+ "/" +:+ f) = Some f.
Proof.
  intros Hd Hf Hs. unfold child_name. rewrite (join_plain_nil d Hd).
  rewrite <- append_assoc, strip_prefix_app, Hs.
  apply truthy_iff in Hf. by rewrite Hf.
Qed.

Lemma child_name_within (d k f : string) :
  child_name d k = Some f → within d k = true.
Proof.
  unfold child_name, within.
  destruct (Str.strip_prefix _ k); [| done]. intros _. apply orb_true_r.
Qed.

Lemma child_name_self (d : string) : plain d → child_name d d = None.
Proof.
  intros Hd. unfold child_name. rewrite (join_plain_nil d Hd).
  destruct (Str.strip_prefix (d +:+ "/") d) as [x|] eqn:Hx; [| done].
  apply strip_prefix_inv in Hx. exfalso.
  assert (String.length d = String.length ((d +:+ "/") +:+ x)) as Hl by congruence.
  rewrite !str_length_app in Hl. simpl in Hl. lia.
Qed.

(** ** Runs of the library calls *)

Lemma isdir_insert_ne (m : gmap string Node) k v q :
  k ≠ q → os_path_isdir (<[k := v]> m) q = os_path_isdir m q.
Proof. intros H. unfold os_path_isdir. by rewrite lookup_insert_ne. Qed.

Lemma isdir_lookup (m : gmap string Node) q mode :
  m !! q = Some (Dir mode) → os_path_isdir m q = true.
Proof. intros H. unfold os_path_isdir. by rewrite H. Qed.

Lemma isdir_present (m : gmap string Node) q :
  os_path_isdir m q = true → m !! q ≠ None.
Proof. unfold os_path_isdir. by destruct (m !! q). Qed.

Lemma mkdtemp_run m os ts i u cw :
  m !! tmp_name i = None → os_path_isdir m "/tmp" = true →
  tempfile_mkdtemp {| fs := m; objs := os; tars := ts; tmp_seed := i; umask := u; cwd := cw |}
  = (Return (tmp_name i),
     {| fs := <[tmp_name i := Dir (Z.land mode_700 (Z.lnot u))]> m;
        objs := os; tars := ts; tmp_seed := S i; umask := u; cwd := cw |}).
Proof.
  intros Hd Htmp. unfold tempfile_mkdtemp, os_path_exists. simpl.
  by rewrite Hd, Htmp.
Qed.

Lemma write_file_new p c w :
  fs w !! p = None → parent_ok (fs w) p = true →
  write_file p c w
  = (Return tt, set_fs (insert p (File (masked mode_666 w) c)) w).
Proof. intros Hp Hparent. unfold write_file. by rewrite Hp, Hparent. Qed.

Lemma shutil_copy_new src dst mode c w :
  fs w !! src = Some (File mode c) → fs w !! dst = None →
  parent_ok (fs w) dst = true →
  shutil_copy src dst w = (Return tt, set_fs (insert dst (File mode c)) w).
Proof.
  intros Hsrc Hdst Hparent. unfold shutil_copy.
  assert (os_path_isdir (fs w) dst = false) as ->
    by (unfold os_path_isdir; by rewrite Hdst).
  rewrite Hsrc.
  destruct (String.eqb_spec src dst) as [-> | _]; [congruence |].
  rewrite write_file_new by done. simpl. f_equal.
  destruct w. unfold set_fs, set_mode. simpl. f_equal.
  by rewrite lookup_insert_eq, insert_insert_eq.
Qed.

Lemma addfile_run t ti tf o mode c w :
  tars w !! t = Some tf → tf_closed tf = false → tf_hidden tf = false →
  objs w !! tf_fileobj tf = Some o → fo_closed o = false → fo_writable o = true →
  fs w !! fo_path o = Some (File mode c) →
  addfile t ti w
  = (Return tt,
     set_objs (set_pos (tf_fileobj tf) AtEnd)
       (set_fs (insert (fo_path o) (File mode (Tar (tf_members tf ++ [ti]) false)))
          (set_tars (λ l, <[t := {| tf_fileobj := tf_fileobj tf;
                                    tf_extfileobj := tf_extfileobj tf;
                                    tf_members := tf_members tf ++ [ti];
                                    tf_damaged := tf_damaged tf;
                                    tf_closed := false;
                                    tf_name := tf_name tf;
                                    tf_hidden := tf_hidden tf |}]> l) w))).
Proof.
  intros Ht Hc Hh Ho Hoc Hw Hp. unfold addfile, get_tarfile. monad_norm.
  rewrite bind_run, Ht, Hc, bind_run. simpl.
  unfold flush, written. simpl. by rewrite Ho, Hoc, Hw, Hp, Hh.
Qed.

Lemma add_tree_unfold order depth t name arcname filter :
  add_tree order depth t name arcname filter =
  bind (gettarinfo name arcname) (λ ti,
    let ti := filter ti in
    bind (addfile t ti) (λ _,
      if ti_isdir ti then
        match depth with
        | O => ret tt
        | S depth' =>
            bind get (λ w,
              for_each (order (os_listdir (fs w) name))
                (λ f, add_tree order depth' t (Path.join name f)
                        (Path.join arcname f) filter))
        end
      else ret tt)).
Proof. by destruct depth. Qed.

(** Removing a staging directory gives back the file system [target] that
    agrees with the present one outside the directory and has nothing in
    it. *)
Lemma rmtree_run d w (target : gmap string Node) :
  os_path_isdir (fs w) d = true →
  (∀ k, within d k = false → fs w !! k = target !! k) →
  (∀ k, within d k = true → target !! k = None) →
  shutil_rmtree d w = (Return tt, set_fs (λ _, target) w).
Proof.
  intros Hd Hout Hin. unfold shutil_rmtree. rewrite Hd. f_equal.
  destruct w as [m os ts i u cw]. unfold set_fs. simpl in *. f_equal.
  apply map_eq. intros k. rewrite map_lookup_filter.
  destruct (within d k) eqn:Hk.
  - rewrite (Hin k Hk). destruct (m !! k); simpl; [| done].
    case_guard as Hg; [| done]. exfalso. revert Hg. by rewrite Hk.
  - rewrite <- (Hout k Hk). destruct (m !! k); simpl; [| done].
    case_guard as Hg; [done |]. exfalso. apply Hg. by rewrite Hk.
Qed.

(** ** Listing a directory *)

Lemma NoDup_omap_inj {A B} (f : A → option B) (l : list A) :
  NoDup l →
  (∀ x y z, x ∈ l → y ∈ l → f x = Some z → f y = Some z → x = y) →
  NoDup (omap f l).
Proof.
  induction 1 as [|x l Hx Hl IH]; intros Hinj; simpl; [constructor |].
  destruct (f x) as [z|] eqn:Hz.
  - constructor.
    + intros (y & Hy & Hfy)%list_elem_of_omap.
      apply Hx. rewrite (Hinj x y z); [done | by left | by right | done..].
    + apply IH. intros a b c Ha Hb. apply Hinj; by right.
  - apply IH. intros a b c Ha Hb. apply Hinj; by right.
Qed.

Lemma elem_of_os_listdir (m : gmap string Node) d f :
  f ∈ os_listdir m d ↔ ∃ k v, m !! k = Some v ∧ child_name d k = Some f.
Proof.
  unfold os_listdir. rewrite list_elem_of_omap. split.
  - intros ([k v] & Hkv%elem_of_map_to_list & Hf). eauto.
  - intros (k & v & Hkv & Hf). exists (k, v).
    split; [by apply elem_of_map_to_list | done].
Qed.

Lemma child_name_inv (d k f : string) :
  child_name d k = Some f → k = Path.join d "" +:+ f.
Proof.
  unfold child_name.
  destruct (Str.strip_prefix _ k) as [x|] eqn:Hx; [| done].
  destruct (_ && _); [| done]. intros [= <-]. by apply strip_prefix_inv.
Qed.

Lemma os_listdir_NoDup (m : gmap string Node) d : NoDup (os_listdir m d).
Proof.
  apply NoDup_omap_inj; [apply NoDup_map_to_list |].
  intros [k1 v1] [k2 v2] f H1%elem_of_map_to_list H2%elem_of_map_to_list.
  simpl. intros ->%child_name_inv ->%child_name_inv. congruence.
Qed.

(** A directory with two entries is listed in one of two orders, and
    visited in one of two orders. *)
Lemma listing_two (order : list string → list string) (m : gmap string Node) d a b :
  (∀ l, order l ≡ₚ l) → a ≠ b →
  (∀ f, (∃ k v, m !! k = Some v ∧ child_name d k = Some f) ↔ f = a ∨ f = b) →
  order (os_listdir m d) = [a; b] ∨ order (os_listdir m d) = [b; a].
Proof.
  intros Horder Hab Hf.
  apply Permutation_length_2_inv. rewrite Horder. symmetry.
  apply NoDup_Permutation; [apply os_listdir_NoDup | |].
  - apply NoDup_cons. split; [| apply NoDup_singleton].
    by intros ?%list_elem_of_singleton.
  - intros f. rewrite elem_of_os_listdir, Hf.
    rewrite !elem_of_cons, elem_of_nil. tauto.
Qed.

(** ** Adding one recording *)

Lemma addfile_run_w t ti tf o p mode c m os ts i u cw :
  ts !! t = Some tf → tf_closed tf = false → tf_hidden tf = false →
  os !! tf_fileobj tf = Some o → fo_closed o = false → fo_writable o = true →
  fo_path o = p → m !! p = Some (File mode c) →
  addfile t ti
    {| fs := m; objs := os; tars := ts; tmp_seed := i; umask := u; cwd := cw |}
  = (Return tt,
     {| fs := <[p := File mode (Tar (tf_members tf ++ [ti]) false)]> m;
        objs := set_pos (tf_fileobj tf) AtEnd os;
        tars := <[t := with_members tf (tf_members tf ++ [ti])]> ts;
        tmp_seed := i; umask := u; cwd := cw |}).
Proof.
  intros Ht Hc Hh Ho Hoc Hw <- Hp.
  by rewrite (addfile_run t ti tf o mode c).
Qed.

(** Adding a regular file adds one entry, with the file's bytes and the
    mode of the contract. *)
Lemma add_file_run order depth t name arcname tf o p mode c m0 c0 m os ts i u cw :
  m !! name = Some (File mode c) →
  ts !! t = Some tf → tf_closed tf = false → tf_hidden tf = false →
  os !! tf_fileobj tf = Some o → fo_closed o = false → fo_writable o = true →
  fo_path o = p → m !! p = Some (File m0 c0) →
  Str.startswith arcname "/" = false →
  add_tree order depth t name arcname chmod
    {| fs := m; objs := os; tars := ts; tmp_seed := i; umask := u; cwd := cw |}
  = (Return tt,
     {| fs := <[p :=
                  File m0 (Tar (tf_members tf
                                ++ [{| ti_name := arcname; ti_isdir := false;
                                       ti_mode := mode_644; ti_data := c |}])
                             false)]> m;
        objs := set_pos (tf_fileobj tf) AtEnd os;
        tars := <[t := with_members tf
                         (tf_members tf
                          ++ [{| ti_name := arcname; ti_isdir := false;
                                 ti_mode := mode_644; ti_data := c |}])]> ts;
        tmp_seed := i; umask := u; cwd := cw |}).
Proof.
  intros Hname Ht Hc Hh Ho Hoc Hw Hpath Hp Harc.
  rewrite add_tree_unfold, bind_run. unfold gettarinfo at 1. simpl fs.
  rewrite Hname. cbv zeta. rewrite (lstrip_id arcname Harc).
  unfold chmod at 1 2. simpl ti_isdir. cbv iota.
  rewrite bind_run.
  rewrite (addfile_run_w t _ tf o p m0 c0) by done.
  reflexivity.
Qed.

Ltac wsimpl :=
  unfold set_fs, set_tars, set_objs, set_tmp_seed, masked;
  cbn [fs objs tars tmp_seed umask cwd].

Lemma chmod_dir n mode c :
  chmod {| ti_name := n; ti_isdir := true; ti_mode := mode; ti_data := c |}
  = {| ti_name := n; ti_isdir := true; ti_mode := mode_755; ti_data := c |}.
Proof. reflexivity. Qed.

Lemma below_inj (d x y : string) : d +:+ "/" +:+ x = d +:+ "/" +:+ y → x = y.
Proof. intros H. apply (inj (String.app d)) in H. by simplify_eq. Qed.

Lemma app_slash_neq (d x : string) : d ≠ d +:+ "/" +:+ x.
Proof.
  intros H. assert (String.length d = String.length (d +:+ "/" +:+ x)) as Hl
    by congruence.
  rewrite !str_length_app in Hl. simpl in Hl. lia.
Qed.

Lemma parent_ok_below (m : gmap string Node) d f mode :
  plain d → Str.contains Path.sep f = false → m !! d = Some (Dir mode) →
  parent_ok m (d +:+ "/" +:+ f) = true.
Proof.
  intros Hd Hf Hm. unfold parent_ok. rewrite dirname_join by done.
  rewrite (isdir_lookup m d mode Hm). apply orb_true_r.
Qed.

Section AddRecording.

Variable ext : Collaborators.
Hypothesis order_perm : ∀ l, listing_order ext l ≡ₚ l.

Lemma add_recording_run m os ts i u cw t tf o p m0 c0 sf n df mode c :
  (∀ k, within (tmp_name i) k = true → m !! k = None) →
  os_path_isdir m "/tmp" = true →
  sf_name sf = Some n → n ≠ "" → Str.contains Path.sep n = false →
  sf_data_file sf = Some df → m !! df = Some (File mode c) →
  ts !! t = Some tf → tf_closed tf = false → tf_hidden tf = false →
  os !! tf_fileobj tf = Some o → fo_closed o = false → fo_writable o = true →
  fo_path o = p → m !! p = Some (File m0 c0) →
  ∃ new,
    (new = [dir_entry sf; data_entry sf c; meta_entry ext sf]
     ∨ new = [dir_entry sf; meta_entry ext sf; data_entry sf c])
    ∧ add_recording ext t sf
        {| fs := m; objs := os; tars := ts; tmp_seed := i; umask := u; cwd := cw |}
      = (Return tt,
         {| fs := <[p := File m0 (Tar (tf_members tf ++ new) false)]> m;
            objs := set_pos (tf_fileobj tf) AtEnd os;
            tars := <[t := with_members tf (tf_members tf ++ new)]> ts;
            tmp_seed := S i; umask := u; cwd := cw |}).
Proof.
  intros Hfresh Htmp Hname Hn Hns Hdfile Hdf Ht Hc Hh Ho Hoc Hw Hpath Hp.
  set (d := tmp_name i) in *.
  assert (plain d) as Hd by apply tmp_name_plain.
  set (a := n +:+ SIGMF_DATASET_EXT). set (b := n +:+ SIGMF_METADATA_EXT).
  assert (Str.contains Path.sep a = false) as Ha
    by (unfold a; by rewrite contains_app, Hns).
  assert (Str.contains Path.sep b = false) as Hb
    by (unfold b; by rewrite contains_app, Hns).
  assert (a ≠ "") as Ha0 by (unfold a; by destruct n).
  assert (b ≠ "") as Hb0 by (unfold b; by destruct n).
  assert (a ≠ b) as Hab by (unfold a, b; by intros ?%(inj _)).
  assert (plain n) as Hnp.
  { split; [done |]. destruct (Str.endswith n "/") eqn:He; [| done].
    apply endswith_sep_contains in He. congruence. }
  set (dp := d +:+ "/" +:+ a). set (mp := d +:+ "/" +:+ b).
  assert (m !! d = None) as Hmd by apply Hfresh, within_refl.
  assert (m !! dp = None) as Hmdp by by apply Hfresh, within_below.
  assert (m !! mp = None) as Hmmp by by apply Hfresh, within_below.
  assert (d ≠ dp ∧ d ≠ mp) as [Hddp Hdmp] by (split; apply app_slash_neq).
  assert (dp ≠ mp) as Hdpmp.
  { unfold dp, mp. by intros ?%below_inj. }
  assert (p ≠ d ∧ p ≠ dp ∧ p ≠ mp) as (Hpd & Hpdp & Hpmp)
    by (repeat split; congruence).
  assert (df ≠ d ∧ df ≠ dp ∧ df ≠ mp) as (Hfd & Hfdp & Hfmp)
    by (repeat split; congruence).
  assert (name_of sf = n) as Hnof by (unfold name_of; by rewrite Hname).
  (* mkdtemp *)
  unfold add_recording. monad_norm.
  rewrite bind_run, mkdtemp_run by done. rewrite Hname, Hdfile. cbv zeta.
  fold d a b.
  rewrite !(join_plain d) by (done || by apply startswith_no_slash).
  fold dp mp.
  set (dmode := Z.land mode_700 (Z.lnot u)).
  (* the metadata file *)
  rewrite bind_run, write_file_new; wsimpl.
  2: { by rewrite lookup_insert_ne. }
  2: { apply (parent_ok_below _ d b dmode); [done.. |]. apply lookup_insert_eq. }
  (* the dataset *)
  rewrite bind_run, (shutil_copy_new df dp mode c); wsimpl.
  2: { by rewrite !lookup_insert_ne. }
  2: { by rewrite !lookup_insert_ne. }
  2: { apply (parent_ok_below _ d a dmode); [done.. |].
       rewrite lookup_insert_ne by done. apply lookup_insert_eq. }
  set (fmode := Z.land mode_666 (Z.lnot u)).
  set (m3 := <[dp := File mode c]>
               (<[mp := File fmode (Raw (dump ext sf))]> (<[d := Dir dmode]> m))).
  (* the directory entry *)
  rewrite bind_run. unfold tarfile_add. monad_norm.
  rewrite bind_run. unfold get at 1. wsimpl.
  rewrite add_tree_unfold, bind_run. unfold gettarinfo at 1. wsimpl.
  assert (m3 !! d = Some (Dir dmode)) as Hm3d.
  { unfold m3. rewrite !lookup_insert_ne by done. apply lookup_insert_eq. }
  rewrite Hm3d. cbv zeta.
  rewrite (lstrip_id n) by by apply startswith_no_slash.
  rewrite !chmod_dir. cbn [ti_isdir].
  rewrite bind_run.
  assert (m3 !! p = Some (File m0 c0)) as Hm3p.
  { unfold m3. by rewrite !lookup_insert_ne. }
  rewrite (addfile_run_w t _ tf o p m0 c0) by done.
  rewrite bind_run. unfold get at 1. wsimpl.
  set (os1 := set_pos (tf_fileobj tf) AtEnd os).
  assert (set_pos (tf_fileobj tf) AtEnd os1 = os1) as Hos1
    by apply set_pos_set_pos.
  set (dirE := {| ti_name := n; ti_isdir := true; ti_mode := mode_755;
                  ti_data := Raw "" |}).
  set (m4 := <[p := File m0 (Tar (tf_members tf ++ [dirE]) false)]> m3).
  set (tf1 := with_members tf (tf_members tf ++ [dirE])).
  (* the two files, in the order of the listing *)
  assert (∀ f, (∃ k v, m4 !! k = Some v ∧ child_name d k = Some f)
               ↔ f = a ∨ f = b) as Hlist.
  { intros f. split.
    - intros (k & v & Hk & Hf).
      pose proof (child_name_within _ _ _ Hf) as Hin.
      apply child_name_inv in Hf. rewrite (join_plain_nil d Hd) in Hf.
      rewrite append_assoc in Hf.
      destruct (decide (k = dp)) as [Hkdp | Hkdp].
      { left. rewrite Hkdp in Hf. symmetry. by apply (below_inj d). }
      destruct (decide (k = mp)) as [Hkmp | Hkmp].
      { right. rewrite Hkmp in Hf. symmetry. by apply (below_inj d). }
      destruct (decide (k = d)) as [Hkd | Hkd].
      { exfalso. rewrite Hkd in Hf. by apply app_slash_neq in Hf. }
      exfalso. revert Hk. unfold m4, m3.
      destruct (decide (k = p)) as [-> | Hkp].
      { rewrite (Hfresh p Hin) in Hp. done. }
      rewrite !lookup_insert_ne by done. by rewrite (Hfresh k Hin).
    - intros [-> | ->].
      + exists dp, (File mode c). split; [| by apply child_name_below].
        unfold m4, m3. rewrite lookup_insert_ne by done. apply lookup_insert_eq.
      + exists mp, (File fmode (Raw (dump ext sf))).
        split; [| by apply child_name_below].
        unfold m4, m3. rewrite !lookup_insert_ne by done.
        apply lookup_insert_eq. }
  assert (m4 !! dp = Some (File mode c)) as Hm4dp.
  { unfold m4, m3. rewrite lookup_insert_ne by done. apply lookup_insert_eq. }
  assert (m4 !! mp = Some (File fmode (Raw (dump ext sf)))) as Hm4mp.
  { unfold m4, m3. rewrite !lookup_insert_ne by done. apply lookup_insert_eq. }
  assert (∀ X (m' : gmap string Node) x, <[p := X]> (<[p := x]> m') !! dp = m' !! dp
          ∧ <[p := X]> (<[p := x]> m') !! mp = m' !! mp) as Hpp.
  { intros. by rewrite !lookup_insert_ne. }
  assert (Str.startswith (n +:+ "/" +:+ a) "/" = false
          ∧ Str.startswith (n +:+ "/" +:+ b) "/" = false) as [Hsa Hsb].
  { destruct n as [|x n']; [done |]. simpl in Hns.
    apply orb_false_iff in Hns as [Hx _]. rewrite !str_app_cons. simpl.
    unfold Path.sep in Hx. by rewrite Hx. }
  assert (os1 !! tf_fileobj tf1 = Some (at_pos AtEnd o)) as Ho1
    by by apply set_pos_lookup.
  change (os_listdir _ d) with (os_listdir m4 d).
  destruct (listing_two (listing_order ext) m4 d a b order_perm Hab Hlist)
    as [-> | ->].
  - exists [dir_entry sf; data_entry sf c; meta_entry ext sf]. split; [by left |].
    rewrite !for_each_cons. rewrite !(join_plain d), !(join_plain n)
      by (done || by apply startswith_no_slash).
    fold dp mp.
    rewrite bind_run.
    rewrite (add_file_run _ _ t dp _ tf1 (at_pos AtEnd o) p mode c m0
               (Tar (tf_members tf ++ [dirE]) false));
      [| done | by apply list_lookup_insert_eq, lookup_lt_Some with tf
         | done | done | done | done | done | done | apply lookup_insert_eq
         | done].
    change (set_pos (tf_fileobj _) AtEnd os1)
      with (set_pos (tf_fileobj tf) AtEnd os1).
    rewrite Hos1. rewrite bind_run.
    set (dataE := {| ti_name := n +:+ "/" +:+ a; ti_isdir := false;
                     ti_mode := mode_644; ti_data := c |}).
    set (tf2 := with_members tf1 (tf_members tf1 ++ [dataE])).
    rewrite (add_file_run _ _ t mp _ tf2 (at_pos AtEnd o) p fmode (Raw (dump ext sf)) m0
               (Tar (tf_members tf1 ++ [dataE]) false));
      [| by rewrite lookup_insert_ne
         | by apply list_lookup_insert_eq; rewrite length_insert;
              apply lookup_lt_Some with tf
         | done | done | done | done | done | done | apply lookup_insert_eq
         | done].
    change (set_pos (tf_fileobj _) AtEnd os1)
      with (set_pos (tf_fileobj tf) AtEnd os1).
    rewrite Hos1. simpl for_each. rewrite ret_run. cbv beta iota.
    (* rmtree *)
    erewrite (rmtree_run d _
                (<[p := File m0 (Tar (tf_members tf
                      ++ [dir_entry sf; data_entry sf c; meta_entry ext sf]) false)]> m)).
    + wsimpl. do 2 f_equal. rewrite !list_insert_insert_eq. f_equal.
      unfold dir_entry, data_entry, meta_entry. rewrite Hnof.
      unfold tf2, tf1, dataE, dirE, with_members. simpl.
      rewrite <- !app_assoc. reflexivity.
    + wsimpl. apply (isdir_lookup _ d dmode).
      rewrite !lookup_insert_ne by done. apply Hm3d.
    + wsimpl. intros k Hk.
      assert (k ≠ d ∧ k ≠ dp ∧ k ≠ mp) as (? & ? & ?).
      { split; [| split]; intros Hkk; rewrite Hkk in Hk.
        - by rewrite within_refl in Hk.
        - unfold dp in Hk. by rewrite within_below in Hk.
        - unfold mp in Hk. by rewrite within_below in Hk. }
      destruct (decide (k = p)) as [-> | ?].
      { rewrite !lookup_insert_eq. do 3 f_equal.
        unfold dir_entry, data_entry, meta_entry. rewrite Hnof.
        unfold tf2, tf1, dataE, dirE, with_members. simpl.
        rewrite <- !app_assoc. reflexivity. }
      unfold m4, m3. by rewrite !lookup_insert_ne.
    + intros k Hk. rewrite lookup_insert_ne; [by apply Hfresh |].
      intros <-. rewrite (Hfresh p Hk) in Hp. done.
  - exists [dir_entry sf; meta_entry ext sf; data_entry sf c]. split; [by right |].
    rewrite !for_each_cons. rewrite !(join_plain d), !(join_plain n)
      by (done || by apply startswith_no_slash).
    fold dp mp.
    rewrite bind_run.
    rewrite (add_file_run _ _ t mp _ tf1 (at_pos AtEnd o) p fmode (Raw (dump ext sf)) m0
               (Tar (tf_members tf ++ [dirE]) false));
      [| done | by apply list_lookup_insert_eq, lookup_lt_Some with tf
         | done | done | done | done | done | done | apply lookup_insert_eq
         | done].
    change (set_pos (tf_fileobj _) AtEnd os1)
      with (set_pos (tf_fileobj tf) AtEnd os1).
    rewrite Hos1. rewrite bind_run.
    set (metaE := {| ti_name := n +:+ "/" +:+ b; ti_isdir := false;
                     ti_mode := mode_644; ti_data := Raw (dump ext sf) |}).
    set (tf2 := with_members tf1 (tf_members tf1 ++ [metaE])).
    rewrite (add_file_run _ _ t dp _ tf2 (at_pos AtEnd o) p mode c m0
               (Tar (tf_members tf1 ++ [metaE]) false));
      [| by rewrite lookup_insert_ne
         | by apply list_lookup_insert_eq; rewrite length_insert;
              apply lookup_lt_Some with tf
         | done | done | done | done | done | done | apply lookup_insert_eq
         | done].
    change (set_pos (tf_fileobj _) AtEnd os1)
      with (set_pos (tf_fileobj tf) AtEnd os1).
    rewrite Hos1. simpl for_each. rewrite ret_run. cbv beta iota.
    erewrite (rmtree_run d _
                (<[p := File m0 (Tar (tf_members tf
                      ++ [dir_entry sf; meta_entry ext sf; data_entry sf c]) false)]> m)).
    + wsimpl. do 2 f_equal. rewrite !list_insert_insert_eq. f_equal.
      unfold dir_entry, data_entry, meta_entry. rewrite Hnof.
      unfold tf2, tf1, metaE, dirE, with_members. simpl.
      rewrite <- !app_assoc. reflexivity.
    + wsimpl. apply (isdir_lookup _ d dmode).
      rewrite !lookup_insert_ne by done. apply Hm3d.
    + wsimpl. intros k Hk.
      assert (k ≠ d ∧ k ≠ dp ∧ k ≠ mp) as (? & ? & ?).
      { split; [| split]; intros Hkk; rewrite Hkk in Hk.
        - by rewrite within_refl in Hk.
        - unfold dp in Hk. by rewrite within_below in Hk.
        - unfold mp in Hk. by rewrite within_below in Hk. }
      destruct (decide (k = p)) as [-> | ?].
      { rewrite !lookup_insert_eq. do 3 f_equal.
        unfold dir_entry, data_entry, meta_entry. rewrite Hnof.
        unfold tf2, tf1, metaE, dirE, with_members. simpl.
        rewrite <- !app_assoc. reflexivity. }
      unfold m4, m3. by rewrite !lookup_insert_ne.
    + intros k Hk. rewrite lookup_insert_ne; [by apply Hfresh |].
      intros <-. rewrite (Hfresh p Hk) in Hp. done.
Qed.

End AddRecording.

(** ** Packing, step by step *)

Lemma with_members_same tf : tf_closed tf = false → with_members tf (tf_members tf) = tf.
Proof. destruct tf. simpl. by intros ->. Qed.

Lemma archive_name_truthy path : Str.truthy (archive_name path) = true.
Proof.
  unfold archive_name.
  destruct (Str.endswith path SIGMF_ARCHIVE_EXT) eqn:He; by destruct path.
Qed.

(** The name of a tar object made over a file opened at the path the
    container gets. *)
Lemma tar_name_archive w path :
  tar_name w (Some (archive_name path))
  = Some (Path.abspath (cwd w) (archive_name path)).
Proof. unfold tar_name. by rewrite archive_name_truthy. Qed.

Section Pack.

Variable ext : Collaborators.
Hypothesis order_perm : ∀ l, listing_order ext l ≡ₚ l.

(** The loop of [__init__] over recordings whose data files are on [morig]:
    each adds its three entries to the container at [p], and the file system
    is otherwise as before. *)
Lemma pack_loop (morig : gmap string Node) p o t u cw os R :
  ∀ ts tf i m0 c0,
  os_path_isdir morig "/tmp" = true → morig !! p = None →
  (∀ n k, (i ≤ n)%nat → within (tmp_name n) k = true → morig !! k = None ∧ k ≠ p) →
  Forall (λ sf, ∃ n df mode c,
            sf_name sf = Some n ∧ n ≠ "" ∧ Str.contains Path.sep n = false
            ∧ sf_data_file sf = Some df ∧ morig !! df = Some (File mode c)) R →
  ts !! t = Some tf → tf_closed tf = false → tf_hidden tf = false →
  os !! tf_fileobj tf = Some o → fo_closed o = false → fo_writable o = true →
  fo_path o = p →
  ∃ chunks c',
    Forall2 (chunk_of ext morig) R chunks
    ∧ for_each R (add_recording ext t)
        {| fs := <[p := File m0 c0]> morig; objs := os; tars := ts;
           tmp_seed := i; umask := u; cwd := cw |}
      = (Return tt,
         {| fs := <[p := File m0 c']> morig;
            objs := match R with
                    | [] => os
                    | _ => set_pos (tf_fileobj tf) AtEnd os
                    end;
            tars := <[t := with_members tf (tf_members tf ++ concat chunks)]> ts;
            tmp_seed := i + length R; umask := u; cwd := cw |}).
Proof.
  revert o os.
  induction R as [|sf R IH];
    intros o os ts tf i m0 c0 Htmp Hp Hfree HR Ht Hc Hh Ho Hoc Hw Hpath.
  - exists [], c0. split; [constructor |]. simpl.
    rewrite ret_run, app_nil_r, with_members_same, list_insert_id, Nat.add_0_r by done.
    reflexivity.
  - apply Forall_cons in HR as [(n & df & mode & c & Hn & Hn0 & Hns & Hdf & Hm) HR].
    assert (df ≠ p) as Hdfp by congruence.
    assert ("/tmp" ≠ p) as Htmpp.
    { intros <-. unfold os_path_isdir in Htmp. by rewrite Hp in Htmp. }
    destruct (add_recording_run ext order_perm (<[p := File m0 c0]> morig) os ts i u
                cw t tf o p m0 c0 sf n df mode c) as (new & Hnew & Hrun);
      [ | | done | done | done | done | | done | done | done | done | done
        | done | done | | ].
    { intros k Hk. destruct (Hfree i k (le_n _) Hk) as [Hk1 Hk2].
      by rewrite lookup_insert_ne. }
    { by rewrite isdir_insert_ne. }
    { by rewrite lookup_insert_ne. }
    { apply lookup_insert_eq. }
    rewrite insert_insert_eq in Hrun.
    set (tf' := with_members tf (tf_members tf ++ new)) in *.
    destruct (IH (at_pos AtEnd o) (set_pos (tf_fileobj tf) AtEnd os)
                (<[t := tf']> ts) tf' (S i) m0 (Tar (tf_members tf ++ new) false))
      as (chunks & c' & Hchunks & Hloop); try done.
    { intros n' k Hn' Hk. apply (Hfree n' k); [lia | done]. }
    { apply list_lookup_insert_eq. by eapply lookup_lt_Some. }
    { by apply set_pos_lookup. }
    exists (new :: chunks), c'. split.
    + constructor; [| done]. exists df, c. unfold read_file. rewrite Hm.
      by repeat split.
    + rewrite for_each_cons, bind_run, Hrun, Hloop.
      rewrite list_insert_insert_eq.
      assert (match R with
              | [] => set_pos (tf_fileobj tf) AtEnd os
              | _ => set_pos (tf_fileobj tf') AtEnd
                       (set_pos (tf_fileobj tf) AtEnd os)
              end = set_pos (tf_fileobj tf) AtEnd os) as ->.
      { destruct R; [done | apply set_pos_set_pos]. }
      do 2 f_equal; [| simpl; lia].
      f_equal. unfold tf', with_members. simpl. by rewrite <- app_assoc.
Qed.


Lemma roundtrippable_archivable (m : gmap string Node) sf :
  roundtrippable ext m sf → archivable ext sf = true.
Proof.
  intros ((n & Hn & Hn0 & _) & (df & c & Hdf & Hdf0 & _) & Hv & _).
  unfold archivable, falsy. rewrite Hn, Hdf, Hv.
  apply truthy_iff in Hn0, Hdf0. by rewrite Hn0, Hdf0.
Qed.

Lemma roundtrippable_source (m : gmap string Node) sf :
  roundtrippable ext m sf →
  ∃ n df mode c,
    sf_name sf = Some n ∧ n ≠ "" ∧ Str.contains Path.sep n = false
    ∧ sf_data_file sf = Some df ∧ m !! df = Some (File mode c).
Proof.
  intros ((n & Hn & Hn0 & Hns & _) & (df & c & Hdf & _ & Hc) & _).
  unfold read_file in Hc. destruct (m !! df) as [[mode c'|]|] eqn:Hm; [| done..].
  exists n, df, mode, c'. by repeat split.
Qed.


End Pack.

(** ** Unpacking, step by step *)









Section Unpack.

Variable ext : Collaborators.


Lemma with_recording_data d sf c dm (m : gmap string Node) :
  read_file (with_recording ext d sf c dm m) (extracted_data_path d sf) = Some c.
Proof.
  unfold with_recording, extracted_data_path, read_file. cbv zeta.
  by rewrite lookup_insert_eq.
Qed.


End Unpack.

Lemma for_each_app {A} (xs ys : list A) (body : A → M unit) w :
  for_each (xs ++ ys) body w = bind (for_each xs body) (λ _, for_each ys body) w.
Proof.
  revert w. induction xs as [|x xs IH]; intros w; [done |].
  rewrite <- app_comm_cons, !for_each_cons, !bind_run.
  destruct (body x w) as [[[]|e] w1]; [apply IH | done].
Qed.





Section UnpackAll.

Variable ext : Collaborators.
Variable morig : gmap string Node.



End UnpackAll.

Section ScanChunks.

Variable ext : Collaborators.
Variable morig : gmap string Node.







End ScanChunks.


Section ExtractRun.

Variable ext : Collaborators.
Variable morig : gmap string Node.


End ExtractRun.

(** ** The round trip *)



Section RoundTrip.

Variable ext : Collaborators.
Hypothesis order_perm : ∀ l, listing_order ext l ≡ₚ l.


End RoundTrip.

(** ** The claims on the small machine *)

Lemma startswith_app (p x : string) : Str.startswith (p +:+ x) p = true.
Proof.
  induction p as [|c p IH]; [by destruct x |].
  rewrite str_app_cons. simpl. by rewrite Ascii.eqb_refl.
Qed.

Lemma within_tmp_prefix n k :
  within (tmp_name n) k = true → Str.startswith k "/tmp/tmp" = true.
Proof.
  intros [-> | [x ->]]%within_inv; [| | apply tmp_name_plain]; unfold tmp_name.
  - apply startswith_app.
  - rewrite append_assoc. apply startswith_app.
Qed.

Lemma fs0_no_staging k : Str.startswith k "/tmp/tmp" = true → fs0 !! k = None.
Proof.
  intros Hk. destruct (fs0 !! k) as [node|] eqn:Hnode; [| done].
  apply elem_of_list_to_map_2 in Hnode.
  repeat (apply elem_of_cons in Hnode as [[= -> _] | Hnode]; [by vm_compute in Hk |]).
  by apply elem_of_nil in Hnode.
Qed.

Lemma staging_free_w0 (avoid : string) :
  Str.startswith avoid "/tmp/tmp" = false → staging_free w0 avoid.
Proof.
  intros Havoid. split; [reflexivity |].
  intros n k _ Hk%within_tmp_prefix. split; [by apply fs0_no_staging |].
  intros ->. congruence.
Qed.

Lemma toy_order_perm l : listing_order toy l ≡ₚ l.
Proof. apply merge_sort_Permutation. Qed.

Lemma roundtrippable_rec_a : roundtrippable toy fs0 rec_a.
Proof.
  split; [by exists "a" |].
  split; [by exists "/data/a.bin", (Raw "AAAA") | done].
Qed.



(** The archive object names its container by an absolute path: a pack
    into the relative path [x], in the working directory /home, opens
    [x.sigmf] and has the path [/home/x.sigmf]. *)
Example relative_destination_named_absolutely :
  let packed := SigMFArchive_init toy (One rec_a) (Some "x") None w0 in
  self_path <$> (match packed.1 with Return self => Some self | Raise _ => None end)
  = Some (Some "/home/x.sigmf")
  ∧ fo_path <$> objs packed.2 !! 0%nat = Some "x.sigmf".
Proof. cbv zeta. split; vm_compute; reflexivity. Qed.


(** C3 on three recordings of which the second does not validate. *)
Lemma preflight_first_failure_witness :
  SigMFArchive_init toy (Many [rec_a; rec_invalid; rec_b]) (Some "/out/x") None w0
  = (Raise SigMFValidationError, w0).
Proof.
  destruct (preflight_first_failure toy (Many [rec_a; rec_invalid; rec_b])
              (Some "/out/x") None w0 [rec_a] rec_invalid [rec_b])
    as (_ & _ & H).
  - reflexivity.
  - repeat constructor.
  - intros p [= <-]. vm_compute. discriminate.
  - apply H; reflexivity.
Defined.

(** C9 on a sink and the path [/out/x.zip]. *)
Lemma sink_path_still_checked_witness :
  SigMFArchive_init toy (One rec_a) (Some "/out/x.zip") (Some 0%nat) w0
  = (Raise SigMFFileError, w0).
Proof.
  apply (sink_path_still_checked toy (One rec_a) "/out/x.zip" 0%nat w0);
    vm_compute; discriminate.
Defined.

(** C6 on a container whose metadata entry is not JSON. *)
Lemma extract_malformed_metadata_witness :
  ∃ e w4,
    extract toy "/out/garbled.sigmf" (Some "/out") w_garbled = (Raise e, w4)
    ∧ e = ValueError
    ∧ tf_closed <$> tars w4 !! 0%nat = Some true.
Proof.
  eapply (extract_malformed_metadata toy "/out/garbled.sigmf" (Some "/out")
            w_garbled "/out" 0%nat garbled_members).
  - unfold unpacks_to_disk. eexists _, _.
    split; [vm_compute; reflexivity |].
    split; [vm_compute; reflexivity |].
    split; vm_compute; reflexivity.
  - repeat constructor; vm_compute; congruence.
  - do 2 apply Exists_cons_tl. apply Exists_cons_hd. split; reflexivity.
Defined.

(** C6, as stated, fails: the container holds a metadata entry whose bytes
    are no JSON text, but a directory named like a metadata file comes
    before it; [extractfile] gives [None] for the directory, and [extract]
    ends with the [AttributeError] of reading from it, before the
    malformed entry is looked at. *)
Lemma directory_named_like_metadata :
  dirmeta_members !! 2%nat
  = Some {| ti_name := "a/a.sigmf-meta"; ti_isdir := false; ti_mode := mode_644;
            ti_data := Raw "{oops" |}
  ∧ json_load toy "{oops" = None
  ∧ (extract toy "/out/dirmeta.sigmf" (Some "/out") w_dirmeta).1
    = Raise AttributeError.
Proof. repeat split; vm_compute; reflexivity. Qed.

(** * Further properties of the code *)

(** ** Passing the checks *)

Section ChecksPass.

Variable ext : Collaborators.

(** With a path that passes the extension rule and handles that are all
    archivable, [_check_input] returns, with the path resolved. *)
Lemma check_input_ok path fileobj R w :
  (∀ p, path = Some p → Str.contains "." p = true →
        Str.endswith p SIGMF_ARCHIVE_EXT = true) →
  Forall (λ sf, archivable ext sf = true) R →
  _check_input ext {| self_path := path; self_fileobj := fileobj;
                      self_sigmffiles := R |} w
  = (Return {| self_path := archive_name <$> path; self_fileobj := fileobj;
               self_sigmffiles := R |}, w).
Proof.
  intros Hpath HR. unfold _check_input, _ensure_path_has_correct_extension.
  monad_norm. cbn [self_path self_fileobj self_sigmffiles]. rewrite bind_run.
  destruct path as [p|]; cbn [fmap option_fmap option_map].
  - assert (Str.contains "." p && negb (Str.endswith p SIGMF_ARCHIVE_EXT) = false)
      as ->.
    { destruct (Str.contains "." p) eqn:Hdot; [| done].
      by rewrite (Hpath p eq_refl Hdot). }
    rewrite ret_run, bind_run. cbn [self_sigmffiles].
    by rewrite checks_loop_ok.
  - rewrite ret_run, bind_run. cbn [self_sigmffiles]. by rewrite checks_loop_ok.
Qed.

(** What [_check_input] returns, when it returns. *)
Lemma check_input_path self self1 w w1 :
  _check_input ext self w = (Return self1, w1) →
  self_path self1 = archive_name <$> self_path self.
Proof.
  unfold _check_input, _ensure_path_has_correct_extension. monad_norm.
  rewrite bind_run. destruct (self_path self) as [p|] eqn:Hp; simpl.
  - destruct (_ && _); [done |]. rewrite ret_run, bind_run.
    destruct (for_each _ _ w) as [[[]|e] w']; [| done]. by intros [= <- _].
  - rewrite bind_run.
    destruct (for_each _ _ w) as [[[]|e] w']; [| done].
    rewrite ret_run. intros [= <- _]. by rewrite Hp.
Qed.

End ChecksPass.

Lemma archive_name_ends (p : string) :
  Str.endswith (archive_name p) SIGMF_ARCHIVE_EXT = true.
Proof.
  unfold archive_name. destruct (Str.endswith p SIGMF_ARCHIVE_EXT) eqn:He; [done |].
  apply endswith_app.
Qed.

(** ** Destinations that are refused *)

Section Refused.

Variable ext : Collaborators.

(** The extension rule as the code has it: a path that holds a dot
    anywhere and does not end in [.sigmf] is refused, before any handle is
    looked at and whatever the sink; nothing is changed. *)
Theorem dotted_path_is_refused sigmffiles (p : string) fileobj w :
  Str.contains "." p = true → Str.endswith p SIGMF_ARCHIVE_EXT = false →
  SigMFArchive_init ext sigmffiles (Some p) fileobj w = (Raise SigMFFileError, w).
Proof.
  intros Hdot Hext. unfold SigMFArchive_init. monad_norm.
  apply bind_raise. unfold _check_input. monad_norm. apply bind_raise.
  unfold _ensure_path_has_correct_extension. cbn [self_path].
  by rewrite Hdot, Hext.
Qed.

(** A sink that is closed, or not open for writing, is refused with
    [SigMFFileError] once the checks have passed: whatever [write] raised
    is replaced, and nothing is changed. *)
Theorem unwritable_sink_is_refused sigmffiles path (fo : nat) o w :
  (∀ p, path = Some p → Str.contains "." p = true →
        Str.endswith p SIGMF_ARCHIVE_EXT = true) →
  Forall (λ sf, archivable ext sf = true) (as_iterable sigmffiles) →
  objs w !! fo = Some o →
  fo_closed o = true ∨ fo_writable o = false →
  SigMFArchive_init ext sigmffiles path (Some fo) w = (Raise SigMFFileError, w).
Proof.
  intros Hpath HR Ho Hbad. unfold SigMFArchive_init. monad_norm. cbv zeta.
  rewrite bind_run, (check_input_ok ext path (Some fo) _ w Hpath HR).
  apply bind_raise.
  unfold _get_output_fileobj, try_except, _get_open_fileobj. monad_norm.
  cbn [self_fileobj]. rewrite bind_run. unfold write_nothing. rewrite Ho.
  destruct (fo_closed o); [done |].
  destruct Hbad as [? | ->]; done.
Qed.

(** Without a sink, a destination that cannot be opened (no path at all,
    a directory under the resolved name, or no directory to put it in) is
    refused with [SigMFFileError] once the checks have passed; nothing is
    changed. *)
Theorem unopenable_path_is_refused sigmffiles path w :
  (∀ p, path = Some p → Str.contains "." p = true →
        Str.endswith p SIGMF_ARCHIVE_EXT = true) →
  Forall (λ sf, archivable ext sf = true) (as_iterable sigmffiles) →
  (∀ p, path = Some p → ¬ openable (fs w) (archive_name p)) →
  SigMFArchive_init ext sigmffiles path None w = (Raise SigMFFileError, w).
Proof.
  intros Hpath HR Hbad. unfold SigMFArchive_init. monad_norm. cbv zeta.
  rewrite bind_run, (check_input_ok ext path None _ w Hpath HR).
  apply bind_raise.
  unfold _get_output_fileobj, try_except, _get_open_fileobj. monad_norm.
  cbn [self_fileobj self_path].
  destruct path as [p|]; cbn [fmap option_fmap option_map]; [| done].
  specialize (Hbad p eq_refl). unfold openable in Hbad.
  unfold open_wb. monad_norm. rewrite bind_run. unfold write_file.
  destruct (fs w !! archive_name p) as [[mode c|mode]|]; [done | done |].
  destruct (parent_ok (fs w) (archive_name p)); done.
Qed.

End Refused.

(** ** The file objects of a pack *)

(** The file objects are those of [O] but for the position of [fo], and the
    tar object [t] was handed [fo]. *)
Lemma handed_keeps {A} (O : list FileObj) t fo (m : M A) :
  keeps objs m → keeps tars m →
  preserves (λ w, moved_only fo O w ∧ handed t fo w) m.
Proof.
  intros Ho Ht w [Hobjs Hext]. unfold moved_only, handed in *.
  by rewrite Ho, Ht.
Qed.

Lemma moved_only_set_pos fo O q w w' :
  objs w' = objs w ∨ objs w' = set_pos fo q (objs w) →
  moved_only fo O w → moved_only fo O w'.
Proof.
  intros [Hsame | Hmoved] [p Hp]; unfold moved_only.
  - exists p. by rewrite Hsame.
  - exists q. by rewrite Hmoved, Hp, set_pos_set_pos.
Qed.

Lemma addfile_handed (O : list FileObj) t fo ti :
  preserves (λ w, moved_only fo O w ∧ handed t fo w) (addfile t ti).
Proof.
  intros w [Hobjs (tf & Ht & Hext & Hfo)].
  unfold addfile, get_tarfile. monad_norm. rewrite bind_run, Ht.
  destruct (tf_closed tf); [by split; [| exists tf] |].
  rewrite bind_run. unfold modify. cbv beta iota.
  set (tf' := {| tf_fileobj := tf_fileobj tf; tf_extfileobj := tf_extfileobj tf;
                 tf_members := tf_members tf ++ [ti];
                 tf_damaged := tf_damaged tf; tf_closed := false;
                 tf_name := tf_name tf; tf_hidden := tf_hidden tf |}).
  split.
  - eapply (moved_only_set_pos fo O AtEnd (set_tars (λ l, <[t:=tf']> l) w));
      [| done].
    pose proof (flush_objs tf' (set_tars (λ l, <[t:=tf']> l) w)) as Hflush.
    by rewrite <- Hfo.
  - unfold handed. rewrite flush_keeps_tars.
    exists tf'. split; [| done]. cbn [tars set_tars].
    apply list_lookup_insert_eq. by eapply lookup_lt_Some.
Qed.

(** Closing an open tar object that was handed its file object writes
    through the file object and leaves it open, behind what was written. *)
Lemma close_open_objs t fo old w :
  writing_ok t fo old w → handed t fo w →
  match tarfile_close t true w with
  | (Return _, w') => objs w' = set_pos fo AtEnd (objs w)
  | (Raise _, w') => w' = w
  end.
Proof.
  intros (_ & tf & Ht & <- & Hc & _) (tf' & Ht' & Hext & _).
  rewrite Ht in Ht'. injection Ht' as <-.
  unfold tarfile_close. monad_norm.
  rewrite bind_run. unfold get at 1. rewrite Ht, Hc.
  rewrite bind_run. unfold flush.
  destruct (objs w !! tf_fileobj tf) as [o|]; [| done].
  destruct (fo_closed o || negb (fo_writable o)); [done |].
  destruct (fs w !! fo_path o) as [[mode c|mode]|];
    rewrite bind_run; unfold modify at 1; by rewrite Hext, ret_run.
Qed.

(** Making the tar object hands it the file object, and opens or closes
    none. *)
Lemma creation_handed (fileobj : option nat) fo w :
  match try_except
          (TarFile_new (match fileobj with Some _ => mode_a | None => mode_w end) fo)
          (Some ReadError) (TarFile_new mode_w fo) w with
  | (Return t, w') =>
      handed t fo w' ∧ moved_only fo (objs w) w'
      ∧ ∃ o h, objs w !! fo = Some o
               ∧ tar_static t (tar_name w (fo_name o)) h w'
  | (Raise _, w') => w' = w
  end.
Proof.
  assert (∀ tf w1, tf_extfileobj tf = true → tf_fileobj tf = fo →
                   handed (length (tars w1)) fo (set_tars (λ l, l ++ [tf]) w1))
    as Hnew.
  { intros tf w1 ? ?. exists tf. cbn [tars set_tars].
    by rewrite lookup_app_r, Nat.sub_diag. }
  assert (∀ o, objs w !! fo = Some o → fo_closed o = false →
               match TarFile_w fo (set_objs (set_pos fo AtEnd) w) with
               | (Return t, w') =>
                   handed t fo w' ∧ moved_only fo (objs w) w'
                   ∧ ∃ o h, objs w !! fo = Some o
                            ∧ tar_static t (tar_name w (fo_name o)) h w'
               | (Raise _, w') => w' = w
               end) as Hretry.
  { intros o Ho Hc.
    rewrite (TarFile_w_run fo (at_pos AtEnd o) (set_objs (set_pos fo AtEnd) w));
      [| simpl; by apply set_pos_lookup | done].
    split; [by apply Hnew |]. split; [by exists AtEnd |].
    exists o. eexists. split; [done |]. eexists. cbn [tars set_tars set_objs].
    rewrite lookup_app_r, Nat.sub_diag by done. done. }
  unfold try_except. destruct fileobj as [i|]; simpl.
  - unfold TarFile_a. monad_norm. rewrite bind_run. simpl.
    destruct (objs w !! fo) as [o|] eqn:Ho; [| done].
    destruct (fo_closed o) eqn:Hc; [done |].
    destruct (fo_readable o); simpl; [| done].
    specialize (Hretry o eq_refl Hc).
    destruct (fo_pos o) eqn:Hpos;
      destruct (read_file (fs w) (fo_path o)) as [[bytes|ms [|]]|] eqn:Hr;
      try (rewrite bind_run; simpl; exact Hretry).
    rewrite bind_run. simpl.
    split; [by apply (Hnew _ (set_objs _ w)) |]. split; [by eexists |].
    exists o. eexists. split; [done |]. eexists. cbn [tars set_tars set_objs].
    rewrite lookup_app_r, Nat.sub_diag by done. done.
  - unfold TarFile_w. monad_norm. rewrite bind_run. simpl.
    destruct (objs w !! fo) as [o|] eqn:Ho; [| done].
    destruct (fo_closed o) eqn:Hc; [done |]. simpl.
    split; [by apply Hnew |].
    split; [exists (fo_pos o); by rewrite set_pos_same |].
    exists o. eexists. split; [done |]. eexists. cbn [tars set_tars set_objs].
    rewrite lookup_app_r, Nat.sub_diag by done. done.
Qed.

Section FileObjects.

Variable ext : Collaborators.

Lemma add_recording_handed (O : list FileObj) t fo sf :
  preserves (λ w, moved_only fo O w ∧ handed t fo w) (add_recording ext t sf).
Proof.
  unfold add_recording. monad_norm.
  apply preserves_bind;
    [apply handed_keeps; [apply mkdtemp_keeps_objs | apply mkdtemp_keeps_tars] |].
  intros tmpdir.
  destruct (sf_name sf) as [name|]; [| by intros w].
  destruct (sf_data_file sf) as [data_file|]; [| by intros w].
  apply preserves_bind;
    [apply handed_keeps; [apply write_file_keeps_objs | apply write_file_keeps_tars] |].
  intros _.
  apply preserves_bind;
    [apply handed_keeps; [apply shutil_copy_keeps_objs | apply shutil_copy_keeps_tars] |].
  intros _.
  apply preserves_bind.
  - apply tarfile_add_preserves. intros ti. apply addfile_handed.
  - intros _. apply handed_keeps; [apply rmtree_keeps_objs | apply rmtree_keeps_tars].
Qed.

(** From the tar object on: which file objects there are at the end, and
    the path the archive object gets. *)
Lemma init_tail_objs t fo old name hidden sfs (fileobj : option nat)
    (self : SigMFArchive) w :
  writing_ok t fo old w → handed t fo w → tar_static t name hidden w →
  match bind (for_each sfs (add_recording ext t))
          (λ _, bind (tarfile_close t true)
          (λ _, bind (match fileobj with
                      | None => close_fileobj fo
                      | Some _ => seek0 fo
                      end)
          (λ _, bind (tarfile_name t)
          (λ name, ret {| self_path := name;
                          self_fileobj := self_fileobj self;
                          self_sigmffiles := self_sigmffiles self |})))) w with
  | (Return self', w') =>
      self_path self' = name
      ∧ objs w' = match fileobj with
                  | None => match objs w !! fo with
                            | Some o =>
                                <[fo := closed_fileobj (at_pos AtEnd o)]> (objs w)
                            | None => objs w
                            end
                  | Some _ => set_pos fo AtStart (objs w)
                  end
  | (Raise _, w') => moved_only fo (objs w) w'
  end.
Proof.
  intros Hwr Hext Hst. rewrite bind_run.
  pose proof (preserves_for_each (writing_ok t fo old) sfs (add_recording ext t)
                (add_recording_writing_ok ext t fo old) w Hwr) as Hwr1.
  assert (moved_only fo (objs w) w) as Hmv.
  { destruct (objs w !! fo) as [o|] eqn:Ho.
    - exists (fo_pos o). by rewrite set_pos_same.
    - exists AtStart. unfold set_pos. by rewrite Ho. }
  pose proof (preserves_for_each (λ w', moved_only fo (objs w) w' ∧ handed t fo w')
                sfs (add_recording ext t) (add_recording_handed (objs w) t fo) w
                (conj Hmv Hext)) as Hloop.
  pose proof (preserves_for_each (tar_static t name hidden) sfs
                (add_recording ext t)
                (add_recording_tar_static ext t name hidden) w Hst) as Hst1.
  destruct (for_each sfs (add_recording ext t) w) as [[[]|e] w1];
    cbn [snd] in Hloop, Hst1, Hwr1; destruct Hloop as [Hobjs1 Hext1]; [| done].
  rewrite bind_run. pose proof (close_open_objs t fo old w1 Hwr1 Hext1) as Hclose.
  assert (tar_static t name hidden (tarfile_close t true w1).2) as Hst2.
  { destruct Hst1 as (tf & Ht & Hn & Hh).
    unfold tarfile_close. monad_norm. rewrite bind_run. unfold get at 1.
    rewrite Ht. destruct (tf_closed tf); [by exists tf |].
    rewrite bind_run. pose proof (flush_keeps_tars tf w1) as Hft.
    destruct (flush tf w1) as [[[]|e] w2]; cbn [snd] in Hft.
    2: { exists tf. cbn [snd]. by rewrite Hft. }
    rewrite bind_run. unfold modify at 1. cbv beta iota.
    assert (tar_static t name hidden
              (set_tars (λ l, <[t := {| tf_fileobj := tf_fileobj tf;
                                        tf_extfileobj := tf_extfileobj tf;
                                        tf_members := tf_members tf;
                                        tf_damaged := tf_damaged tf;
                                        tf_closed := true;
                                        tf_name := tf_name tf;
                                        tf_hidden := tf_hidden tf |}]> l) w2))
      as Hnew.
    { eexists. cbn [tars set_tars]. rewrite Hft.
      rewrite list_lookup_insert_eq by by eapply lookup_lt_Some. done. }
    destruct (tf_extfileobj tf); [by rewrite ret_run |].
    by unfold close_fileobj, modify. }
  destruct (tarfile_close t true w1) as [[[]|e] w2]; cbn [snd] in Hst2;
    [| by subst w2].
  destruct Hobjs1 as [p1 Hp1].
  assert (objs w2 = set_pos fo AtEnd (objs w)) as Hobjs2
    by (by rewrite Hclose, Hp1, set_pos_set_pos).
  assert (moved_only fo (objs w) w2) as Hmv2 by by exists AtEnd.
  destruct Hst2 as (tf2 & Ht2 & Hn2 & _).
  rewrite bind_run. destruct fileobj as [i|].
  - pose proof (seek0_run fo w2) as Hseek.
    destruct (seek0 fo w2) as [[[]|e] w3]; [| by subst w3].
    destruct Hseek as (Ht3 & _ & _ & Ho3).
    rewrite bind_run. unfold tarfile_name. rewrite ret_run.
    cbn [self_path]. rewrite Ht3, Ht2. split; [done |].
    by rewrite Ho3, Hobjs2, set_pos_set_pos.
  - unfold close_fileobj, modify. rewrite bind_run. unfold tarfile_name.
    rewrite ret_run. cbn [self_path objs tars set_objs]. rewrite Ht2.
    split; [done |]. rewrite Hobjs2.
    destruct (objs w !! fo) as [o|] eqn:Ho.
    + rewrite (set_pos_lookup _ _ _ _ Ho). unfold set_pos. rewrite Ho.
      by rewrite list_insert_insert_eq.
    + unfold set_pos. by rewrite Ho, Ho.
Qed.

(** With a sink, a pack opens and closes no file object, however it ends:
    the file objects are those there were, each as open as it was, and only
    the sink may stand elsewhere in its file.  When the pack returns, the
    sink has been rewound to the start of its file, and the path of the
    archive object is the absolute path of the name of the sink, whatever
    path was given, or [None] when the sink has no name. *)
Theorem sink_stays_open_and_names_path sigmffiles path (fo : nat) w :
  (∃ p, objs (SigMFArchive_init ext sigmffiles path (Some fo) w).2
        = set_pos fo p (objs w))
  ∧ match (SigMFArchive_init ext sigmffiles path (Some fo) w).1 with
    | Return self =>
        objs (SigMFArchive_init ext sigmffiles path (Some fo) w).2
        = set_pos fo AtStart (objs w)
        ∧ self_path self = objs w !! fo ≫= λ o, tar_name w (fo_name o)
    | Raise _ => True
    end.
Proof.
  assert (moved_only fo (objs w) w) as Hmv.
  { destruct (objs w !! fo) as [o|] eqn:Ho.
    - exists (fo_pos o). by rewrite set_pos_same.
    - exists AtStart. unfold set_pos. by rewrite Ho. }
  unfold SigMFArchive_init. monad_norm. rewrite bind_run.
  set (self := {| self_path := path; self_fileobj := Some fo;
                  self_sigmffiles := as_iterable sigmffiles |}).
  destruct (_check_input ext self w) as [[self1|e] w1] eqn:Hcheck.
  2: { pose proof (check_input_pure ext self w) as Hp. rewrite Hcheck in Hp.
       simpl in *. by subst w1. }
  apply check_input_returns in Hcheck as (-> & Hfo & Hsfs). simpl in Hfo.
  rewrite bind_run.
  pose proof (get_output_fileobj_spec self1 w) as Hout. rewrite Hfo in Hout.
  destruct (_get_output_fileobj self1 w) as [[fo'|e] w2].
  2: { destruct Hout as (_ & _ & _ & ->). done. }
  destruct Hout as (_ & _ & -> & ->).
  rewrite bind_run.
  pose proof (creation_handed (Some fo) fo w) as Hcreate.
  pose proof (creation_spec (Some fo) fo w) as Hspec.
  destruct (try_except _ _ _ w) as [[t|e] w3]; [| by subst w3].
  destruct Hcreate as (Hext & [p3 Hobjs] & o & h & Ho & Hst).
  destruct Hspec as (_ & Hwr & _); [by intros i [= ->] |].
  pose proof (init_tail_objs t fo _ _ _ (self_sigmffiles self1) (Some fo) self1 w3
                Hwr Hext Hst) as Htail.
  destruct (bind (for_each _ _) _ w3) as [[self'|e] w4]; cbn [fst snd].
  - destruct Htail as [Hpath Hobjs4].
    rewrite Hpath, Hobjs4, Hobjs, set_pos_set_pos, Ho.
    split; [by eexists | done].
  - destruct Htail as [p4 Hobjs4]. split; [| done].
    exists p4. by rewrite Hobjs4, Hobjs, set_pos_set_pos.
Qed.

(** Without a sink, a pack that returns was given a path.  The container
    was opened under that path when it ends in [.sigmf], and under that
    path with [.sigmf] appended otherwise, so under a name that always ends
    in [.sigmf]; the path of the archive object is the absolute path of
    that name; and the one file object the pack opened, on that name, is
    closed. *)
Theorem path_of_pack_ends_in_ext sigmffiles path w :
  match SigMFArchive_init ext sigmffiles path None w with
  | (Return self, w') =>
      ∃ p, path = Some p
           ∧ self_path self = Some (Path.abspath (cwd w) (archive_name p))
           ∧ Str.endswith (archive_name p) SIGMF_ARCHIVE_EXT = true
           ∧ objs w' = objs w ++ [{| fo_path := archive_name p;
                                     fo_readable := false; fo_writable := true;
                                     fo_closed := true;
                                     fo_name := Some (archive_name p);
                                     fo_pos := AtEnd |}]
  | (Raise _, _) => True
  end.
Proof.
  unfold SigMFArchive_init. monad_norm. rewrite bind_run.
  set (self := {| self_path := path; self_fileobj := None;
                  self_sigmffiles := as_iterable sigmffiles |}).
  destruct (_check_input ext self w) as [[self1|e] w1] eqn:Hcheck; [| done].
  pose proof (check_input_path ext _ _ _ _ Hcheck) as Hpath. cbn [self_path self] in Hpath.
  apply check_input_returns in Hcheck as (-> & Hfo & Hsfs). simpl in Hfo.
  rewrite bind_run.
  unfold _get_output_fileobj. unfold try_except at 1. unfold _get_open_fileobj.
  rewrite Hfo, Hpath.
  destruct path as [p|]; cbn [fmap option_fmap option_map]; [| done].
  unfold open_wb. monad_norm. rewrite bind_run.
  pose proof (write_file_keeps_objs (archive_name p) (Raw "") w) as Hwobjs.
  assert (cwd (write_file (archive_name p) (Raw "") w).2 = cwd w) as Hwcwd.
  { unfold write_file. by repeat case_match. }
  destruct (write_file (archive_name p) (Raw "") w) as [[[]|e] w2];
    cbn [snd] in Hwobjs, Hwcwd; [| done].
  rewrite new_fileobj_run. rewrite bind_run.
  set (f := {| fo_path := archive_name p; fo_readable := false;
               fo_writable := true; fo_closed := false;
               fo_name := Some (archive_name p); fo_pos := AtStart |}).
  set (w3 := set_objs (λ l, l ++ [f]) w2).
  assert (objs w3 !! length (objs w2) = Some f) as Hf.
  { unfold w3. cbn [objs set_objs]. by rewrite lookup_app_r, Nat.sub_diag. }
  pose proof (creation_handed None (length (objs w2)) w3) as Hcreate.
  pose proof (creation_spec None (length (objs w2)) w3) as Hspec.
  destruct (try_except _ _ _ w3) as [[t|e] w4]; [| done].
  destruct Hcreate as (Hext & [p4 Hobjs] & o & h & Ho & Hst).
  destruct Hspec as (_ & Hwr & _); [done |].
  rewrite Hf in Ho. injection Ho as <-.
  pose proof (init_tail_objs t (length (objs w2)) _ _ _ (self_sigmffiles self1)
                None
                {| self_path := None; self_fileobj := None;
                   self_sigmffiles := self_sigmffiles self1 |} w4 Hwr Hext Hst)
    as Htail.
  cbn [self_fileobj self_sigmffiles] in Htail.
  destruct (bind (for_each _ _) _ w4) as [[self'|e] w5]; [| done].
  destruct Htail as [Hp Hobjs5]. exists p. split; [done |].
  split.
  { rewrite Hp. cbn [fo_name f]. rewrite tar_name_archive.
    unfold w3. cbn [cwd set_objs]. by rewrite Hwcwd. }
  split; [apply archive_name_ends |].
  rewrite Hobjs5, Hobjs.
  rewrite (set_pos_lookup _ _ _ _ Hf).
  unfold set_pos. rewrite Hf, list_insert_insert_eq.
  unfold w3. cbn [objs set_objs]. rewrite Hwobjs.
  rewrite insert_app_r_alt, Nat.sub_diag by done. reflexivity.
Qed.

End FileObjects.

(** ** The container a pack leaves *)


Section Layout.

Variable ext : Collaborators.
Hypothesis order_perm : ∀ l, listing_order ext l ≡ₚ l.

Lemma staged_delete w p :
  staging_free w p →
  ∀ n k, (tmp_seed w ≤ n)%nat → within (tmp_name n) k = true →
         delete p (fs w) !! k = None ∧ k ≠ p.
Proof.
  intros [_ Hstage] n k Hn Hk. destruct (Hstage n k Hn Hk) as [Hnone Hne].
  by rewrite lookup_delete_ne.
Qed.

Lemma sources_delete (m : gmap string Node) p R :
  Forall (roundtrippable ext m) R →
  Forall (λ r, sf_data_file r ≠ Some p) R →
  Forall (λ sf, ∃ n df mode c,
            sf_name sf = Some n ∧ n ≠ "" ∧ Str.contains Path.sep n = false
            ∧ sf_data_file sf = Some df
            ∧ delete p m !! df = Some (File mode c)) R.
Proof.
  intros HR Hne. induction HR as [|r R Hr HR IH]; [constructor |].
  apply Forall_cons in Hne as [Hr' Hne]. constructor; [| by apply IH].
  destruct (roundtrippable_source ext m r Hr) as (n & df & mode & c & H).
  destruct H as (Hn & Hn0 & Hs & Hdf & Hm).
  exists n, df, mode, c. repeat split; try done.
  rewrite lookup_delete_ne; [done | congruence].
Qed.




End Layout.

(** ** Packing twice into one sink *)






Section TwoPacks.

Variable ext : Collaborators.
Hypothesis order_perm : ∀ l, listing_order ext l ≡ₚ l.




End TwoPacks.

(** ** What [extract] opens and closes *)

Lemma extract_member_keeps_objs ti path : keeps objs (extract_member ti path).
Proof.
  unfold extract_member, os_makedirs. monad_norm.
  apply keeps_bind; [apply keeps_get | intros w].
  apply keeps_bind.
  - destruct (_ && _); [| apply keeps_ret].
    apply keeps_for_each. intros. apply mkdir_if_absent_keeps_objs.
  - intros _. destruct (ti_isdir ti); [apply mkdir_if_absent_keeps_objs |].
    apply keeps_bind; [apply write_file_keeps_objs | by intros _ w'].
Qed.

Lemma extractall_keeps_objs t path : keeps objs (extractall t path).
Proof.
  unfold extractall, get_tarfile. monad_norm.
  apply keeps_bind; [fs_only | intros tf].
  destruct (tf_damaged tf); apply keeps_bind;
    try (apply keeps_for_each; intros; apply extract_member_keeps_objs);
    intros _; [apply keeps_raise | by intros w].
Qed.

(** What a successful [tarfile.open] has made: one file object, open for
    reading, and one tar object on it, which owns it. *)
Lemma tarfile_open_inv p t w w' :
  tarfile_open p w = (Return t, w') →
  t = length (tars w)
  ∧ ∃ tf f, tars w' = tars w ++ [tf] ∧ objs w' = objs w ++ [f]
            ∧ tf_fileobj tf = length (objs w) ∧ tf_extfileobj tf = false
            ∧ fs w' = fs w.
Proof.
  unfold tarfile_open. monad_norm. rewrite bind_run. unfold get at 1.
  destruct (fs w !! p) as [[mode [bytes|ms damaged]|mode]|]; [done | | done..].
  assert (∀ X : M nat,
            (bind (new_fileobj {| fo_path := p; fo_readable := true;
                                  fo_writable := false; fo_closed := false;
                                  fo_name := Some p; fo_pos := AtEnd |})
               (λ fo, new_tarfile {| tf_fileobj := fo; tf_extfileobj := false;
                                     tf_members := map read_back ms;
                                     tf_damaged := damaged;
                                     tf_closed := false;
                                     tf_name := tar_name w (Some p);
                                     tf_hidden := false |})) w = (Return t, w') →
            t = length (tars w)
            ∧ ∃ tf f, tars w' = tars w ++ [tf] ∧ objs w' = objs w ++ [f]
                      ∧ tf_fileobj tf = length (objs w) ∧ tf_extfileobj tf = false
                      ∧ fs w' = fs w) as Hopen.
  { intros _. rewrite bind_run, new_fileobj_run. unfold new_tarfile.
    intros [= <- <-]. split; [done |]. by eexists _, _. }
  destruct ms as [|m ms']; [destruct damaged; [done |] |]; by apply (Hopen (ret 0%nat)).
Qed.

Lemma tarfile_close_reader t tf f w :
  tars w !! t = Some tf → tf_closed tf = false → tf_extfileobj tf = false →
  objs w !! tf_fileobj tf = Some f →
  ∃ w', tarfile_close t false w = (Return tt, w')
        ∧ tf_closed <$> tars w' !! t = Some true
        ∧ fo_closed <$> objs w' !! tf_fileobj tf = Some true
        ∧ fs w' = fs w.
Proof.
  intros Ht Hopen Hext Hf. unfold tarfile_close. monad_norm.
  rewrite bind_run. unfold get at 1. rewrite Ht, Hopen.
  rewrite bind_run, ret_run, bind_run. unfold modify at 1. rewrite Hext.
  unfold close_fileobj, modify. eexists. split; [reflexivity |].
  cbn [tars objs fs set_tars set_objs]. rewrite Hf.
  rewrite !list_lookup_insert_eq by by eapply lookup_lt_Some. done.
Qed.

Section ExtractCloses.

Variable ext : Collaborators.

(** Once the container is open and its entries are listed, [extract]
    closes it however it ends: whether unpacking or reading the metadata
    raises or not, the tar object is closed when the call is over, and so
    is the file object that was opened for it. *)
Theorem extract_closes_after_listing archive_path dir w d w1 archive w2 members :
  dir_or_temp dir w = (Return d, w1) →
  tarfile_open archive_path w1 = (Return archive, w2) →
  getmembers archive w2 = (Return members, w2) →
  tf_closed <$> tars (extract ext archive_path dir w).2 !! archive = Some true
  ∧ fo_closed <$> objs (extract ext archive_path dir w).2 !! length (objs w1)
    = Some true.
Proof.
  intros Hdir Hopen Hlist. unfold extract. monad_norm.
  erewrite bind_return by exact Hdir.
  erewrite bind_return by exact Hopen.
  erewrite bind_return by exact Hlist.
  apply tarfile_open_inv in Hopen
    as (-> & tf & f & Htars & Hobjs & Hfo & Hext & _).
  apply getmembers_inv in Hlist as (_ & tf' & Ht & Hc & _ & _).
  assert (tf' = tf) as ->.
  { rewrite Htars, lookup_app_r, Nat.sub_diag in Ht by done. by injection Ht. }
  set (body := bind (extractall (length (tars w1)) d)
                 (λ _, lift (scan ext d members None JNull []))).
  assert (tars (body w2).2 = tars w2 ∧ objs (body w2).2 = objs w2) as [Hkt Hko].
  { split; apply keeps_bind;
      [apply extractall_keeps_tars | intros; apply keeps_lift
       | apply extractall_keeps_objs | intros; apply keeps_lift]. }
  unfold try_finally. destruct (body w2) as [r w3]. cbn [snd] in Hkt, Hko.
  destruct (tarfile_close_reader (length (tars w1)) tf f w3)
    as (w4 & Hclose & Hclosed & Hfclosed & _); try done.
  { by rewrite Hkt. }
  { by rewrite Hko, Hobjs, Hfo, lookup_app_r, Nat.sub_diag. }
  rewrite Hfo in Hfclosed.
  destruct r as [hs|e]; rewrite Hclose; done.
Qed.

(** Without a directory given, [extract] makes its temporary directory
    before it opens the container.  When there is nothing under the
    container's name, the call raises [OSError] and the new, empty
    directory stays behind; no tar object and no file object was made. *)
Theorem extract_missing_container_leaves_temp archive_path w :
  os_path_isdir (fs w) "/tmp" = true →
  fs w !! tmp_name (tmp_seed w) = None →
  fs w !! archive_path = None →
  extract ext archive_path None w
  = (Raise OSError,
     {| fs := <[tmp_name (tmp_seed w) := Dir (masked mode_700 w)]> (fs w);
        objs := objs w; tars := tars w; tmp_seed := S (tmp_seed w);
        umask := umask w; cwd := cwd w |}).
Proof.
  intros Htmp Hfresh Hmissing. destruct w as [m os ts i u cw]. cbn [fs tmp_seed] in *.
  unfold extract, dir_or_temp. monad_norm.
  rewrite bind_run, mkdtemp_run by done.
  rewrite bind_run. unfold tarfile_open. monad_norm. rewrite bind_run.
  unfold get at 1. cbn [fs].
  destruct (decide (archive_path = tmp_name i)) as [-> | Hne].
  - by rewrite lookup_insert_eq.
  - by rewrite lookup_insert_ne, Hmissing.
Qed.

End ExtractCloses.

(** ** How many handles [extract] returns *)

Section HandleCount.

Variable ext : Collaborators.

(** The loop appends a handle only when a dataset entry and a metadata
    entry are on hand, and uses both up. *)
Lemma scan_count dir ms :
  ∀ df md acc hs,
    scan ext dir ms df md acc = Return hs →
    (length hs ≤ length acc + (if df is Some _ then 1 else 0)
                 + length (dataset_entries ms))%nat
    ∧ (length hs ≤ length acc + (if is_None md then 0 else 1)
                   + length (metadata_entries ms))%nat.
Proof.
  induction ms as [|m ms IH]; intros df md acc hs.
  - simpl. intros [= <-]. split; lia.
  - unfold dataset_entries, metadata_entries in *. simpl.
    destruct (Str.endswith (ti_name m) SIGMF_DATASET_EXT); simpl.
    + destruct (is_None md) eqn:Hmd; simpl; intros H%IH;
        rewrite ?length_app in H; simpl in H; rewrite ?Hmd in H;
        destruct df; simpl in *; lia.
    + destruct (Str.endswith (ti_name m) SIGMF_METADATA_EXT); simpl.
      * destruct (load_metadata ext m) as [v|e]; [| done].
        destruct df as [p|]; [destruct (is_None v) eqn:Hv |]; simpl;
          intros H%IH; rewrite ?length_app in H; simpl in H; rewrite ?Hv in H;
          destruct (is_None md), (is_None v); simpl in *; lia.
      * destruct df as [p|]; [destruct (is_None md) eqn:Hmd |]; simpl;
          intros H%IH; rewrite ?length_app in H; simpl in H; rewrite ?Hmd in H;
          destruct (is_None md); simpl in *; lia.
Qed.

Lemma dir_or_temp_keeps_present dir w d w1 k node :
  dir_or_temp dir w = (Return d, w1) →
  fs w !! k = Some node → fs w1 !! k = Some node.
Proof.
  intros Hdir Hk.
  assert (tempfile_mkdtemp w = (Return d, w1) → fs w1 !! k = Some node) as Htemp.
  { unfold tempfile_mkdtemp, os_path_exists.
    destruct (fs w !! tmp_name (tmp_seed w)) eqn:Hd; [done |].
    destruct (os_path_isdir (fs w) "/tmp"); [| done].
    intros [= <- <-]. cbn [fs set_fs set_tmp_seed].
    rewrite lookup_insert_ne; [done | congruence]. }
  unfold dir_or_temp in Hdir. destruct dir as [d'|]; [| by apply Htemp].
  destruct (Str.truthy d'); [| by apply Htemp].
  by injection Hdir as <- <-.
Qed.

Lemma tarfile_open_members p mode ms damaged t w w' :
  fs w !! p = Some (File mode (Tar ms damaged)) →
  tarfile_open p w = (Return t, w') →
  t = length (tars w)
  ∧ ∃ tf, tars w' = tars w ++ [tf] ∧ tf_members tf = map read_back ms.
Proof.
  intros Hp. unfold tarfile_open. monad_norm. rewrite bind_run. unfold get at 1.
  rewrite Hp.
  destruct ms as [|m ms']; [destruct damaged; [done |] |];
    rewrite bind_run, new_fileobj_run; unfold new_tarfile;
    intros [= <- <-]; (split; [done |]); by eexists.
Qed.

(** [extract] returns at most as many handles as the container lists
    entries with the dataset suffix, and at most as many as it lists
    entries with the metadata suffix: a container without one of the two
    kinds gives no handle at all. *)
Theorem extract_handle_count archive_path dir w mode ms damaged :
  fs w !! archive_path = Some (File mode (Tar ms damaged)) →
  match (extract ext archive_path dir w).1 with
  | Return hs =>
      (length hs ≤ length (dataset_entries (map read_back ms)))%nat
      ∧ (length hs ≤ length (metadata_entries (map read_back ms)))%nat
  | Raise _ => True
  end.
Proof.
  intros Hfile. unfold extract. monad_norm. rewrite bind_run.
  destruct (dir_or_temp dir w) as [[d|e] w1] eqn:Hdir; [| done].
  pose proof (dir_or_temp_keeps_present _ _ _ _ _ _ Hdir Hfile) as Hfile1.
  rewrite bind_run.
  destruct (tarfile_open archive_path w1) as [[t|e] w2] eqn:Hopen; [| done].
  destruct (tarfile_open_members _ _ _ _ _ _ _ Hfile1 Hopen)
    as (-> & tf & Htars & Hms).
  rewrite bind_run.
  destruct (getmembers (length (tars w1)) w2) as [[members|e] w2'] eqn:Hlist;
    [| done].
  apply getmembers_inv in Hlist as (-> & tf' & Ht & _ & _ & Hmembers).
  rewrite Htars, lookup_app_r, Nat.sub_diag in Ht by done.
  injection Ht as <-. rewrite Hms in Hmembers. subst members.
  unfold try_finally. rewrite bind_run.
  destruct (extractall (length (tars w1)) d w2) as [[[]|e] w3].
  2: { by destruct (tarfile_close _ _ w3) as [[[]|e'] w4]. }
  unfold lift.
  destruct (scan ext d (map read_back ms) None JNull []) as [hs|e] eqn:Hscan.
  2: { by destruct (tarfile_close _ _ w3) as [[[]|e'] w4]. }
  destruct (tarfile_close _ _ w3) as [[[]|e'] w4]; [| done].
  apply scan_count in Hscan. simpl in Hscan. cbn [fst]. lia.
Qed.

End HandleCount.

(** ** A data file that is not there *)

Section MissingDataFile.

Variable ext : Collaborators.
Hypothesis order_perm : ∀ l, listing_order ext l ≡ₚ l.

(** The checks before the first write test that a data file is named, not
    that it is there.  A recording whose data file is missing passes them;
    the pack then fails in [shutil.copy] with [OSError], not with
    [SigMFFileError].  By then the destination has been opened (and holds
    the recordings before the failing one, if any), and the staging
    directory of the failing recording stays behind with its metadata
    file in it. *)
Theorem missing_data_file_is_not_preflighted sigmffiles (path : string) w
    pre sf post n df :
  (Str.contains "." path = true → Str.endswith path SIGMF_ARCHIVE_EXT = true) →
  openable (fs w) (archive_name path) →
  staging_free w (archive_name path) →
  as_iterable sigmffiles = pre ++ sf :: post →
  Forall (roundtrippable ext (fs w)) pre →
  Forall (λ r, sf_data_file r ≠ Some (archive_name path)) pre →
  Forall (λ x, archivable ext x = true) (sf :: post) →
  sf_name sf = Some n → n ≠ "" → Str.contains Path.sep n = false →
  sf_data_file sf = Some df → fs w !! df = None → df ≠ archive_name path →
  within (tmp_name (tmp_seed w + length pre)) df = false →
  ∃ w', SigMFArchive_init ext sigmffiles (Some path) None w = (Raise OSError, w')
        ∧ os_path_isdir (fs w') (tmp_name (tmp_seed w + length pre)) = true
        ∧ read_file (fs w')
            (tmp_name (tmp_seed w + length pre) +:+ "/" +:+ n +:+ SIGMF_METADATA_EXT)
          = Some (Raw (dump ext sf))
        ∧ ∃ c, read_file (fs w') (archive_name path) = Some c.
Proof.
  intros Hpath Hopen Hstage HR Hpre Hprene Hrest Hname Hn Hs Hdata Hmissing Hdfne
    Hdfout.
  set (dest := archive_name path) in *.
  pose proof (staged_delete w dest Hstage) as Hstage'.
  pose proof (sources_delete ext (fs w) dest pre Hpre Hprene) as Hpre'.
  destruct Hstage as [Htmp _].
  assert ("/tmp" ≠ dest) as Htmpne.
  { intros <-. unfold os_path_isdir in Htmp. unfold openable in Hopen.
    by destruct (fs w !! "/tmp") as [[]|]. }
  destruct w as [m os ts i u cw]. cbn [fs tmp_seed] in *.
  set (f := {| fo_path := dest; fo_readable := false; fo_writable := true;
               fo_closed := false; fo_name := Some dest; fo_pos := AtStart |}).
  set (tf0 := {| tf_fileobj := length os; tf_extfileobj := true; tf_members := [];
                 tf_damaged := false; tf_closed := false;
                 tf_name := Some (Path.abspath cw dest); tf_hidden := false |}).
  set (m0 := mode_after_open {| fs := m; objs := os; tars := ts; tmp_seed := i;
                                umask := u; cwd := cw |} dest).
  set (morig := delete dest m) in *.
  destruct (pack_loop ext order_perm morig dest f (length ts) u cw (os ++ [f]) pre
              (ts ++ [tf0]) tf0 i m0 (Raw ""))
    as (chunks & c' & _ & Hloop); try done.
  { unfold os_path_isdir, morig. by rewrite lookup_delete_ne. }
  { apply lookup_delete_eq. }
  { by rewrite lookup_app_r, Nat.sub_diag. }
  { simpl. by rewrite lookup_app_r, Nat.sub_diag. }
  set (d := tmp_name (i + length pre)) in *.
  assert (plain d) as Hd by apply tmp_name_plain.
  set (b := n +:+ SIGMF_METADATA_EXT). set (a := n +:+ SIGMF_DATASET_EXT).
  assert (Str.contains Path.sep b = false) as Hb
    by (unfold b; by rewrite contains_app, Hs).
  assert (Str.contains Path.sep a = false) as Ha
    by (unfold a; by rewrite contains_app, Hs).
  set (mp := d +:+ "/" +:+ b). set (dp := d +:+ "/" +:+ a).
  destruct (Hstage' (i + length pre)%nat d) as [Hmd Hdd];
    [lia | apply within_refl |].
  destruct (Hstage' (i + length pre)%nat mp) as [Hmmp Hmpd];
    [lia | by apply within_below |].
  destruct (Hstage' (i + length pre)%nat dp) as [Hmdp Hdpd];
    [lia | by apply within_below |].
  assert (d ≠ mp ∧ d ≠ dp) as [Hdmp Hddp] by (split; apply app_slash_neq).
  assert (df ≠ d ∧ df ≠ mp) as [Hdfd Hdfmp].
  { split; intros ->; [by rewrite within_refl in Hdfout |].
    unfold mp in Hdfout. by rewrite within_below in Hdfout. }
  assert (dp ≠ mp) as Hdpmp.
  { unfold dp, mp. intros H%below_inj. unfold a, b in H.
    by apply (inj (String.app n)) in H. }
  eexists. split.
  - unfold SigMFArchive_init. monad_norm. cbv zeta.
    rewrite bind_run, (check_input_ok ext (Some path) None _).
    2: { by intros p [= <-]. }
    2: { rewrite HR. apply Forall_app. split; [| done].
         eapply Forall_impl; [exact Hpre |]. apply roundtrippable_archivable. }
    cbn [fmap option_fmap option_map]. fold dest. rewrite bind_run.
    unfold _get_output_fileobj, _get_open_fileobj, open_wb. monad_norm.
    unfold try_except at 1. cbn [self_fileobj self_path]. rewrite bind_run.
    assert (write_file dest (Raw "")
              {| fs := m; objs := os; tars := ts; tmp_seed := i; umask := u; cwd := cw |}
            = (Return tt,
               {| fs := <[dest := File m0 (Raw "")]> morig; objs := os;
                  tars := ts; tmp_seed := i; umask := u; cwd := cw |})) as ->.
    { unfold write_file, m0, mode_after_open, openable, morig in *. cbn [fs] in *.
      rewrite insert_delete_eq.
      destruct (m !! dest) as [[mode c|mode]|]; [done | done |].
      by rewrite Hopen. }
    rewrite new_fileobj_run. wsimpl. fold f.
    rewrite bind_run. unfold try_except, TarFile_new.
    rewrite (TarFile_w_run (length os) f)
      by (done || (cbn [objs]; by rewrite lookup_app_r, Nat.sub_diag)).
    wsimpl. cbn [fo_name f behind fo_pos].
    assert (∀ w', cwd w' = cw →
                  tar_name w' (Some dest) = Some (Path.abspath cw dest))
      as Hname' by (intros w' <-; apply tar_name_archive).
    rewrite Hname' by done. fold tf0. cbn [self_sigmffiles]. rewrite HR.
    rewrite bind_run, for_each_app, bind_run, Hloop.
    rewrite for_each_cons, bind_run.
    unfold add_recording. monad_norm. rewrite bind_run, mkdtemp_run.
    2: { fold d. by rewrite lookup_insert_ne. }
    2: { unfold os_path_isdir, morig.
         rewrite lookup_insert_ne by done. by rewrite lookup_delete_ne. }
    fold d. rewrite Hname, Hdata. cbv zeta. fold a b.
    rewrite !(join_plain d) by (done || by apply startswith_no_slash).
    fold mp dp.
    rewrite bind_run, write_file_new; wsimpl.
    2: { by rewrite !lookup_insert_ne. }
    2: { apply (parent_ok_below _ d b (Z.land mode_700 (Z.lnot u))); [done.. |].
         apply lookup_insert_eq. }
    rewrite bind_run. unfold shutil_copy. cbn [fs].
    rewrite !(lookup_insert_ne _ _ df) by done.
    unfold morig. rewrite lookup_delete_ne by done. rewrite Hmissing.
    reflexivity.
  - cbn [fs]. split; [| split].
    + apply (isdir_lookup _ _ (Z.land mode_700 (Z.lnot u))).
      rewrite lookup_insert_ne by done. apply lookup_insert_eq.
    + unfold read_file. fold b mp. by rewrite lookup_insert_eq.
    + exists c'. unfold read_file.
      rewrite !lookup_insert_ne by done. by rewrite lookup_insert_eq.
Qed.

End MissingDataFile.

(** ** The suffix is optional; a sink must be readable *)

Section Suffix.

Variable ext : Collaborators.

(** A path without a dot and the same path with [.sigmf] appended are one
    destination: the two calls do the same, whatever the recordings, the
    sink and the world. *)
Theorem suffix_is_optional sigmffiles (p : string) fileobj w :
  Str.contains "." p = false →
  SigMFArchive_init ext sigmffiles (Some p) fileobj w
  = SigMFArchive_init ext sigmffiles (Some (p +:+ SIGMF_ARCHIVE_EXT)) fileobj w.
Proof.
  intros Hdot. unfold SigMFArchive_init. monad_norm. cbv zeta.
  rewrite !bind_run.
  assert (_check_input ext {| self_path := Some p; self_fileobj := fileobj;
                              self_sigmffiles := as_iterable sigmffiles |} w
          = _check_input ext {| self_path := Some (p +:+ SIGMF_ARCHIVE_EXT);
                                self_fileobj := fileobj;
                                self_sigmffiles := as_iterable sigmffiles |} w)
    as ->; [| done].
  unfold _check_input, _ensure_path_has_correct_extension. monad_norm.
  cbn [self_path self_fileobj self_sigmffiles]. rewrite !bind_run.
  by rewrite Hdot, (no_dot_no_archive_ext p Hdot), endswith_app, andb_false_r.
Qed.

(** The tar object is made in append mode on a sink, which reads the sink
    first.  A sink that is open for writing only passes the writability
    test, and the pack then fails with the [OSError] of the read, which
    the handler for [ReadError] does not catch; nothing is changed. *)
Theorem write_only_sink_raises_oserror sigmffiles path (fo : nat) o w :
  (∀ p, path = Some p → Str.contains "." p = true →
        Str.endswith p SIGMF_ARCHIVE_EXT = true) →
  Forall (λ sf, archivable ext sf = true) (as_iterable sigmffiles) →
  objs w !! fo = Some o →
  fo_closed o = false → fo_writable o = true → fo_readable o = false →
  SigMFArchive_init ext sigmffiles path (Some fo) w = (Raise OSError, w).
Proof.
  intros Hpath HR Ho Hoc How Hor. unfold SigMFArchive_init. monad_norm. cbv zeta.
  rewrite bind_run, (check_input_ok ext path (Some fo) _ w Hpath HR).
  rewrite bind_run.
  unfold _get_output_fileobj, _get_open_fileobj. monad_norm.
  unfold try_except at 1. cbn [self_fileobj]. rewrite bind_run.
  unfold write_nothing. rewrite Ho, Hoc, How, ret_run.
  apply bind_raise.
  unfold try_except, TarFile_new, TarFile_a. monad_norm. rewrite bind_run.
  unfold get at 1. by rewrite Ho, Hoc, Hor.
Qed.

End Suffix.

(** ** The further properties on the small machine *)



Lemma dotted_path_is_refused_witness :
  SigMFArchive_init toy (One rec_a) (Some "/data.d/x") None w0
  = (Raise SigMFFileError, w0).
Proof.
  apply (dotted_path_is_refused toy (One rec_a) "/data.d/x" None w0);
    vm_compute; reflexivity.
Defined.

Lemma unwritable_sink_is_refused_witness :
  SigMFArchive_init toy (One rec_a) None (Some 0%nat) w_readonly_sink
  = (Raise SigMFFileError, w_readonly_sink).
Proof.
  apply (unwritable_sink_is_refused toy (One rec_a) None 0%nat
           (sink_on "/out/new.sigmf" false) w_readonly_sink).
  - intros p. discriminate.
  - repeat constructor.
  - reflexivity.
  - right. reflexivity.
Defined.

Lemma unopenable_path_is_refused_witness :
  SigMFArchive_init toy (One rec_a) (Some "/nowhere/x") None w0
  = (Raise SigMFFileError, w0).
Proof.
  apply (unopenable_path_is_refused toy (One rec_a) (Some "/nowhere/x") w0).
  - intros p [= <-]. vm_compute. discriminate.
  - repeat constructor.
  - intros p [= <-] H. vm_compute in H. discriminate.
Defined.




(** A sink handed in at the end of a sound container: appending finds an
    empty header there and raises [ReadError], the second tar object writes
    the recording behind the old end marker, and a reader from the start
    of the file still finds the old entries only. *)
Example sink_at_end_hides_new_entries :
  let packed := SigMFArchive_init toy (One rec_b) None (Some 0%nat) w_sink_at_end in
  packed.1 = Return {| self_path := Some "/out/sink.sigmf";
                       self_fileobj := Some 0%nat; self_sigmffiles := [rec_b] |}
  ∧ length <$> (tf_members <$> tars packed.2 !! 0%nat) = Some 3%nat
  ∧ read_file (fs packed.2) "/out/sink.sigmf" = Some (Tar good_members false)
  ∧ fo_pos <$> objs packed.2 !! 0%nat = Some AtStart.
Proof. cbv zeta. repeat split; vm_compute; reflexivity. Qed.

Lemma extract_closes_after_listing_witness :
  tf_closed <$> tars (extract toy "/out/garbled.sigmf" None w_garbled).2 !! 0%nat
  = Some true
  ∧ fo_closed <$> objs (extract toy "/out/garbled.sigmf" None w_garbled).2 !! 0%nat
    = Some true.
Proof.
  refine (extract_closes_after_listing toy "/out/garbled.sigmf" None w_garbled
            "/tmp/tmp" (dir_or_temp None w_garbled).2 0%nat
            (tarfile_open "/out/garbled.sigmf" (dir_or_temp None w_garbled).2).2
            garbled_members _ _ _);
    vm_compute; reflexivity.
Defined.

Lemma extract_missing_container_leaves_temp_witness :
  extract toy "/out/none.sigmf" None w0
  = (Raise OSError,
     {| fs := <["/tmp/tmp" := Dir (masked mode_700 w0)]> fs0;
        objs := []; tars := []; tmp_seed := 1; umask := umask w0;
        cwd := cwd w0 |}).
Proof.
  apply (extract_missing_container_leaves_temp toy "/out/none.sigmf" w0);
    vm_compute; reflexivity.
Defined.

Lemma extract_handle_count_witness :
  match (extract toy "/out/sink.sigmf" None w_sink).1 with
  | Return hs =>
      (length hs ≤ length (dataset_entries (map read_back good_members)))%nat
      ∧ (length hs ≤ length (metadata_entries (map read_back good_members)))%nat
  | Raise _ => True
  end.
Proof.
  apply (extract_handle_count toy "/out/sink.sigmf" None w_sink mode_644
           good_members false).
  vm_compute. reflexivity.
Defined.

Lemma missing_data_file_is_not_preflighted_witness :
  ∃ w', SigMFArchive_init toy (Many [rec_a; rec_missing]) (Some "/out/x") None w0
        = (Raise OSError, w')
        ∧ os_path_isdir (fs w') "/tmp/tmp_" = true
        ∧ read_file (fs w') "/tmp/tmp_/m.sigmf-meta" = Some (Raw "{}")
        ∧ ∃ c, read_file (fs w') "/out/x.sigmf" = Some c.
Proof.
  refine (missing_data_file_is_not_preflighted toy toy_order_perm
            (Many [rec_a; rec_missing]) "/out/x" w0 [rec_a] rec_missing [] "m"
            "/data/missing.bin" _ _ _ _ _ _ _ _ _ _ _ _ _ _);
    try reflexivity.
  - vm_compute. discriminate.
  - apply staging_free_w0. vm_compute. reflexivity.
  - apply Forall_cons. split; [apply roundtrippable_rec_a | constructor].
  - repeat constructor; discriminate.
  - repeat constructor.
  - discriminate.
  - discriminate.
Defined.

Lemma suffix_is_optional_witness :
  SigMFArchive_init toy (Many [rec_a; rec_b]) (Some "/out/x") None w0
  = SigMFArchive_init toy (Many [rec_a; rec_b]) (Some "/out/x.sigmf") None w0.
Proof.
  apply (suffix_is_optional toy (Many [rec_a; rec_b]) "/out/x" None w0).
  vm_compute. reflexivity.
Defined.

Lemma write_only_sink_raises_oserror_witness :
  SigMFArchive_init toy (One rec_a) None (Some 0%nat) w_writeonly_sink
  = (Raise OSError, w_writeonly_sink).
Proof.
  apply (write_only_sink_raises_oserror toy (One rec_a) None 0%nat
           {| fo_path := "/out/new.sigmf"; fo_readable := false;
              fo_writable := true; fo_closed := false;
              fo_name := Some "/out/new.sigmf"; fo_pos := AtStart |}
           w_writeonly_sink);
    try reflexivity.
  - intros p. discriminate.
  - repeat constructor.
Defined.
